(** * bishopgame: the emotion parser, the character database, the game
      state and the chat engine, embedded from the Python sources.

    Python values are modelled as the interpreter has them: a [str] is a
    sequence of Unicode code points, a [dict] a finite map, an exception a
    value that a call either returns past or raises.  What the methods
    print, and the debug copy of the system prompt they write to a file,
    is left out of these models; the prints of the emotion parser, which
    can raise, are added in [Printing] further down. *)

From Stdlib Require Import ZArith NArith List Bool Lia String Ascii.
From Stdlib Require Import Numbers.DecimalString.
From stdpp Require Import base list gmap.

Open Scope N_scope.

(** ** Python strings and exceptions *)

(** A Python [str]: its code points, in order. *)
Abbreviation pystr := (list N).

(** Decoding of a UTF-8 source literal into code points.  [need] counts the
    continuation bytes still expected and [acc] the bits read so far. *)
Fixpoint utf8 (s : string) (need : nat) (acc : N) : pystr :=
  match s with
  | EmptyString => []
  | String a s' =>
      let b := N_of_ascii a in
      match need with
      | O => if b <? 128 then b :: utf8 s' 0 0
             else if b <? 224 then utf8 s' 1 (b - 192)
             else if b <? 240 then utf8 s' 2 (b - 224)
             else utf8 s' 3 (b - 240)
      | S O => (acc * 64 + (b - 128)) :: utf8 s' 0 0
      | S n => utf8 s' n (acc * 64 + (b - 128))
      end
  end.

(** A source literal as a Python [str]. *)
Definition lit (s : string) : pystr := utf8 s 0 0.
Arguments lit : simpl never.

Definition LBRACKET : N := 91.
Definition RBRACKET : N := 93.
Definition NEWLINE : N := 10.
Definition DQUOTE : N := 34.
Definition SQUOTE : N := 39.

(** An exception: the name of its class and its message. *)
Record exn := Exn { exn_type : pystr; exn_msg : pystr }.

(** The outcome of a call: a value, or a raised exception. *)
Inductive result (A : Type) : Type :=
| Return (a : A)
| Raise (e : exn).
Arguments Return {A} a.
Arguments Raise {A} e.

Definition bind {A B} (r : result A) (k : A -> result B) : result B :=
  match r with
  | Return a => k a
  | Raise e => Raise e
  end.

Notation "'let*' x ':=' c 'in' k" := (bind c (fun x => k))
  (at level 10, x name, c at level 200, k at level 200).
Notation "'let*' ' pat ':=' c 'in' k" := (bind c (fun x => match x with pat => k end))
  (at level 10, pat pattern, c at level 200, k at level 200).

(** [str(n)] for an [int]. *)
Definition str_of_Z (z : Z) : pystr :=
  lit (NilEmpty.string_of_int (Z.to_int z)).

(** [sep.join(parts)]. *)
Fixpoint join (sep : pystr) (parts : list pystr) : pystr :=
  match parts with
  | [] => []
  | [p] => p
  | p :: rest => p ++ sep ++ join sep rest
  end.

(** [Py_UNICODE_ISSPACE]: the code points [str.strip()] removes and the
    class [\s] of a [str] pattern matches. *)
Definition isspace (c : N) : bool :=
  ((9 <=? c) && (c <=? 13)) || ((28 <=? c) && (c <=? 32))
  || (c =? 133) || (c =? 160) || (c =? 5760)
  || ((8192 <=? c) && (c <=? 8202))
  || (c =? 8232) || (c =? 8233) || (c =? 8239) || (c =? 8287)
  || (c =? 12288).

(** [s.lstrip()], [s.rstrip()] and [s.strip()] without argument. *)
Fixpoint lstrip (s : pystr) : pystr :=
  match s with
  | [] => []
  | c :: s' => if isspace c then lstrip s' else s
  end.

Definition rstrip (s : pystr) : pystr := rev (lstrip (rev s)).

Definition strip (s : pystr) : pystr := rstrip (lstrip s).

(** ** The regular expressions of ai_handler.py

    The four patterns of [parse_emotion_tag] are sequences of literals,
    character classes, greedy repetitions of a class, one capturing group
    and the end anchor.  [rmatch] is the backtracking matcher of [re] on
    such sequences: a repetition first takes the longest run and gives
    characters back one at a time while the rest of the pattern fails. *)

Inductive item : Type :=
| Lit (c : N)                (* one given character *)
| Cls (p : N -> bool)        (* one character of a class *)
| Star (p : N -> bool)       (* class*, greedy *)
| Plus (p : N -> bool)       (* class+, greedy *)
| Opt (p : N -> bool)        (* class?, greedy *)
| GOpen                      (* opening parenthesis of group 1 *)
| GClose                     (* closing parenthesis of group 1 *)
| Eos.                       (* the dollar anchor, without MULTILINE *)

(** Length of the longest prefix of [s] inside the class [p]. *)
Fixpoint run (p : N -> bool) (s : pystr) : nat :=
  match s with
  | [] => O
  | c :: s' => if p c then S (run p s') else O
  end.

(** [try_down f lo n]: the first success among [f n], [f (n-1)], ...,
    [f lo]. *)
Fixpoint try_down {A} (f : nat -> option A) (lo n : nat) : option A :=
  if (n <? lo)%nat then None
  else match f n with
       | Some r => Some r
       | None => match n with
                 | O => None
                 | S n' => try_down f lo n'
                 end
       end.

(** A successful match: how many characters it spans and, relative to its
    start, where group 1 begins and ends. *)
Record rmatched := RMatched { m_len : nat; m_group : option (nat * nat) }.

(** [rmatch re s k gs g]: match the rest [re] of a pattern against the rest
    [s] of the text, [k] characters into the match, [gs] the pending start
    of group 1 and [g] its span once closed. *)
Fixpoint rmatch (re : list item) (s : pystr) (k gs : nat)
    (g : option (nat * nat)) : option rmatched :=
  match re with
  | [] => Some (RMatched k g)
  | Lit c :: re' =>
      match s with
      | x :: s' => if x =? c then rmatch re' s' (S k) gs g else None
      | [] => None
      end
  | Cls p :: re' =>
      match s with
      | x :: s' => if p x then rmatch re' s' (S k) gs g else None
      | [] => None
      end
  | Star p :: re' =>
      try_down (fun j => rmatch re' (drop j s) (k + j) gs g) 0 (run p s)
  | Plus p :: re' =>
      try_down (fun j => rmatch re' (drop j s) (k + j) gs g) 1 (run p s)
  | Opt p :: re' =>
      try_down (fun j => rmatch re' (drop j s) (k + j) gs g) 0
               (Nat.min 1 (run p s))
  | GOpen :: re' => rmatch re' s k k g
  | GClose :: re' => rmatch re' s k gs (Some (gs, k))
  | Eos :: re' =>
      match s with
      | [] => rmatch re' s k gs g
      | [x] => if x =? NEWLINE then rmatch re' s k gs g else None
      | _ => None
      end
  end.

(** The pattern matched at the very start of [s]. *)
Definition match_here (re : list item) (s : pystr) : option rmatched :=
  rmatch re s 0 0 None.

(** A match object: [start()], [end()] and the span of [group(1)], as
    positions in the searched text. *)
Record pymatch := PyMatch { m_start : nat; m_end : nat; m_span1 : option (nat * nat) }.

Definition at_offset (off : nat) (m : rmatched) : pymatch :=
  PyMatch off (off + m_len m)
          (match m_group m with
           | Some (a, b) => Some (off + a, off + b)%nat
           | None => None
           end).

(** [re.search]: the match at the leftmost position that has one.  [off] is
    the position of [s] in the whole text. *)
Fixpoint search_from (re : list item) (off : nat) (s : pystr) : option pymatch :=
  match match_here re s with
  | Some m => Some (at_offset off m)
  | None => match s with
            | [] => None
            | _ :: s' => search_from re (S off) s'
            end
  end.

Definition re_search (re : list item) (s : pystr) : option pymatch :=
  search_from re 0 s.

(** [re.finditer]: the non-overlapping matches, left to right.  [skip]
    counts the characters still covered by the match found last. *)
Fixpoint finditer_from (re : list item) (off skip : nat) (s : pystr) : list pymatch :=
  match skip with
  | S skip' =>
      match s with
      | [] => []
      | _ :: s' => finditer_from re (S off) skip' s'
      end
  | O =>
      match match_here re s with
      | Some m =>
          at_offset off m ::
          match s with
          | [] => []
          | _ :: s' => finditer_from re (S off) (Nat.pred (m_len m)) s'
          end
      | None =>
          match s with
          | [] => []
          | _ :: s' => finditer_from re (S off) 0 s'
          end
      end
  end.

Definition re_finditer (re : list item) (s : pystr) : list pymatch :=
  finditer_from re 0 0 s.

(** [re.sub(pattern, "", s)]: the text with every non-overlapping match
    removed.  An empty match removes nothing. *)
Fixpoint sub_from (re : list item) (skip : nat) (s : pystr) : pystr :=
  match s with
  | [] => []
  | c :: s' =>
      match skip with
      | S skip' => sub_from re skip' s'
      | O =>
          match match_here re s with
          | Some m =>
              match m_len m with
              | O => c :: sub_from re 0 s'
              | S n => sub_from re n s'
              end
          | None => c :: sub_from re 0 s'
          end
      end
  end.

Definition re_sub_empty (re : list item) (s : pystr) : pystr := sub_from re 0 s.

(** [m.group(1)] in the text [s]. *)
Definition group1 (s : pystr) (m : pymatch) : pystr :=
  match m_span1 m with
  | Some (a, b) => take (b - a) (drop a s)
  | None => []
  end.

(** ** game_data.py: the character database *)

(** [core_rules] of the JSON document.  Every entry is read with
    [.get(key, default)], so every entry may be missing. *)
Record CoreRules := {
  non_breakable_ruleset : option pystr;
  core_narrative : option pystr;
  interrogation_context : option (gmap pystr pystr);
  forbidden_behaviors : option (list pystr);
  allowed_behaviors : option (list pystr);
  final_purpose : option pystr
}.

(** One entry of [characters].  [name] and [role] are read by subscript:
    the schema requires them.  The other entries are read with [.get] and
    may be missing.  [relationships] keeps the order of the JSON object,
    which [.items()] follows. *)
Record Character := {
  name : pystr;
  role : pystr;
  identity_core : option pystr;
  psychological_shadow : option pystr;
  inner_conflict : option pystr;
  identity_lens : option pystr;
  core_philosophy : option pystr;
  dialogue_style : option pystr;
  forbidden_lines : option (list pystr);
  interview_modes : option (list pystr);
  relationships : option (list (pystr * pystr));
  sub_narratives : option (list pystr);
  secret_lore : option pystr;
  signature_line : option pystr;
  emotion_mapping : option (gmap pystr pystr)
}.

(** The loaded database: [self.core_rules] and [self.characters], the
    latter keyed by the decimal text of the suspect number. *)
Record CharacterDatabase := {
  core_rules : CoreRules;
  characters : gmap pystr Character
}.

Definition ValueError (msg : pystr) : exn := Exn (lit "ValueError") msg.
Definition TypeError (msg : pystr) : exn := Exn (lit "TypeError") msg.

(** [prompt_parts.append(x)]. *)
Definition append (parts : list pystr) (x : pystr) : list pystr := parts ++ [x].

(** [for x in xs: prompt_parts.append(f(x))]. *)
Definition append_each {A} (f : A -> pystr) (xs : list A) (parts : list pystr)
  : list pystr :=
  fold_left (fun acc x => append acc (f x)) xs parts.

(** [enumerate(xs, 1)]. *)
Definition enumerate1 {A} (xs : list A) : list (Z * A) :=
  combine (map Z.of_nat (seq 1 (length xs))) xs.

(** The literal texts of [get_character_system_prompt]. *)
Definition ROLE_HEADER : pystr := lit "SYSTEM / AI ROLE:".
Definition ROLE_TEXT : pystr := lit "You are an AI-driven NPC in a noir, psychological, interrogation-based narrative game.
You must NEVER reveal the real killer.
You must ALWAYS remain a valid suspect.
You DO NOT trust the detective.
You MAY lie, redirect, mislead or avoid questions completely.
The detective must EARN every piece of truth.
You speak only from YOUR character's perspective.

MEMORY LAYERS:
1) Surface Answer → safe, emotionless, misleading
2) Defensive Reaction → deny, mock, question the detective
3) Emotional Crack → a hint of vulnerability or pain
4) Fragment of Truth → small piece of real past, not full confession

Behavior must evolve ACROSS MULTIPLE INTERROGATIONS.
Unexpected mood shifts are allowed. (anger → calm → silence → fear)
Never admit innocence or guilt directly.
".
Definition RULES_HEADER : pystr := [NEWLINE] ++ lit "[قوانین بازی]".
Definition INTERROGATION_HEADER : pystr := [NEWLINE] ++ lit "[موقعیت بازجویی]".
Definition DETECTIVE_LABEL : pystr := lit "کارآگاه: ".
Definition DETECTIVE_DEFAULT : pystr := lit "کارآگاه".
Definition LOCATION_LABEL : pystr := lit "مکان: ".
Definition LOCATION_DEFAULT : pystr := lit "اتاق بازجویی".
Definition FACING_PREFIX : pystr := lit "تو در مقابل کارآگاه ".
Definition FACING_SUFFIX : pystr := lit " نشسته‌ای و بازجویی می‌شوی.".
Definition OTHERS_HEADER : pystr := [NEWLINE] ++ lit "[مظنونان دیگر]".
Definition SUSPECTS_LABEL : pystr := lit "این ۶ نفر همگی مظنون هستند: ".
Definition FORBIDDEN_HEADER : pystr := [NEWLINE] ++ lit "[رفتارهای ممنوع]".
Definition ALLOWED_HEADER : pystr := [NEWLINE] ++ lit "[رفتارهای مجاز]".
Definition CHARACTER_PREFIX : pystr := [NEWLINE] ++ lit "[شخصیت شما: ".
Definition IDENTITY_HEADER : pystr := [NEWLINE] ++ lit "[هویت اصلی]".
Definition SHADOW_HEADER : pystr := [NEWLINE] ++ lit "[سایه روان‌شناختی]".
Definition CONFLICT_HEADER : pystr := [NEWLINE] ++ lit "[تضاد درونی]".
Definition LENS_HEADER : pystr := [NEWLINE] ++ lit "[زاویه دید]".
Definition PHILOSOPHY_HEADER : pystr := [NEWLINE] ++ lit "[فلسفه اصلی]".
Definition STYLE_HEADER : pystr := [NEWLINE] ++ lit "[سبک گفتاری]".
Definition LINES_PREFIX : pystr := [NEWLINE] ++ lit "[جملات ممنوع برای ".
Definition MODES_PREFIX : pystr := [NEWLINE] ++ lit "[حالت‌های مجاز در بازجویی - فقط این ".
Definition MODES_SUFFIX : pystr := lit " حالت]:".
Definition RELATIONS_HEADER : pystr := [NEWLINE] ++ lit "[روابط با دیگران]:".
Definition BULLET : pystr := lit "• ".
Definition BACKGROUND_HEADER : pystr := [NEWLINE] ++ lit "[اطلاعات پس‌زمینه]:".
Definition SECRET_HEADER : pystr := [NEWLINE] ++ lit "[راز پنهان - فقط وقتی از نظر احساسی شکسته شدی بیان کن]".
Definition FORMAT_HEADER : pystr := [NEWLINE] ++ lit "[فرمت خروجی الزامی]".
Definition FORMAT_INTRO : pystr := lit "CRITICAL: End EVERY response with ONE emotion tag in brackets." ++ [NEWLINE] ++ lit "Valid emotions: ".
Definition FORMAT_EXAMPLE : pystr := [NEWLINE] ++ lit "Example: " ++ [DQUOTE] ++ lit "من... نمی‌دانم چه بگویم. [".
Definition FORMAT_OUTRO : pystr := lit "]" ++ [DQUOTE] ++ [NEWLINE] ++ lit "Do NOT use any other emotion tags. Do NOT copy formatting from this prompt.".
Definition SIGNATURE_PREFIX : pystr := [NEWLINE] ++ lit "[جمله امضا]: " ++ [DQUOTE].

(** [CharacterDatabase.get_character_system_prompt]. *)
Definition get_character_system_prompt (db : CharacterDatabase) (suspect_id : Z)
  : result pystr :=
  let char_key := str_of_Z suspect_id in
  match characters db !! char_key with
  | None => Raise (ValueError (lit "Invalid suspect_id: " ++ str_of_Z suspect_id))
  | Some char =>
      let rules := core_rules db in
      let prompt_parts := [] in
      (* 1. core system role *)
      let prompt_parts := append prompt_parts ROLE_HEADER in
      let prompt_parts := append prompt_parts ROLE_TEXT in
      (* 2. core narrative and rules *)
      let prompt_parts := append prompt_parts RULES_HEADER in
      let prompt_parts := append prompt_parts (default [] (non_breakable_ruleset rules)) in
      let prompt_parts := append prompt_parts ([NEWLINE] ++ default [] (core_narrative rules)) in
      (* 2.5. interrogation context *)
      let interrogation := default ∅ (interrogation_context rules) in
      let prompt_parts :=
        if bool_decide (interrogation ≠ ∅) then
          let prompt_parts := append prompt_parts INTERROGATION_HEADER in
          let prompt_parts := append prompt_parts
            (DETECTIVE_LABEL ++ default DETECTIVE_DEFAULT (interrogation !! lit "detective_name")) in
          let prompt_parts := append prompt_parts
            (LOCATION_LABEL ++ default LOCATION_DEFAULT (interrogation !! lit "location")) in
          let prompt_parts := append prompt_parts
            (FACING_PREFIX ++ default [] (interrogation !! lit "detective_name") ++ FACING_SUFFIX) in
          let prompt_parts := append prompt_parts OTHERS_HEADER in
          append prompt_parts
            (SUSPECTS_LABEL ++ default [] (interrogation !! lit "suspects_list"))
        else prompt_parts in
      (* 3. forbidden and allowed behaviors *)
      let prompt_parts := append prompt_parts FORBIDDEN_HEADER in
      let prompt_parts :=
        append_each (fun behavior => lit "- " ++ behavior)
                    (default [] (forbidden_behaviors rules)) prompt_parts in
      let prompt_parts := append prompt_parts ALLOWED_HEADER in
      let prompt_parts :=
        append_each (fun behavior => lit "- " ++ behavior)
                    (default [] (allowed_behaviors rules)) prompt_parts in
      (* 4. character-specific data *)
      let prompt_parts := append prompt_parts
        (CHARACTER_PREFIX ++ name char ++ lit " (" ++ role char ++ lit ")]") in
      let prompt_parts := append prompt_parts IDENTITY_HEADER in
      let prompt_parts := append prompt_parts (default [] (identity_core char)) in
      let prompt_parts := append prompt_parts SHADOW_HEADER in
      let prompt_parts := append prompt_parts (default [] (psychological_shadow char)) in
      let prompt_parts := append prompt_parts CONFLICT_HEADER in
      let prompt_parts := append prompt_parts (default [] (inner_conflict char)) in
      let prompt_parts := append prompt_parts LENS_HEADER in
      let prompt_parts := append prompt_parts (default [] (identity_lens char)) in
      let prompt_parts := append prompt_parts PHILOSOPHY_HEADER in
      let prompt_parts := append prompt_parts (default [] (core_philosophy char)) in
      let prompt_parts := append prompt_parts STYLE_HEADER in
      let prompt_parts := append prompt_parts (default [] (dialogue_style char)) in
      (* 5. forbidden lines of this character *)
      let prompt_parts := append prompt_parts (LINES_PREFIX ++ name char ++ lit "]:") in
      let prompt_parts :=
        append_each (fun line => lit "- " ++ line)
                    (default [] (forbidden_lines char)) prompt_parts in
      (* 6. interview modes *)
      let modes := default [] (interview_modes char) in
      let prompt_parts := append prompt_parts
        (MODES_PREFIX ++ str_of_Z (Z.of_nat (length modes)) ++ MODES_SUFFIX) in
      let prompt_parts :=
        append_each (fun im => str_of_Z (fst im) ++ lit ". " ++ snd im)
                    (enumerate1 modes) prompt_parts in
      (* 7. relationships *)
      let prompt_parts :=
        match relationships char with
        | Some (r :: rs) =>
            let prompt_parts := append prompt_parts RELATIONS_HEADER in
            append_each (fun pr => BULLET ++ fst pr ++ lit ": " ++ snd pr)
                        (r :: rs) prompt_parts
        | _ => prompt_parts
        end in
      (* 8. sub-narratives *)
      let prompt_parts :=
        match sub_narratives char with
        | Some (n :: ns) =>
            let prompt_parts := append prompt_parts BACKGROUND_HEADER in
            append_each (fun narrative => BULLET ++ narrative) (n :: ns) prompt_parts
        | _ => prompt_parts
        end in
      (* 9. secret lore *)
      let prompt_parts :=
        match secret_lore char with
        | Some (c :: lore) =>
            let prompt_parts := append prompt_parts SECRET_HEADER in
            append prompt_parts (c :: lore)
        | _ => prompt_parts
        end in
      (* 10. output format instruction *)
      let prompt_parts := append prompt_parts FORMAT_HEADER in
      let prompt_parts := append prompt_parts
        (FORMAT_INTRO
         ++ join (lit ", ") (map (fun mode => lit "[" ++ mode ++ lit "]") modes)
         ++ FORMAT_EXAMPLE
         ++ match modes with
            | first :: _ => first
            | [] => lit "default"
            end
         ++ FORMAT_OUTRO) in
      (* 11. final purpose *)
      let prompt_parts := append prompt_parts ([NEWLINE] ++ default [] (final_purpose rules)) in
      (* 12. signature line *)
      let prompt_parts := append prompt_parts
        (SIGNATURE_PREFIX ++ default [] (signature_line char) ++ [DQUOTE]) in
      Return (join [NEWLINE] prompt_parts)
  end.

(** [CharacterDatabase.get_emotion_mapping]. *)
Definition get_emotion_mapping (db : CharacterDatabase) (suspect_id : Z)
  : result (gmap pystr pystr) :=
  let char_key := str_of_Z suspect_id in
  match characters db !! char_key with
  | None => Raise (ValueError (lit "Invalid suspect_id: " ++ str_of_Z suspect_id))
  | Some char => Return (default ∅ (emotion_mapping char))
  end.

(** [CharacterDatabase.map_emotion_to_image]: the image and whether the tag
    is one of the character's own. *)
Definition map_emotion_to_image (db : CharacterDatabase) (suspect_id : Z)
    (emotion_tag : pystr) : result (pystr * bool) :=
  let* mapping := get_emotion_mapping db suspect_id in
  let emotion_tag := strip emotion_tag in
  match mapping !! emotion_tag with
  | Some image => Return (image, true)
  | None =>
      let default_image := default (lit "other.jpg") (mapping !! lit "default") in
      Return (default_image, false)
  end.

(** ** game_state.py: [get_default_emotion] *)
Definition get_default_emotion (suspect_id : Z) : pystr :=
  let default_emotions : gmap Z pystr :=
    <[1%Z := lit "scared"]> (<[2%Z := lit "other"]> (<[3%Z := lit "happy"]>
    (<[4%Z := lit "other"]> (<[5%Z := lit "angry"]> (<[6%Z := lit "scared"]> ∅))))) in
  default (lit "other") (default_emotions !! suspect_id).

(** ** ai_handler.py: [parse_emotion_tag] *)

Section EmotionParser.

(** The class [\d] of a [str] pattern is the Unicode category Nd, a table
    of the interpreter's Unicode database. *)
Variable Nd : N -> bool.

Definition is_quote (c : N) : bool := (c =? DQUOTE) || (c =? SQUOTE).
Definition is_star (c : N) : bool := c =? 42.
Definition not_rbracket (c : N) : bool := negb (c =? RBRACKET).

(** An opening brace, a quoted equals sign, a star, digits and a closing
    brace: first with single quotes only, then with either quote. *)
Definition pattern_artifact1 : list item :=
  [Lit 123; Lit SQUOTE; Lit 61; Lit SQUOTE; Cls is_star; Plus Nd; Lit 125].
Definition pattern_artifact2 : list item :=
  [Lit 123; Cls is_quote; Lit 61; Cls is_quote; Cls is_star; Plus Nd; Lit 125].

(** A bracketed tag, then blanks, at most one quote, blanks, and the end. *)
Definition pattern_end : list item :=
  [Lit LBRACKET; GOpen; Plus not_rbracket; GClose; Lit RBRACKET;
   Star isspace; Opt is_quote; Star isspace; Eos].

(** A bracketed tag anywhere. *)
Definition pattern_any : list item :=
  [Lit LBRACKET; GOpen; Plus not_rbracket; GClose; Lit RBRACKET].

(** The first three statements of [parse_emotion_tag]: both artifact
    patterns removed, then [strip()]. *)
Definition clean_artifacts (response : pystr) : pystr :=
  let response := re_sub_empty pattern_artifact1 response in
  let response := re_sub_empty pattern_artifact2 response in
  strip response.

(** The match [parse_emotion_tag] settles on: the end pattern first, else
    the last match of the tag pattern. *)
Definition find_tag (response : pystr) : option pymatch :=
  match re_search pattern_end response with
  | Some m => Some m
  | None => last (re_finditer pattern_any response)
  end.

(** [parse_emotion_tag]: the image, the cleaned response and the tag. *)
Definition parse_emotion_tag (db : CharacterDatabase) (response : pystr)
    (suspect_id : Z) : result (pystr * pystr * pystr) :=
  let response := clean_artifacts response in
  match find_tag response with
  | Some m =>
      let emotion_tag := strip (group1 response m) in
      let cleaned := take (m_start m) response ++ drop (m_end m) response in
      let cleaned := strip cleaned in
      let* '(image_filename, is_valid) := map_emotion_to_image db suspect_id emotion_tag in
      let* available := (if is_valid then Return ∅ else get_emotion_mapping db suspect_id) in
      Return (image_filename, cleaned, emotion_tag)
  | None =>
      let default_emotion_code := get_default_emotion suspect_id in
      let* emotion_mapping := get_emotion_mapping db suspect_id in
      let default_image := default (lit "other.jpg") (emotion_mapping !! lit "default") in
      Return (default_image, response, lit "default")
  end.

(** Python binds the arguments of a call before the body runs: a call that
    leaves a required positional parameter without a value raises
    [TypeError] and the body never starts.  [p1] and [p2] are the names of
    the two parameters. *)
Definition call2 {A B C} (fname p1 p2 : pystr) (f : A -> B -> result C)
    (a : option A) (b : option B) : result C :=
  match a, b with
  | Some x, Some y => f x y
  | Some _, None =>
      Raise (TypeError (fname ++ lit "() missing 1 required positional argument: '"
                        ++ p2 ++ lit "'"))
  | None, Some _ =>
      Raise (TypeError (fname ++ lit "() missing 1 required positional argument: '"
                        ++ p1 ++ lit "'"))
  | None, None =>
      Raise (TypeError (fname ++ lit "() missing 2 required positional arguments: '"
                        ++ p1 ++ lit "' and '" ++ p2 ++ lit "'"))
  end.

(** Unpacking a tuple of three into two targets. *)
Definition unpack2_of3 {A B C} (t : A * B * C) : result (A * B) :=
  Raise (ValueError (lit "too many values to unpack (expected 2)")).

(** The module-level [clean_response]: it calls [parse_emotion_tag] with
    the response alone. *)
Definition clean_response (db : CharacterDatabase) (response : pystr) : result pystr :=
  let* t := call2 (lit "parse_emotion_tag") (lit "response") (lit "suspect_id")
                  (parse_emotion_tag db) (Some response) None in
  let* '(ignored, cleaned) := unpack2_of3 t in
  Return cleaned.

End EmotionParser.

(** ** game_state.py: the game state

    The attributes of a [GameState] hold whatever was assigned to them, so
    they are Python values here: [load] stores what the save file holds
    without looking at it.  Floats are left out: no attribute of a state
    the game builds holds one. *)

#[local] Unset Elimination Schemes.
Inductive pyval : Type :=
| PNone
| PBool (b : bool)
| PInt (z : Z)
| PStr (s : pystr)
| PList (l : list pyval)
| PDict (kv : list (pystr * pyval)).   (* the items, in insertion order *)
#[local] Set Elimination Schemes.

(** [d.get(k)] on the items of a dict. *)
Fixpoint assoc {A} (k : pystr) (kv : list (pystr * A)) : option A :=
  match kv with
  | [] => None
  | (k', v) :: kv' => if bool_decide (k' = k) then Some v else assoc k kv'
  end.

(** [d[k] = v] on the items of a dict: an existing key keeps its place. *)
Fixpoint assoc_set {A} (k : pystr) (v : A) (kv : list (pystr * A)) : list (pystr * A) :=
  match kv with
  | [] => [(k, v)]
  | (k', v') :: kv' =>
      if bool_decide (k' = k) then (k', v) :: kv' else (k', v') :: assoc_set k v kv'
  end.

(** [a == b]. *)
Fixpoint py_eq (a b : pyval) {struct a} : bool :=
  match a, b with
  | PNone, PNone => true
  | PBool x, PBool y => Bool.eqb x y
  | PBool x, PInt y => (Z.b2z x =? y)%Z
  | PInt x, PBool y => (x =? Z.b2z y)%Z
  | PInt x, PInt y => (x =? y)%Z
  | PStr x, PStr y => bool_decide (x = y)
  | PList xs, PList ys =>
      (fix all2 (xs ys : list pyval) : bool :=
         match xs, ys with
         | [], [] => true
         | x :: xs', y :: ys' => py_eq x y && all2 xs' ys'
         | _, _ => false
         end) xs ys
  | PDict xs, PDict ys =>
      (length xs =? length ys)%nat &&
      (fix within (xs : list (pystr * pyval)) : bool :=
         match xs with
         | [] => true
         | (k, v) :: xs' =>
             match assoc k ys with
             | Some w => py_eq v w
             | None => false
             end && within xs'
         end) xs
  | _, _ => false
  end.

(** A [KeyError] carries the key that was not found. *)
Definition KeyError (msg : pystr) : exn := Exn (lit "KeyError") msg.
Definition AttributeError (msg : pystr) : exn := Exn (lit "AttributeError") msg.
Definition IndexError (msg : pystr) : exn := Exn (lit "IndexError") msg.

(** [type(v).__name__], as the messages of CPython's errors quote it.
    The messages below are those of CPython 3.11. *)
Definition type_name (v : pyval) : pystr :=
  match v with
  | PNone => lit "NoneType"
  | PBool _ => lit "bool"
  | PInt _ => lit "int"
  | PStr _ => lit "str"
  | PList _ => lit "list"
  | PDict _ => lit "dict"
  end.

(** ['T' object <what>], for the type [T] of [v]. *)
Definition object_error (v : pyval) (what : pystr) : pystr :=
  lit "'" ++ type_name v ++ lit "' object " ++ what.

(** [v[k]] for a [str] key. *)
Definition getitem (v : pyval) (k : pystr) : result pyval :=
  match v with
  | PDict kv =>
      match assoc k kv with
      | Some x => Return x
      | None => Raise (KeyError k)
      end
  | PList _ => Raise (TypeError (lit "list indices must be integers or slices, not str"))
  | PStr _ => Raise (TypeError (lit "string indices must be integers, not 'str'"))
  | _ => Raise (TypeError (object_error v (lit "is not subscriptable")))
  end.

(** [v[k] = x] for a [str] key. *)
Definition setitem (v : pyval) (k : pystr) (x : pyval) : result pyval :=
  match v with
  | PDict kv => Return (PDict (assoc_set k x kv))
  | PList _ => Raise (TypeError (lit "list indices must be integers or slices, not str"))
  | _ => Raise (TypeError (object_error v (lit "does not support item assignment")))
  end.

(** What [for x in v] runs through. *)
Definition iterate (v : pyval) : result (list pyval) :=
  match v with
  | PList l => Return l
  | PStr s => Return (map (fun c => PStr [c]) s)
  | PDict kv => Return (map (fun p => PStr (fst p)) kv)
  | _ => Raise (TypeError (object_error v (lit "is not iterable")))
  end.

(** [v += 1]: a number moves on by one; a [str] takes only a [str], a
    list takes what can be iterated, and the other types have no
    addition. *)
Definition add_one (v : pyval) : result pyval :=
  match v with
  | PInt z => Return (PInt (z + 1))
  | PBool b => Return (PInt (Z.b2z b + 1))
  | PStr _ =>
      Raise (TypeError (lit "can only concatenate str (not " ++ [DQUOTE] ++ lit "int"
                        ++ [DQUOTE] ++ lit ") to str"))
  | PList _ => Raise (TypeError (lit "'int' object is not iterable"))
  | _ =>
      Raise (TypeError (lit "unsupported operand type(s) for +=: '" ++ type_name v
                        ++ lit "' and 'int'"))
  end.

(** [v.append(x)]. *)
Definition list_append (v x : pyval) : result pyval :=
  match v with
  | PList l => Return (PList (l ++ [x]))
  | _ => Raise (AttributeError (object_error v (lit "has no attribute 'append'")))
  end.

(** The truth value of [v]. *)
Definition truthy (v : pyval) : bool :=
  match v with
  | PNone => false
  | PBool b => b
  | PInt z => negb (z =? 0)%Z
  | PStr s => negb (bool_decide (s = []))
  | PList l => negb (bool_decide (l = []))
  | PDict kv => negb (bool_decide (kv = []))
  end.

(** [v[-1]]. *)
Definition last_item (v : pyval) : result pyval :=
  match v with
  | PList l =>
      match last l with
      | Some x => Return x
      | None => Raise (IndexError (lit "list index out of range"))
      end
  | PStr s =>
      match last s with
      | Some c => Return (PStr [c])
      | None => Raise (IndexError (lit "string index out of range"))
      end
  | PDict _ => Raise (KeyError (lit "-1"))
  | _ => Raise (TypeError (object_error v (lit "is not subscriptable")))
  end.

Record GameState := {
  current_day : pyval;
  notebook_pages : pyval;
  game_ended : pyval;
  win_state : pyval;
  intro_shown : pyval;
  case_files_text : pyval;
  save_file : pystr
}.

Definition FINAL : pyval := PStr (lit "Final").

(** The dict literal of a blank page. *)
Definition blank_page (day : pyval) : pyval :=
  PDict [(lit "day", day); (lit "content", PStr [])].

(** [GameState.__init__]. *)
Definition init : GameState :=
  {| current_day := PInt 1;
     notebook_pages := PList [blank_page (PInt 1)];
     game_ended := PBool false;
     win_state := PStr [];
     intro_shown := PBool false;
     case_files_text := PStr [];
     save_file := lit "savegame.json" |}.

Definition set_current_day (v : pyval) (s : GameState) : GameState :=
  {| current_day := v; notebook_pages := notebook_pages s;
     game_ended := game_ended s; win_state := win_state s;
     intro_shown := intro_shown s; case_files_text := case_files_text s;
     save_file := save_file s |}.

Definition set_notebook_pages (v : pyval) (s : GameState) : GameState :=
  {| current_day := current_day s; notebook_pages := v;
     game_ended := game_ended s; win_state := win_state s;
     intro_shown := intro_shown s; case_files_text := case_files_text s;
     save_file := save_file s |}.

Definition set_game_ended (v : pyval) (s : GameState) : GameState :=
  {| current_day := current_day s; notebook_pages := notebook_pages s;
     game_ended := v; win_state := win_state s;
     intro_shown := intro_shown s; case_files_text := case_files_text s;
     save_file := save_file s |}.

Definition set_win_state (v : pyval) (s : GameState) : GameState :=
  {| current_day := current_day s; notebook_pages := notebook_pages s;
     game_ended := game_ended s; win_state := v;
     intro_shown := intro_shown s; case_files_text := case_files_text s;
     save_file := save_file s |}.

Definition set_intro_shown (v : pyval) (s : GameState) : GameState :=
  {| current_day := current_day s; notebook_pages := notebook_pages s;
     game_ended := game_ended s; win_state := win_state s;
     intro_shown := v; case_files_text := case_files_text s;
     save_file := save_file s |}.

Definition set_case_files_text (v : pyval) (s : GameState) : GameState :=
  {| current_day := current_day s; notebook_pages := notebook_pages s;
     game_ended := game_ended s; win_state := win_state s;
     intro_shown := intro_shown s; case_files_text := v;
     save_file := save_file s |}.

(** A method call leaves a state behind and returns or raises. *)
Definition outcome (A : Type) : Type := (GameState * result A)%type.

(** [GameState.advance_day]. *)
Definition advance_day (s : GameState) : outcome pyval :=
  match add_one (current_day s) with
  | Raise e => (s, Raise e)
  | Return day =>
      let s := set_current_day day s in
      match list_append (notebook_pages s) (blank_page (current_day s)) with
      | Raise e => (s, Raise e)
      | Return pages =>
          let s := set_notebook_pages pages s in
          (s, Return (current_day s))
      end
  end.

(** The loop of [get_current_page]: the first page, with its index, whose
    day is the current day or is the string Final. *)
Fixpoint find_current_page (pages : list pyval) (i : nat) (today : pyval)
  : result (option (nat * pyval)) :=
  match pages with
  | [] => Return None
  | page :: rest =>
      let* day := getitem page (lit "day") in
      if py_eq day today || py_eq day FINAL then Return (Some (i, page))
      else find_current_page rest (S i) today
  end.

(** Where a returned page lives: in the notebook, at an index, or nowhere
    but in the caller's hands. *)
Inductive page_ref : Type :=
| InNotebook (i : nat)
| Fresh.

(** [GameState.get_current_page]. *)
Definition get_current_page (s : GameState) : result (page_ref * pyval) :=
  let* pages := iterate (notebook_pages s) in
  let* found := find_current_page pages 0 (current_day s) in
  match found with
  | Some (i, page) => Return (InNotebook i, page)
  | None =>
      if truthy (notebook_pages s) then
        let* page := last_item (notebook_pages s) in
        Return (InNotebook (Nat.pred (length pages)), page)
      else Return (Fresh, blank_page (PInt 1))
  end.

(** [GameState.update_current_page]: the page is changed where it
    lives. *)
Definition update_current_page (content : pystr) (s : GameState) : outcome unit :=
  match get_current_page s with
  | Raise e => (s, Raise e)
  | Return (ref, page) =>
      match setitem page (lit "content") (PStr content) with
      | Raise e => (s, Raise e)
      | Return page' =>
          match ref, notebook_pages s with
          | InNotebook i, PList pages =>
              (set_notebook_pages (PList (<[i := page']> pages)) s, Return tt)
          | _, _ => (s, Return tt)
          end
      end
  end.

(** The loop of [create_final_page]: is there a page whose day is the
    string Final. *)
Fixpoint has_final_page (pages : list pyval) : result bool :=
  match pages with
  | [] => Return false
  | page :: rest =>
      let* day := getitem page (lit "day") in
      if py_eq day FINAL then Return true else has_final_page rest
  end.

(** [GameState.create_final_page]. *)
Definition create_final_page (s : GameState) : outcome unit :=
  match (let* pages := iterate (notebook_pages s) in has_final_page pages) with
  | Raise e => (s, Raise e)
  | Return true => (s, Return tt)
  | Return false =>
      match list_append (notebook_pages s) (blank_page FINAL) with
      | Raise e => (s, Raise e)
      | Return pages =>
          let s := set_notebook_pages pages s in
          (set_current_day FINAL s, Return tt)
      end
  end.

(** [GameState.reset]. *)
Definition reset (s : GameState) : GameState :=
  {| current_day := PInt 1;
     notebook_pages := PList [blank_page (PInt 1)];
     game_ended := PBool false;
     win_state := PStr [];
     intro_shown := PBool false;
     case_files_text := PStr [];
     save_file := save_file s |}.

(** *** Files

    What a path holds, as far as [json.load] can tell: a JSON document, or
    something that cannot be read as one.  [json.dump] and [json.load] are
    inverse to each other on [pyval]. *)
Inductive file_content : Type :=
| Json (v : pyval)
| NotJson.

(** How the [open] and [json.dump] of [save] end: both succeed, [open]
    raises and the file stays as it was, or [json.dump] raises in the
    middle of the opened, truncated file. *)
Inductive write_outcome : Type :=
| WriteOk
| OpenFails
| DumpFails.

(** [GameState.save]: the exception of a failed write is caught and
    printed. *)
Definition save (s : GameState) (io : write_outcome)
    (fs : gmap pystr file_content) : gmap pystr file_content :=
  let data := PDict [(lit "current_day", current_day s);
                     (lit "notebook_pages", notebook_pages s);
                     (lit "game_ended", game_ended s);
                     (lit "win_state", win_state s);
                     (lit "intro_shown", intro_shown s);
                     (lit "case_files_text", case_files_text s)] in
  match io with
  | WriteOk => <[save_file s := Json data]> fs
  | OpenFails => fs
  | DumpFails => <[save_file s := NotJson]> fs
  end.

(** [data.get(key, default)]. *)
Definition dict_get (data : pyval) (key : pystr) (dflt : pyval) : result pyval :=
  match data with
  | PDict kv => Return (default dflt (assoc key kv))
  | _ => Raise (AttributeError (object_error data (lit "has no attribute 'get'")))
  end.

(** One assignment [self.attr = data.get(key, default)] of [load],
    followed by the rest of the [try] block. *)
Definition assign_from (data : pyval) (key : pystr) (dflt : pyval)
    (setter : pyval -> GameState -> GameState)
    (rest : GameState -> outcome bool) (s : GameState) : outcome bool :=
  match dict_get data key dflt with
  | Raise e => (s, Raise e)
  | Return v => rest (setter v s)
  end.

(** [GameState.load]. *)
Definition load (s : GameState) (fs : gmap pystr file_content) : GameState * bool :=
  match fs !! save_file s with
  | None => (s, false)
  | Some content =>
      let attempt : outcome bool :=
        match content with
        | NotJson => (s, Raise (Exn (lit "JSONDecodeError") []))
        | Json data =>
            assign_from data (lit "current_day") (PInt 1) set_current_day
            (assign_from data (lit "notebook_pages") (PList [blank_page (PInt 1)])
                         set_notebook_pages
            (assign_from data (lit "game_ended") (PBool false) set_game_ended
            (assign_from data (lit "win_state") (PStr []) set_win_state
            (assign_from data (lit "intro_shown") (PBool false) set_intro_shown
            (assign_from data (lit "case_files_text") (PStr []) set_case_files_text
            (fun s => (s, Return true))))))) s
        end in
      match attempt with
      | (s', Return b) => (s', b)
      | (s', Raise _) => (s', false)
      end
  end.

(** ** ai_handler.py: the chat engine *)

(** One chat message: the dict with its role and its content. *)
Record message := Message { msg_role : pystr; msg_content : pystr }.

(** The conversation object of the local-model mode: a [SimpleChatEngine]
    with the system prompt it was built with and its [ChatMemoryBuffer]. *)
Record SimpleChatEngine := {
  ce_system_prompt : pystr;
  ce_token_limit : Z;
  ce_memory : list message
}.

(** The engine: which mode it runs in and one conversation per suspect,
    in [api_chat_histories] or in [chat_engines]. *)
Record AIDetectiveEngine := {
  use_api : bool;
  openai_client : bool;          (* whether the client is set *)
  api_chat_histories : gmap Z (list message);
  chat_engines : gmap Z SimpleChatEngine
}.

(** What one request to the model ends in: the tokens of a full answer, or
    the tokens received before an exception.  A full answer carries
    text: an answer without streaming whose content is [None] is left
    out. *)
Inductive llm_reply : Type :=
| Reply (tokens : list pystr)
| Failure (tokens : list pystr) (e : exn).

(** What the engine does to the world around it, in order: a request sent,
    a token handed to the streaming callback, a [time.sleep]. *)
Inductive event : Type :=
| Request (n : nat)
| Token (t : pystr)
| Sleep (seconds : Z).

(** The world: how many requests were sent so far, and the events. *)
Record world := { requests : nat; trace : list event }.

Definition emit (ev : list event) (w : world) : world :=
  {| requests := requests w; trace := trace w ++ ev |}.

Definition sent (w : world) : world :=
  {| requests := S (requests w); trace := trace w ++ [Request (requests w)] |}.

Definition set_api_chat_histories (h : gmap Z (list message))
    (e : AIDetectiveEngine) : AIDetectiveEngine :=
  {| use_api := use_api e; openai_client := openai_client e;
     api_chat_histories := h; chat_engines := chat_engines e |}.

Definition set_chat_engines (c : gmap Z SimpleChatEngine)
    (e : AIDetectiveEngine) : AIDetectiveEngine :=
  {| use_api := use_api e; openai_client := openai_client e;
     api_chat_histories := api_chat_histories e; chat_engines := c |}.

Definition FALLBACK_PROMPT : pystr :=
  lit "You are a suspect in a murder investigation. Answer carefully.".

Definition NERVOUS_PREFIX : pystr := lit "*شخصیت عصبی به نظر می‌رسد* من... من... (".

(** The reply of [get_suspect_response] when an exception reaches it: the
    class of the exception and the first hundred characters of its
    message. *)
Definition error_reply (e : exn) : pystr :=
  NERVOUS_PREFIX ++ exn_type e ++ lit ": " ++ take 100 (exn_msg e) ++ lit ")".

Definition max_retries : nat := 3.

Section Engine.

(** The remote service: its answer to the [n]-th request, given the
    messages sent. *)
Variable api_completion : nat -> list message -> llm_reply.

(** The local chat engine: what the [n]-th request, a [chat] or
    [stream_chat] on a conversation object, does to that object and
    answers. *)
Variable engine_chat : nat -> SimpleChatEngine -> pystr -> SimpleChatEngine * llm_reply.

(** The loaded character database. *)
Variable db : CharacterDatabase.

(** [_get_suspect_persona] and [_create_system_prompt]. *)
Definition _get_suspect_persona (suspect_id : Z) : pystr :=
  match get_character_system_prompt db suspect_id with
  | Return prompt => prompt
  | Raise _ => FALLBACK_PROMPT
  end.

Definition _create_system_prompt (suspect_id : Z) : pystr :=
  _get_suspect_persona suspect_id.

(** [_openai_chat].  With a callback the chunks that carry text are added
    up and handed on one by one; without, the answer comes whole. *)
Definition _openai_chat (system_prompt user_message : pystr)
    (chat_history : list message) (stream_callback : bool) (w : world)
  : world * result pystr :=
  let messages := [Message (lit "system") system_prompt] in
  let messages := messages ++ chat_history in
  let messages := messages ++ [Message (lit "user") user_message] in
  let reply := api_completion (requests w) messages in
  let w := sent w in
  if stream_callback then
    match reply with
    | Reply tokens =>
        let tokens := filter (fun t => t <> []) tokens in
        (emit (map Token tokens) w, Return (concat tokens))
    | Failure tokens e =>
        let tokens := filter (fun t => t <> []) tokens in
        (emit (map Token tokens) w, Raise e)
    end
  else
    match reply with
    | Reply tokens => (w, Return (concat tokens))
    | Failure _ e => (w, Raise e)
    end.

(** [chat_history[-20:]]. *)
Definition last20 (chat_history : list message) : list message :=
  drop (length chat_history - 20) chat_history.

(** [_get_suspect_response_api]. *)
Definition _get_suspect_response_api (suspect_id : Z) (player_question : pystr)
    (streaming stream_callback : bool) (e : AIDetectiveEngine) (w : world)
  : AIDetectiveEngine * world * result pystr :=
  let system_prompt := _create_system_prompt suspect_id in
  let e :=
    match api_chat_histories e !! suspect_id with
    | None => set_api_chat_histories (<[suspect_id := []]> (api_chat_histories e)) e
    | Some _ => e
    end in
  let chat_history := default [] (api_chat_histories e !! suspect_id) in
  let '(w, answer) :=
    _openai_chat system_prompt player_question chat_history
                 (streaming && stream_callback) w in
  match answer with
  | Raise ex => (e, w, Raise ex)
  | Return response_text =>
      let chat_history := chat_history ++ [Message (lit "user") player_question] in
      let chat_history := chat_history ++ [Message (lit "assistant") response_text] in
      let e := set_api_chat_histories
                 (<[suspect_id := chat_history]> (api_chat_histories e)) e in
      let e :=
        if (20 <? length chat_history)%nat then
          set_api_chat_histories
            (<[suspect_id := last20 chat_history]> (api_chat_histories e)) e
        else e in
      (e, w, Return response_text)
  end.

(** The retry loop of [_get_suspect_response_ollama], one round per
    element of [range(max_retries)] still to come: a request, and on an
    exception a sleep and a doubled backoff before the next round, or the
    exception raised again when the round was the last one.  With a
    callback the tokens are handed on as they come.  The loop falling
    through leaves no answer. *)
Fixpoint chat_with_retries (attempts : list nat) (backoff : Z)
    (stream_callback : bool) (player_question : pystr)
    (chat_engine : SimpleChatEngine) (w : world)
  : SimpleChatEngine * world * result (option pystr) :=
  match attempts with
  | [] => (chat_engine, w, Return None)
  | attempt :: later =>
      let '(chat_engine, reply) := engine_chat (requests w) chat_engine player_question in
      let w := sent w in
      match reply with
      | Reply tokens =>
          let w := if stream_callback then emit (map Token tokens) w else w in
          (chat_engine, w, Return (Some (concat tokens)))
      | Failure tokens ex =>
          let w := if stream_callback then emit (map Token tokens) w else w in
          if (attempt <? max_retries - 1)%nat then
            let w := emit [Sleep backoff] w in
            let backoff := (backoff * 2)%Z in
            chat_with_retries later backoff stream_callback player_question chat_engine w
          else (chat_engine, w, Raise ex)
      end
  end.

(** [_get_suspect_response_ollama]. *)
Definition _get_suspect_response_ollama (suspect_id : Z) (player_question : pystr)
    (streaming stream_callback : bool) (e : AIDetectiveEngine) (w : world)
  : AIDetectiveEngine * world * result pystr :=
  let e :=
    match chat_engines e !! suspect_id with
    | None =>
        let system_prompt := _create_system_prompt suspect_id in
        let created := {| ce_system_prompt := system_prompt;
                          ce_token_limit := 4500;
                          ce_memory := [] |} in
        set_chat_engines (<[suspect_id := created]> (chat_engines e)) e
    | Some _ => e
    end in
  match chat_engines e !! suspect_id with
  | None => (e, w, Raise (KeyError (str_of_Z suspect_id)))
  | Some chat_engine =>
      let '(chat_engine, w, answer) :=
        chat_with_retries (seq 0 max_retries) 1 (streaming && stream_callback)
                          player_question chat_engine w in
      let e := set_chat_engines (<[suspect_id := chat_engine]> (chat_engines e)) e in
      match answer with
      | Raise ex => (e, w, Raise ex)
      | Return (Some response_text) => (e, w, Return response_text)
      | Return None =>
          (e, w, Return (if streaming && stream_callback then [] else lit "None"))
      end
  end.

(** [get_suspect_response]: whatever is raised below is caught and turned
    into a reply. *)
Definition get_suspect_response (suspect_id : Z) (player_question : pystr)
    (streaming stream_callback : bool) (e : AIDetectiveEngine) (w : world)
  : AIDetectiveEngine * world * pystr :=
  let '(e, w, answer) :=
    if use_api e && openai_client e then
      _get_suspect_response_api suspect_id player_question streaming stream_callback e w
    else
      _get_suspect_response_ollama suspect_id player_question streaming stream_callback e w in
  match answer with
  | Return response_text => (e, w, response_text)
  | Raise ex => (e, w, error_reply ex)
  end.

(** [reset_chat] and [reset_all_chats]. *)
Definition reset_chat (suspect_id : Z) (e : AIDetectiveEngine) : AIDetectiveEngine :=
  let e := set_chat_engines (delete suspect_id (chat_engines e)) e in
  set_api_chat_histories (delete suspect_id (api_chat_histories e)) e.

Definition reset_all_chats (e : AIDetectiveEngine) : AIDetectiveEngine :=
  let e := set_chat_engines ∅ e in
  set_api_chat_histories ∅ e.

(** A run of questions, each with its suspect. *)
Fixpoint ask_all (questions : list (Z * pystr)) (streaming stream_callback : bool)
    (e : AIDetectiveEngine) (w : world) : AIDetectiveEngine * world :=
  match questions with
  | [] => (e, w)
  | (suspect_id, player_question) :: later =>
      let '(e, w, _) :=
        get_suspect_response suspect_id player_question streaming stream_callback e w in
      ask_all later streaming stream_callback e w
  end.

End Engine.

(** The engine as [__init__] leaves it. *)
Definition new_engine (api client : bool) : AIDetectiveEngine :=
  {| use_api := api; openai_client := client;
     api_chat_histories := ∅; chat_engines := ∅ |}.

(** ** game_state.py: pages by index *)

(** [len(v)]. *)
Definition py_len (v : pyval) : result Z :=
  match v with
  | PList l => Return (Z.of_nat (length l))
  | PStr s => Return (Z.of_nat (length s))
  | PDict kv => Return (Z.of_nat (length kv))
  | _ => Raise (TypeError (lit "object of type '" ++ type_name v ++ lit "' has no len()"))
  end.

(** [v[i]] for an [int] index, with where the item lives: an item of a
    list is the list's own, a character of a [str] is a new string. *)
Definition getitem_int (v : pyval) (i : Z) : result (page_ref * pyval) :=
  match v with
  | PList l =>
      let j := (if i <? 0 then i + Z.of_nat (length l) else i)%Z in
      if (j <? 0)%Z then Raise (IndexError (lit "list index out of range"))
      else match l !! Z.to_nat j with
           | Some x => Return (InNotebook (Z.to_nat j), x)
           | None => Raise (IndexError (lit "list index out of range"))
           end
  | PStr s =>
      let j := (if i <? 0 then i + Z.of_nat (length s) else i)%Z in
      if (j <? 0)%Z then Raise (IndexError (lit "string index out of range"))
      else match s !! Z.to_nat j with
           | Some c => Return (Fresh, PStr [c])
           | None => Raise (IndexError (lit "string index out of range"))
           end
  | PDict _ => Raise (KeyError (str_of_Z i))
  | _ => Raise (TypeError (object_error v (lit "is not subscriptable")))
  end.

(** [GameState.get_page_by_index]: the chained comparison looks at the
    length only when the index is not negative. *)
Definition get_page_by_index (index : Z) (s : GameState) : result (page_ref * pyval) :=
  if (0 <=? index)%Z then
    let* n := py_len (notebook_pages s) in
    if (index <? n)%Z then getitem_int (notebook_pages s) index
    else Return (Fresh, blank_page (PInt 1))
  else Return (Fresh, blank_page (PInt 1)).

(** [GameState.get_total_pages]. *)
Definition get_total_pages (s : GameState) : result Z :=
  py_len (notebook_pages s).

(** ** main.py: the notebook panel

    The attributes of [NotebookPanel] its page methods read and write;
    the rectangle, the font and the buttons are left out.  The panel keeps
    a reference to the game state, so a method runs on the pair of both
    objects and may change either before it returns or raises. *)
Record NotebookPanel := {
  current_spread_index : Z;
  active_side : Z;
  text_lines : list pystr;
  cursor_line : Z;
  cursor_pos : Z;
  scroll_offset : Z
}.

Definition set_current_spread_index (v : Z) (p : NotebookPanel) : NotebookPanel :=
  {| current_spread_index := v; active_side := active_side p;
     text_lines := text_lines p; cursor_line := cursor_line p;
     cursor_pos := cursor_pos p; scroll_offset := scroll_offset p |}.

Definition set_active_side (v : Z) (p : NotebookPanel) : NotebookPanel :=
  {| current_spread_index := current_spread_index p; active_side := v;
     text_lines := text_lines p; cursor_line := cursor_line p;
     cursor_pos := cursor_pos p; scroll_offset := scroll_offset p |}.

Definition set_text_lines (v : list pystr) (p : NotebookPanel) : NotebookPanel :=
  {| current_spread_index := current_spread_index p; active_side := active_side p;
     text_lines := v; cursor_line := cursor_line p;
     cursor_pos := cursor_pos p; scroll_offset := scroll_offset p |}.

Definition set_cursor_line (v : Z) (p : NotebookPanel) : NotebookPanel :=
  {| current_spread_index := current_spread_index p; active_side := active_side p;
     text_lines := text_lines p; cursor_line := v;
     cursor_pos := cursor_pos p; scroll_offset := scroll_offset p |}.

Definition set_cursor_pos (v : Z) (p : NotebookPanel) : NotebookPanel :=
  {| current_spread_index := current_spread_index p; active_side := active_side p;
     text_lines := text_lines p; cursor_line := cursor_line p;
     cursor_pos := v; scroll_offset := scroll_offset p |}.

Definition set_scroll_offset (v : Z) (p : NotebookPanel) : NotebookPanel :=
  {| current_spread_index := current_spread_index p; active_side := active_side p;
     text_lines := text_lines p; cursor_line := cursor_line p;
     cursor_pos := cursor_pos p; scroll_offset := v |}.

(** A method of the panel: from the panel and the game state to both
    after it, with what it returns or raises. *)
Definition method (A : Type) : Type :=
  NotebookPanel * GameState -> (NotebookPanel * GameState) * result A.

Definition mret {A} (a : A) : method A := fun st => (st, Return a).

Definition mbind {A B} (c : method A) (k : A -> method B) : method B :=
  fun st =>
    match c st with
    | (st', Return a) => k a st'
    | (st', Raise e) => (st', Raise e)
    end.

Notation "'do*' x ':=' c 'in' k" := (mbind c (fun x => k))
  (at level 10, x name, c at level 200, k at level 200).

(** An expression that may raise and changes nothing. *)
Definition try_ {A} (r : result A) : method A := fun st => (st, r).

(** A call of a method of the game state that changes nothing. *)
Definition on_state {A} (f : GameState -> result A) : method A :=
  fun st => (st, f (snd st)).

(** Reading and assigning attributes of the panel. *)
Definition panel_field {A} (f : NotebookPanel -> A) : method A :=
  fun st => (st, Return (f (fst st))).

Definition assign (f : NotebookPanel -> NotebookPanel) : method unit :=
  fun st => ((f (fst st), snd st), Return tt).

(** [page["content"] = content] on a page [get_page_by_index] returned: a
    page of the notebook changes in the notebook. *)
Definition set_page_content (ref : page_ref) (page : pyval) (content : pystr)
  : method unit :=
  fun st =>
    match setitem page (lit "content") (PStr content) with
    | Raise e => (st, Raise e)
    | Return page' =>
        match ref, notebook_pages (snd st) with
        | InNotebook i, PList pages =>
            ((fst st, set_notebook_pages (PList (<[i := page']> pages)) (snd st)),
             Return tt)
        | _, _ => (st, Return tt)
        end
    end.

(** [s.split(sep)] for a separator of one character. *)
Fixpoint split_on (sep : N) (s : pystr) : list pystr :=
  match s with
  | [] => [[]]
  | c :: s' =>
      if c =? sep then [] :: split_on sep s'
      else match split_on sep s' with
           | l :: ls => (c :: l) :: ls
           | [] => [[c]]
           end
  end.

(** [content.split('\n')] on whatever the page holds. *)
Definition py_split_lines (content : pyval) : result (list pystr) :=
  match content with
  | PStr s => Return (split_on NEWLINE s)
  | _ => Raise (AttributeError (object_error content (lit "has no attribute 'split'")))
  end.

(** [NotebookPanel._get_right_page_index], [_get_left_page_index] and
    [_get_active_page_index]. *)
Definition _get_right_page_index (p : NotebookPanel) : Z :=
  (current_spread_index p * 2)%Z.

Definition _get_left_page_index (p : NotebookPanel) : Z :=
  (current_spread_index p * 2 + 1)%Z.

Definition _get_active_page_index (p : NotebookPanel) : Z :=
  if (active_side p =? 0)%Z then _get_right_page_index p
  else _get_left_page_index p.

(** [get_page_by_index(idx) if idx < total_pages else None]. *)
Definition page_or_none (idx total_pages : Z) : method pyval :=
  if (idx <? total_pages)%Z then
    do* found := on_state (get_page_by_index idx) in
    mret (snd found)
  else mret PNone.

(** [day == self.game_state.current_day or day == "Final"]. *)
Definition is_today (day : pyval) : method bool :=
  do* today := on_state (fun s => Return (current_day s)) in
  mret (py_eq day today || py_eq day FINAL).

(** [NotebookPanel._load_current_spread]. *)
Definition _load_current_spread : method unit :=
  do* total_pages := on_state get_total_pages in
  do* right_idx := panel_field _get_right_page_index in
  do* left_idx := panel_field _get_left_page_index in
  do* right_page := page_or_none right_idx total_pages in
  do* left_page := page_or_none left_idx total_pages in
  (* default to the right side *)
  do* u0 := assign (set_active_side 0) in
  let active_page := right_page in
  (* the left side, when it is the current day *)
  do* active_page :=
    (if truthy left_page then
       do* left_day := try_ (dict_get left_page (lit "day") PNone) in
       do* current := is_today left_day in
       if current then
         do* u1 := assign (set_active_side 1) in
         mret left_page
       else mret active_page
     else mret active_page) in
  (* the right side takes priority *)
  do* active_page :=
    (if truthy right_page then
       do* right_day := try_ (dict_get right_page (lit "day") PNone) in
       do* current := is_today right_day in
       if current then
         do* u2 := assign (set_active_side 0) in
         mret right_page
       else mret active_page
     else mret active_page) in
  (* the content of the active page *)
  do* u3 :=
    (if truthy active_page then
       do* content := try_ (dict_get active_page (lit "content") (PStr [])) in
       if truthy content then
         do* lines := try_ (py_split_lines content) in
         assign (set_text_lines lines)
       else assign (set_text_lines [[]])
     else assign (set_text_lines [[]])) in
  do* u4 := assign (set_cursor_line 0) in
  do* u5 := assign (set_cursor_pos 0) in
  assign (set_scroll_offset 0).

(** [NotebookPanel._save_current_page]. *)
Definition _save_current_page : method unit :=
  do* lines := panel_field text_lines in
  let content := join [NEWLINE] lines in
  do* page_index := panel_field _get_active_page_index in
  do* total_pages := on_state get_total_pages in
  if (page_index <? total_pages)%Z then
    do* found := on_state (get_page_by_index page_index) in
    set_page_content (fst found) (snd found) content
  else mret tt.

(** [NotebookPanel._is_page_editable] and [_is_current_page_editable]. *)
Definition _is_page_editable (page_index : Z) : method bool :=
  do* total_pages := on_state get_total_pages in
  if (page_index >=? total_pages)%Z then mret false
  else
    do* found := on_state (get_page_by_index page_index) in
    do* page_day := try_ (dict_get (snd found) (lit "day") PNone) in
    is_today page_day.

Definition _is_current_page_editable : method bool :=
  do* page_index := panel_field _get_active_page_index in
  _is_page_editable page_index.

(** [NotebookPanel.get_page_content]. *)
Definition get_page_content (page_index : Z) : method (list pystr) :=
  do* total_pages := on_state get_total_pages in
  if (page_index >=? total_pages)%Z then mret []
  else
    do* found := on_state (get_page_by_index page_index) in
    do* content := try_ (dict_get (snd found) (lit "content") (PStr [])) in
    if truthy content then try_ (py_split_lines content) else mret [].

(** [NotebookPanel.go_to_spread_containing_page]: [//] is the floor
    division. *)
Definition go_to_spread_containing_page (page_index : Z) : method unit :=
  do* u0 := _save_current_page in
  do* u1 := assign (set_current_spread_index (page_index / 2)%Z) in
  _load_current_spread.

(** [NotebookPanel.go_to_latest_page]. *)
Definition go_to_latest_page : method unit :=
  do* total := on_state get_total_pages in
  if (total >? 0)%Z then go_to_spread_containing_page (total - 1)%Z
  else mret tt.

(** ** settings.py

    The settings are a dict: its items, in insertion order.  The disk is
    the map from paths to contents that [GameState.save] writes to. *)
Definition SETTINGS_FILE : pystr := lit "ai_settings.json".

Definition DEFAULT_SETTINGS : list (pystr * pyval) :=
  [(lit "model", PStr (lit "gemma3n"));
   (lit "isApiAvailable", PBool false);
   (lit "openai_base_url", PStr []);
   (lit "openai_api_key", PStr []);
   (lit "openai_model", PStr [])].

(** The dict display with two unpackings: the items of the second dict
    are set one by one on the items of the first. *)
Definition dict_merge (base extra : list (pystr * pyval)) : list (pystr * pyval) :=
  fold_left (fun acc item => assoc_set (fst item) (snd item) acc) extra base.

(** [load_settings]: whatever is raised while reading, or while unpacking
    a document that is no object, is caught and the defaults are
    returned. *)
Definition load_settings (fs : gmap pystr file_content) : list (pystr * pyval) :=
  let attempt : result (option (list (pystr * pyval))) :=
    match fs !! SETTINGS_FILE with
    | None => Return None
    | Some NotJson => Raise (Exn (lit "JSONDecodeError") [])
    | Some (Json (PDict settings)) => Return (Some (dict_merge DEFAULT_SETTINGS settings))
    | Some (Json v) => Raise (TypeError (object_error v (lit "is not a mapping")))
    end in
  match attempt with
  | Return (Some merged) => merged
  | Return None => DEFAULT_SETTINGS
  | Raise _ => DEFAULT_SETTINGS
  end.

(** [save_settings]: the disk after it, and whether the write went
    through. *)
Definition save_settings (settings : list (pystr * pyval)) (io : write_outcome)
    (fs : gmap pystr file_content) : gmap pystr file_content * bool :=
  match io with
  | WriteOk => (<[SETTINGS_FILE := Json (PDict settings)]> fs, true)
  | OpenFails => (fs, false)
  | DumpFails => (<[SETTINGS_FILE := NotJson]> fs, false)
  end.

(** [get_setting(key, default)]. *)
Definition get_setting (key : pystr) (dflt : pyval) (fs : gmap pystr file_content)
  : pyval :=
  let settings := load_settings fs in
  default dflt (assoc key settings).

(** [update_setting]. *)
Definition update_setting (key : pystr) (value : pyval) (io : write_outcome)
    (fs : gmap pystr file_content) : gmap pystr file_content * bool :=
  let settings := load_settings fs in
  let settings := assoc_set key value settings in
  save_settings settings io fs.

(** [is_api_mode], [get_api_config] and [get_ollama_model]. *)
Definition is_api_mode (fs : gmap pystr file_content) : pyval :=
  get_setting (lit "isApiAvailable") (PBool false) fs.

Definition get_api_config (fs : gmap pystr file_content) : list (pystr * pyval) :=
  let settings := load_settings fs in
  [(lit "base_url", default (PStr []) (assoc (lit "openai_base_url") settings));
   (lit "api_key", default (PStr []) (assoc (lit "openai_api_key") settings));
   (lit "model", default (PStr []) (assoc (lit "openai_model") settings))].

Definition get_ollama_model (fs : gmap pystr file_content) : pyval :=
  get_setting (lit "model") (PStr (lit "gemma3n")) fs.

(** The last statement of the module: the defaults are written when
    there is no settings file. *)
Definition settings_module_init (io : write_outcome) (fs : gmap pystr file_content)
  : gmap pystr file_content :=
  match fs !! SETTINGS_FILE with
  | None => fst (save_settings DEFAULT_SETTINGS io fs)
  | Some _ => fs
  end.

(** ** main.py: the end of the game

    The attributes of [DetectiveGame] that [_accuse_suspect] and
    [_start_new_game] read and write: the screen the game is on, the game
    state, and two flags. *)
Record DetectiveGame := {
  state : pyval;
  game_state : GameState;
  day_started : bool;
  load_recap_complete : bool
}.

Definition set_state (v : pyval) (g : DetectiveGame) : DetectiveGame :=
  {| state := v; game_state := game_state g; day_started := day_started g;
     load_recap_complete := load_recap_complete g |}.

Definition set_game_state (v : GameState) (g : DetectiveGame) : DetectiveGame :=
  {| state := state g; game_state := v; day_started := day_started g;
     load_recap_complete := load_recap_complete g |}.

(** [DetectiveGame._accuse_suspect]: the game and the disk after it. *)
Definition _accuse_suspect (suspect_id : Z) (io : write_outcome)
    (g : DetectiveGame) (fs : gmap pystr file_content)
  : DetectiveGame * gmap pystr file_content :=
  let g :=
    if (suspect_id =? 2)%Z then
      let g := set_state (PStr (lit "win")) g in
      set_game_state (set_win_state (PStr (lit "win")) (game_state g)) g
    else
      let g := set_state (PStr (lit "lose")) g in
      set_game_state (set_win_state (PStr (lit "lose")) (game_state g)) g in
  let g := set_game_state (set_game_ended (PBool true) (game_state g)) g in
  (g, save (game_state g) io fs).

(** The warm-up [_start_new_game] may end with: a call of
    [_start_intro_streaming] or of [_start_load_recap], which run on from
    there. *)
Inductive warm_up : Type :=
| IntroStreaming
| LoadRecap.

(** [DetectiveGame._start_new_game]: the game after it and the warm-up it
    started, if any. *)
Definition _start_new_game (g : DetectiveGame) : DetectiveGame * option warm_up :=
  if truthy (game_ended (game_state g)) then
    (set_state (win_state (game_state g)) g, None)
  else if day_started g then
    (set_state (PStr (lit "playing")) g, None)
  else if py_eq (current_day (game_state g)) (PInt 1)
          && negb (truthy (intro_shown (game_state g))) then
    let g := set_state (PStr (lit "intro")) g in
    let g := set_game_state (set_intro_shown (PBool true) (game_state g)) g in
    (g, Some IntroStreaming)
  else if truthy (intro_shown (game_state g)) && negb (load_recap_complete g) then
    (set_state (PStr (lit "load_recap")) g, Some LoadRecap)
  else
    (set_state (PStr (lit "suspect_selection")) g, None).

(** ** The console

    [print] hands its text to [sys.stdout], which encodes it.  [main]
    leaves the console on utf-8 with the strict error handler: a code
    point of the surrogate range has no encoding there, [print] raises
    [UnicodeEncodeError] and nothing of its text is written.  The message
    names the first run of surrogates of the text. *)

Definition is_surrogate (c : N) : bool := (55296 <=? c) && (c <=? 57343).

Definition UnicodeEncodeError (msg : pystr) : exn := Exn (lit "UnicodeEncodeError") msg.

(** A hexadecimal digit, in lower case. *)
Definition hex_digit (d : N) : N := if d <? 10 then 48 + d else 87 + d.

(** The escape [\uxxxx] of a code point below 65536. *)
Definition escape_u (c : N) : pystr :=
  lit "\u" ++ [hex_digit (c / 4096); hex_digit (c / 256 mod 16);
               hex_digit (c / 16 mod 16); hex_digit (c mod 16)].

(** The message of the codec for the surrogate [c] at [pos], with [more]
    surrogates right after it. *)
Definition surrogates_not_allowed (c : N) (pos more : nat) : pystr :=
  match more with
  | O =>
      lit "'utf-8' codec can't encode character '" ++ escape_u c
      ++ lit "' in position " ++ str_of_Z (Z.of_nat pos)
      ++ lit ": surrogates not allowed"
  | S _ =>
      lit "'utf-8' codec can't encode characters in position "
      ++ str_of_Z (Z.of_nat pos) ++ lit "-" ++ str_of_Z (Z.of_nat (pos + more))
      ++ lit ": surrogates not allowed"
  end.

(** What the codec raises on [text], whose first character is at [pos];
    nothing for a text it can encode. *)
Fixpoint encode_error (text : pystr) (pos : nat) : option exn :=
  match text with
  | [] => None
  | c :: rest =>
      if is_surrogate c then
        Some (UnicodeEncodeError
                (surrogates_not_allowed c pos (run is_surrogate rest)))
      else encode_error rest (S pos)
  end.

(** What a call of [print] leaves on the console: its text; or, for the
    keys of a mapping, which are written as [repr] shows a list of them,
    the label before them and the mapping.  [repr] escapes every
    character that is not printable, the surrogates among them, so the
    keys can always be encoded; their order and the table of printable
    characters are the interpreter's. *)
Inductive written : Type :=
| Line (text : pystr)
| Keys (label : pystr) (mapping : gmap pystr pystr).

(** A function that prints: from the console before the call to the
    console after it, with what the call returns or raises. *)
Definition printing (A : Type) : Type := list written -> list written * result A.

Definition pret {A} (a : A) : printing A := fun out => (out, Return a).

Definition pbind {A B} (c : printing A) (k : A -> printing B) : printing B :=
  fun out =>
    match c out with
    | (out', Return a) => k a out'
    | (out', Raise e) => (out', Raise e)
    end.

Notation "'io*' x ':=' c 'in' k" := (pbind c (fun x => k))
  (at level 10, x name, c at level 200, k at level 200).
Notation "'io*' ' pat ':=' c 'in' k" := (pbind c (fun x => match x with pat => k end))
  (at level 10, pat pattern, c at level 200, k at level 200).

(** A call that prints nothing. *)
Definition silent {A} (r : result A) : printing A := fun out => (out, r).

(** [print(text)]. *)
Definition print (text : pystr) : printing unit :=
  fun out =>
    match encode_error text 0 with
    | Some e => (out, Raise e)
    | None => (out ++ [Line text], Return tt)
    end.

(** [print(f"label{list(mapping.keys())}")]. *)
Definition print_keys (label : pystr) (mapping : gmap pystr pystr) : printing unit :=
  fun out => (out ++ [Keys label mapping], Return tt).

(** ** ai_handler.py and game_data.py: the emotion parser with its prints

    [parse_emotion_tag] and [map_emotion_to_image] once more, statement by
    statement, with every call of [print] in its place. *)
Module Printing.

Section EmotionParser.

Variable Nd : N -> bool.

(** [CharacterDatabase.map_emotion_to_image]. *)
Definition map_emotion_to_image (db : CharacterDatabase) (suspect_id : Z)
    (emotion_tag : pystr) : printing (pystr * bool) :=
  io* mapping := silent (get_emotion_mapping db suspect_id) in
  let emotion_tag := strip emotion_tag in
  match mapping !! emotion_tag with
  | Some image => pret (image, true)
  | None =>
      let default_image := default (lit "other.jpg") (mapping !! lit "default") in
      io* _ := print (lit "⚠ Invalid emotion '" ++ emotion_tag ++ lit "' for suspect "
                      ++ str_of_Z suspect_id ++ lit ", using default: "
                      ++ default_image) in
      pret (default_image, false)
  end.

(** [parse_emotion_tag]. *)
Definition parse_emotion_tag (db : CharacterDatabase) (response : pystr)
    (suspect_id : Z) : printing (pystr * pystr * pystr) :=
  io* _ := print ([NEWLINE] ++ lit "[EMOTION PARSER] Analyzing response for suspect "
                  ++ str_of_Z suspect_id) in
  io* _ := print (lit "[EMOTION PARSER] Response length: "
                  ++ str_of_Z (Z.of_nat (length response)) ++ lit " chars") in
  let response := clean_artifacts Nd response in
  io* _ := print (lit "[EMOTION PARSER] Last 100 chars: ..."
                  ++ drop (length response - 100) response) in
  io* found :=
    match re_search pattern_end response with
    | Some m => pret (Some m)
    | None =>
        match last (re_finditer pattern_any response) with
        | Some m =>
            io* _ := print (lit "[EMOTION PARSER] Found tag mid-response (using last occurrence)") in
            pret (Some m)
        | None => pret None
        end
    end in
  match found with
  | Some m =>
      let emotion_tag := strip (group1 response m) in
      let cleaned := take (m_start m) response ++ drop (m_end m) response in
      let cleaned := strip cleaned in
      io* _ := print (lit "[EMOTION PARSER] ✓ Found tag: '" ++ emotion_tag ++ lit "'") in
      io* '(image_filename, is_valid) := map_emotion_to_image db suspect_id emotion_tag in
      io* _ :=
        if is_valid : bool then
          print (lit "[Emotion Detected] ✓ '" ++ emotion_tag ++ lit "' → "
                 ++ image_filename)
        else
          io* _ := print (lit "[Emotion Fallback] ⚠ Invalid '" ++ emotion_tag
                          ++ lit "', using default: " ++ image_filename) in
          io* emotion_mapping := silent (get_emotion_mapping db suspect_id) in
          print_keys (lit "[Available Emotions] ") emotion_mapping in
      pret (image_filename, cleaned, emotion_tag)
  | None =>
      io* _ := print (lit "[EMOTION PARSER] ⚠ No emotion tag found in response!") in
      io* _ := print (lit "[No Emotion Tag] Using default for suspect "
                      ++ str_of_Z suspect_id) in
      let default_emotion_code := get_default_emotion suspect_id in
      io* emotion_mapping := silent (get_emotion_mapping db suspect_id) in
      let default_image := default (lit "other.jpg") (emotion_mapping !! lit "default") in
      io* _ := print (lit "[EMOTION PARSER] Default image: " ++ default_image) in
      pret (default_image, response, lit "default")
  end.

End EmotionParser.

End Printing.

(** ** Notions the properties are stated with *)

(** The default image of a character: the entry of its emotion mapping
    under the key default, or else the literal other.jpg. *)
Definition default_image (ch : Character) : pystr :=
  default (lit "other.jpg") (default ∅ (emotion_mapping ch) !! lit "default").

(** The image of a tag: the image the character's emotion mapping gives
    it when the tag is one of its keys, the default image otherwise. *)
Definition image_of (ch : Character) (tag : pystr) : pystr :=
  match default ∅ (emotion_mapping ch) !! tag with
  | Some image => image
  | None => default_image ch
  end.

(** A bracketed tag: an opening bracket, one or more characters that are
    not a closing bracket, and a closing bracket. *)
Definition has_tag (s : pystr) : Prop :=
  exists pre body post,
    s = pre ++ LBRACKET :: body ++ RBRACKET :: post
    /\ body <> [] /\ RBRACKET ∉ body.

(** Every opening bracket of [pre] has a closing bracket after it within
    [pre]: no tag that starts in [pre] reaches beyond it. *)
Definition closed (pre : pystr) : Prop :=
  forall u v, pre = u ++ LBRACKET :: v -> RBRACKET ∈ v.

(** What may follow a tag at the very end of a text: blanks, at most one
    quote, blanks. *)
Definition trailing (t : pystr) : Prop :=
  exists ws1 q ws2,
    t = ws1 ++ q ++ ws2
    /\ Forall (fun c => isspace c = true) ws1
    /\ Forall (fun c => isspace c = true) ws2
    /\ (q = [] \/ exists c, q = [c] /\ is_quote c = true).

(** The last tag of a text: the tag [body] between [pre] and [post], no
    tag after it, and its opening bracket the first that reaches its
    closing bracket. *)
Definition last_tag (text pre body post : pystr) : Prop :=
  text = pre ++ LBRACKET :: body ++ RBRACKET :: post
  /\ closed pre /\ body <> [] /\ (RBRACKET ∉ body) /\ ~ has_tag post.

(** [t'] is [t] with some characters other than brackets left out. *)
Inductive thinned : pystr -> pystr -> Prop :=
| thinned_nil : thinned [] []
| thinned_keep c t t' : thinned t t' -> thinned (c :: t) (c :: t')
| thinned_drop c t t' :
    c <> LBRACKET -> c <> RBRACKET -> thinned t t' -> thinned (c :: t) t'.

(** The characters an item of a pattern can consume. *)
Definition item_accepts (c : N) (i : item) : Prop :=
  match i with
  | Lit x => c = x
  | Cls p | Star p | Plus p | Opt p => p c = true
  | GOpen | GClose | Eos => False
  end.


(** The conversation state of one suspect: its API history and its chat
    engine, where it has them. *)
Definition conversation (e : AIDetectiveEngine) (suspect_id : Z)
  : option (list message) * option SimpleChatEngine :=
  (api_chat_histories e !! suspect_id, chat_engines e !! suspect_id).

(** The requests and sleeps among the events that [w'] has and [w] had
    not yet: the tokens handed to the callback are left out. *)
Definition paces (ev : event) : bool :=
  match ev with
  | Token _ => false
  | _ => true
  end.

Definition pacing (w w' : world) : list event :=
  List.filter paces (drop (length (trace w)) (trace w')).

(** Whether the engine runs in API mode, as [get_suspect_response]
    tests it. *)
Definition api_mode (e : AIDetectiveEngine) : bool := use_api e && openai_client e.

(** The conversation object [_get_suspect_response_ollama] builds on the
    first question to a suspect. *)
Definition fresh_engine (db : CharacterDatabase) (suspect_id : Z) : SimpleChatEngine :=
  {| ce_system_prompt := _create_system_prompt db suspect_id;
     ce_token_limit := 4500;
     ce_memory := [] |}.

(** The reply a finished retry loop amounts to. *)
Definition reply_text (stream : bool) (answer : option pystr) : pystr :=
  match answer with
  | Some text => text
  | None => if stream then [] else lit "None"
  end.

(** The reply, the world and the suspect's own state after one question,
    as a function of the mode and of that suspect's state before. *)
Definition outcome_for (api_completion : nat -> list message -> llm_reply)
    (engine_chat : nat -> SimpleChatEngine -> pystr -> SimpleChatEngine * llm_reply)
    (db : CharacterDatabase) (api : bool) (a : Z) (question : pystr)
    (streaming callback : bool)
    (conv : option (list message) * option SimpleChatEngine) (w : world)
  : (option (list message) * option SimpleChatEngine) * world * pystr :=
  if api then
    let h := default [] (fst conv) in
    let '(w', answer) :=
      _openai_chat api_completion (_create_system_prompt db a) question h
                   (streaming && callback) w in
    match answer with
    | Raise ex => ((Some h, snd conv), w', error_reply ex)
    | Return text =>
        ((Some (last20 (h ++ [Message (lit "user") question;
                              Message (lit "assistant") text])), snd conv),
         w', text)
    end
  else
    let ce0 := default (fresh_engine db a) (snd conv) in
    let '(ce', w', answer) :=
      chat_with_retries engine_chat (seq 0 max_retries) 1 (streaming && callback)
                        question ce0 w in
    ((fst conv, Some ce'), w',
     match answer with
     | Raise ex => error_reply ex
     | Return text => reply_text (streaming && callback) text
     end).

(** The six attributes [save] writes and [load] reads. *)
Definition saved_fields (s : GameState) : list pyval :=
  [current_day s; notebook_pages s; game_ended s; win_state s; intro_shown s;
   case_files_text s].

(** A notebook page with the given day and text. *)
Definition page (day : pyval) (content : pystr) : pyval :=
  PDict [(lit "day", day); (lit "content", PStr content)].

(** The pages of the days [k], [k+1], ... with the given texts. *)
Fixpoint numbered (k : Z) (contents : list pystr) : list pyval :=
  match contents with
  | [] => []
  | c :: cs => page (PInt k) c :: numbered (k + 1) cs
  end.

(** The states the methods build: a page for each day from 1 on, then
    possibly the Final page; the current day is the last day, or the
    string Final once its page is there. *)
Definition well_formed (s : GameState) : Prop :=
  exists (contents : list pystr) (final : option pystr),
    contents <> []
    /\ notebook_pages s
       = PList (numbered 1 contents
                ++ match final with Some c => [page FINAL c] | None => [] end)
    /\ current_day s
       = match final with
         | Some _ => FINAL
         | None => PInt (Z.of_nat (length contents))
         end.

(** The notebook is not empty and has a page for the current day. *)
Definition has_today (s : GameState) : Prop :=
  exists pages p day,
    notebook_pages s = PList pages /\ pages <> []
    /\ p ∈ pages /\ getitem p (lit "day") = Return day
    /\ py_eq day (current_day s) = true.

(** The states reached from a new one by the methods of [GameState] that
    change days and pages. *)
Inductive reachable : GameState -> Prop :=
| reach_init : reachable init
| reach_reset s : reachable s -> reachable (reset s)
| reach_advance s : reachable s -> reachable (fst (advance_day s))
| reach_final s : reachable s -> reachable (fst (create_final_page s))
| reach_update s content :
    reachable s -> reachable (fst (update_current_page content s)).

(** How many pages of a notebook carry the day Final. *)
Definition final_pages (s : GameState) : nat :=
  match notebook_pages s with
  | PList pages =>
      length (List.filter (fun p => match getitem p (lit "day") with
                                    | Return d => py_eq d FINAL
                                    | Raise _ => false
                                    end) pages)
  | _ => 0%nat
  end.

















(** What follows the closing bracket in the end pattern. *)
Definition tail_re : list item := [Star isspace; Opt is_quote; Star isspace; Eos].

(** ** A sample database, for the instances below *)

Definition sample_mapping : gmap pystr pystr :=
  <[lit "angry" := lit "angry.jpg"]> (<[lit "default" := lit "calm.jpg"]> ∅).

Definition sample_character : Character :=
  {| name := lit "Gavron"; role := lit "blacksmith";
     identity_core := Some (lit "a maker of blades");
     psychological_shadow := None; inner_conflict := None;
     identity_lens := None; core_philosophy := None; dialogue_style := None;
     forbidden_lines := Some [lit "I did it"];
     interview_modes := Some [lit "angry"; lit "afraid"];
     relationships := Some [(lit "nun", lit "distrust")];
     sub_narratives := None; secret_lore := None;
     signature_line := Some (lit "Iron does not lie.");
     emotion_mapping := Some sample_mapping |}.

Definition sample_db : CharacterDatabase :=
  {| core_rules := {| non_breakable_ruleset := Some (lit "Stay in character.");
                      core_narrative := None;
                      interrogation_context := None;
                      forbidden_behaviors := Some [lit "confessing"];
                      allowed_behaviors := None;
                      final_purpose := None |};
     characters := <[lit "1" := sample_character]> ∅ |}.

(** The decimal digits of the ASCII, Arabic-Indic and Persian blocks: part
    of the category Nd, enough for the instances below. *)
Definition sample_Nd (c : N) : bool :=
  ((48 <=? c) && (c <=? 57)) || ((1632 <=? c) && (c <=? 1641))
  || ((1776 <=? c) && (c <=? 1785)).

(** A remote service that answers every request with the same two
    chunks, and a local engine that remembers the question and fails
    every request with a server error. *)
Definition sample_api (n : nat) (messages : list message) : llm_reply :=
  Reply [lit "I saw nothing. "; lit "[angry]"].

Definition server_error : exn := Exn (lit "ResponseError") (lit "503 Service Unavailable").

Definition failing_chat (n : nat) (chat_engine : SimpleChatEngine) (question : pystr)
  : SimpleChatEngine * llm_reply :=
  ({| ce_system_prompt := ce_system_prompt chat_engine;
      ce_token_limit := ce_token_limit chat_engine;
      ce_memory := ce_memory chat_engine ++ [Message (lit "user") question] |},
   Failure [] server_error).

Definition start : world := {| requests := 0; trace := [] |}.

Definition sample_question : pystr := lit "Where were you last night?".


(** A state in the middle of a game, and a disk with nothing on it. *)
Definition sample_state : GameState :=
  set_case_files_text (PStr (lit "Six suspects wait."))
    (set_intro_shown (PBool true) (fst (advance_day init))).

Definition empty_disk : gmap pystr file_content := ∅.

(** The game after [_make_accusation] in the middle of that game: the
    Final page is in the notebook and the state is on disk; and the state
    a later launch of the game loads from there. *)
Definition accusing_state : GameState := fst (create_final_page sample_state).

Definition accusing_disk : gmap pystr file_content :=
  save accusing_state WriteOk empty_disk.

Definition reloaded_state : GameState := fst (load init accusing_disk).

(** A save file that holds the JSON document of an empty array. *)
Definition array_disk : gmap pystr file_content :=
  <[lit "savegame.json" := Json (PList [])]> ∅.

(** ** Proof steps used more than once *)

(** Closes a goal whose two sides differ in how an offset is added up. *)
Ltac offsets :=
  cbn [length]; rewrite ?Nat.add_succ_r, ?Nat.add_0_r; cbn [Nat.add]; reflexivity.

(** Two terms that differ in how their day numbers are written. *)
Ltac same_days := first [reflexivity | lia | (progress f_equal; same_days)].

(** The panel as [_load_current_spread] leaves it: the spread it was on,
    the side it found active and the lines it read, cursor and scroll
    position at the start. *)
Definition loaded_panel (spread side : Z) (lines : list pystr) : NotebookPanel :=
  {| current_spread_index := spread; active_side := side; text_lines := lines;
     cursor_line := 0; cursor_pos := 0; scroll_offset := 0 |}.

(** The lines of the panel are those of its active page: saving them
    writes nothing new. *)
Definition in_sync (p : NotebookPanel) (s : GameState) : Prop :=
  _save_current_page (p, s) = ((p, s), Return tt).

(** A panel as it is built over a new game: the first spread, one empty
    line. *)
Definition sample_panel : NotebookPanel := loaded_panel 0 0 [[]].

(** The same panel with the left side active: it is on the second page
    of the notebook. *)
Definition left_panel : NotebookPanel := loaded_panel 0 1 [[]].

(** The tokens handed to the streaming callback among the events that
    [w'] has and [w] had not yet, in order. *)
Definition token_text (ev : event) : list pystr :=
  match ev with
  | Token t => [t]
  | _ => []
  end.

Definition streamed (w w' : world) : list pystr :=
  flat_map token_text (drop (length (trace w)) (trace w')).

(** A local engine whose first request breaks off after two tokens and
    whose later requests are answered in full. *)
Definition flaky_chat (n : nat) (chat_engine : SimpleChatEngine) (question : pystr)
  : SimpleChatEngine * llm_reply :=
  (chat_engine,
   match n with
   | O => Failure [lit "I was "; lit "at "] server_error
   | S _ => Reply [lit "I was "; lit "asleep."]
   end).

(** The suspects a run of questions goes to. *)
Definition asked (questions : list (Z * pystr)) : gset Z :=
  list_to_set (map fst questions).

(** A settings file as the settings screen leaves it, with the API turned
    on and a key the defaults do not have. *)
Definition sample_settings : list (pystr * pyval) :=
  [(lit "isApiAvailable", PBool true);
   (lit "openai_model", PStr (lit "gpt-4o-mini"));
   (lit "language", PStr (lit "fa"))].

(** The game as [DetectiveGame.__init__] has it once the save file is
    read: the loading screen, a new [GameState] after [load], no day
    started. *)
Definition launched (fs : gmap pystr file_content) : DetectiveGame :=
  {| state := PStr (lit "loading");
     game_state := fst (load init fs);
     day_started := false;
     load_recap_complete := false |}.

(** The lines the panel shows for a page with the given content. *)
Definition lines_of (content : pystr) : list pystr :=
  match content with
  | [] => [[]]
  | _ => split_on NEWLINE content
  end.

(** A text the console can encode: no code point of it is a surrogate. *)
Definition encodable (text : pystr) : bool :=
  forallb (fun c => negb (is_surrogate c)) text.


(** The console can encode every image name of the character's emotion
    mapping. *)
Definition images_encodable (ch : Character) : Prop :=
  forall tag image,
    default ∅ (emotion_mapping ch) !! tag = Some image -> encodable image = true.

(** The states of a game: a new state, and what the calls and the
    assignments of main.py make of a state of a game.  These are the
    methods of [GameState] that change it, the four attributes main.py
    assigns, a page the notebook panel saves, and the state a later
    launch loads from the file an earlier one has saved. *)
Inductive played : GameState -> Prop :=
| played_new : played init
| played_reset s : played s -> played (reset s)
| played_advance s : played s -> played (fst (advance_day s))
| played_final s : played s -> played (fst (create_final_page s))
| played_update s content :
    played s -> played (fst (update_current_page content s))
| played_intro_shown s v : played s -> played (set_intro_shown v s)
| played_case_files s v : played s -> played (set_case_files_text v s)
| played_win_state s v : played s -> played (set_win_state v s)
| played_game_ended s v : played s -> played (set_game_ended v s)
| played_page_saved s p :
    played s -> played (snd (fst (_save_current_page (p, s))))
| played_reloaded s fs :
    played s -> played (fst (load init (save s WriteOk fs))).

(** * Properties *)

(** ** The emotion parser *)

Lemma get_emotion_mapping_known db suspect_id ch :
  characters db !! str_of_Z suspect_id = Some ch ->
  get_emotion_mapping db suspect_id = Return (default ∅ (emotion_mapping ch)).
Proof. intros H. unfold get_emotion_mapping. now rewrite H. Qed.

Lemma strip_idempotent_l s : lstrip (lstrip s) = lstrip s.
Proof.
  induction s as [|c s IH]; simpl; [reflexivity|].
  destruct (isspace c) eqn:E; [exact IH|]. simpl. now rewrite E.
Qed.

Lemma parse_emotion_tag_found Nd db response suspect_id ch m :
  characters db !! str_of_Z suspect_id = Some ch ->
  find_tag (clean_artifacts Nd response) = Some m ->
  let text := clean_artifacts Nd response in
  parse_emotion_tag Nd db response suspect_id =
  Return (image_of ch (strip (strip (group1 text m))),
          strip (take (m_start m) text ++ drop (m_end m) text),
          strip (group1 text m)).
Proof.
  intros Hch Hm text. subst text. unfold parse_emotion_tag. rewrite Hm.
  unfold map_emotion_to_image. rewrite (get_emotion_mapping_known _ _ _ Hch).
  cbn [bind]. unfold image_of.
  destruct (default ∅ (emotion_mapping ch) !! strip (strip (group1 _ m)));
    cbn [bind]; reflexivity.
Qed.

Lemma parse_emotion_tag_none Nd db response suspect_id ch :
  characters db !! str_of_Z suspect_id = Some ch ->
  find_tag (clean_artifacts Nd response) = None ->
  parse_emotion_tag Nd db response suspect_id =
  Return (default_image ch, clean_artifacts Nd response, lit "default").
Proof.
  intros Hch Hm. unfold parse_emotion_tag. rewrite Hm.
  rewrite (get_emotion_mapping_known _ _ _ Hch). reflexivity.
Qed.

(** The selection of [parse_emotion_tag], its prints left aside: for a
    suspect of the database it gives an image, which is an image of that
    character's emotion mapping or the literal other.jpg. *)
Theorem parse_emotion_tag_image_in_range Nd db response suspect_id ch :
  characters db !! str_of_Z suspect_id = Some ch ->
  exists image cleaned tag,
    parse_emotion_tag Nd db response suspect_id = Return (image, cleaned, tag)
    /\ (image = lit "other.jpg"
        \/ exists emotion, default ∅ (emotion_mapping ch) !! emotion = Some image).
Proof.
  intros Hch.
  destruct (find_tag (clean_artifacts Nd response)) as [m|] eqn:Hm.
  - rewrite (parse_emotion_tag_found _ _ _ _ _ _ Hch Hm).
    eexists _, _, _. split; [reflexivity|].
    unfold image_of.
    destruct (default ∅ (emotion_mapping ch) !! strip (strip (group1 _ m))) eqn:E.
    + right. eauto.
    + unfold default_image.
      destruct (default ∅ (emotion_mapping ch) !! lit "default") eqn:D; simpl.
      * right. eauto.
      * now left.
  - rewrite (parse_emotion_tag_none _ _ _ _ _ Hch Hm).
    eexists _, _, _. split; [reflexivity|]. unfold default_image.
    destruct (default ∅ (emotion_mapping ch) !! lit "default") eqn:D; simpl.
    + right. eauto.
    + now left.
Qed.

Lemma parse_emotion_tag_image_in_range_witness :
  exists image cleaned tag,
    parse_emotion_tag sample_Nd sample_db (lit "No. [angry]") 1
    = Return (image, cleaned, tag)
    /\ (image = lit "other.jpg"
        \/ exists emotion,
             default ∅ (emotion_mapping sample_character) !! emotion = Some image).
Proof.
  apply (parse_emotion_tag_image_in_range sample_Nd sample_db (lit "No. [angry]") 1
           sample_character).
  vm_compute. reflexivity.
Defined.

(** C10: the module-level [clean_response] raises for every input: the
    call of [parse_emotion_tag] with the response alone raises
    [TypeError] for the missing [suspect_id], and no cleaned string is
    ever returned. *)
Theorem clean_response_always_raises Nd db response :
  clean_response Nd db response
  = Raise (TypeError (lit "parse_emotion_tag() missing 1 required positional argument: 'suspect_id'"))
  /\ forall cleaned, clean_response Nd db response <> Return cleaned.
Proof.
  assert (H : clean_response Nd db response
              = Raise (TypeError (lit "parse_emotion_tag() missing 1 required positional argument: 'suspect_id'")))
    by reflexivity.
  split; [exact H|]. intros cleaned. rewrite H. discriminate.
Qed.

(** ** The matcher *)

Open Scope nat_scope.

Lemma try_down_first {A} (f : nat -> option A) lo n r :
  lo <= n -> f n = Some r -> try_down f lo n = Some r.
Proof.
  intros Hlo Hf. destruct n; simpl.
  - destruct lo; [|lia]. simpl. now rewrite Hf.
  - destruct (Nat.ltb_spec (S n) lo); [lia|]. now rewrite Hf.
Qed.

Lemma try_down_Some {A} (f : nat -> option A) lo n r :
  try_down f lo n = Some r -> exists j, lo <= j <= n /\ f j = Some r.
Proof.
  induction n as [|n IH]; simpl.
  - destruct (Nat.ltb_spec 0 lo); [discriminate|].
    destruct (f 0) eqn:E; [|discriminate]. intros [= <-]. exists 0. split; [lia|exact E].
  - destruct (Nat.ltb_spec (S n) lo); [discriminate|].
    destruct (f (S n)) eqn:E.
    + intros [= <-]. exists (S n). split; [lia|exact E].
    + intros H1. destruct (IH H1) as (j & Hj & Hfj). exists j. split; [lia|exact Hfj].
Qed.

Lemma try_down_None {A} (f : nat -> option A) lo n :
  (forall j, lo <= j <= n -> f j = None) -> try_down f lo n = None.
Proof.
  induction n as [|n IH]; intros H; simpl.
  - destruct (Nat.ltb_spec 0 lo); [reflexivity|]. rewrite H by lia. reflexivity.
  - destruct (Nat.ltb_spec (S n) lo); [reflexivity|]. rewrite H by lia.
    apply IH. intros j Hj. apply H. lia.
Qed.

Lemma try_down_top {A} (f : nat -> option A) lo n :
  lo <= n -> (forall j, lo <= j < n -> f j = None) -> try_down f lo n = f n.
Proof.
  intros Hlo H. destruct (f n) eqn:E.
  - now apply try_down_first.
  - apply try_down_None. intros j Hj.
    destruct (Nat.eq_dec j n) as [->|]; [exact E|apply H; lia].
Qed.

Lemma run_le p s : run p s <= length s.
Proof. induction s as [|c s IH]; simpl; [lia|]. destruct (p c); simpl; lia. Qed.

Lemma run_take p s j :
  j <= run p s -> Forall (fun c => p c = true) (take j s).
Proof.
  revert j. induction s as [|c s IH]; intros j Hj; simpl in *.
  - destruct j; constructor.
  - destruct j; [constructor|]. destruct (p c) eqn:E; [|lia].
    simpl. constructor; [exact E|]. apply IH. lia.
Qed.

Lemma run_all p s : Forall (fun c => p c = true) s -> run p s = length s.
Proof. induction 1 as [|c s Hc _ IH]; simpl; [reflexivity|]. now rewrite Hc, IH. Qed.

Lemma run_stop p body c post :
  Forall (fun x => p x = true) body -> p c = false ->
  run p (body ++ c :: post) = length body.
Proof.
  induction 1 as [|x s Hx _ IH]; intros Hc; simpl.
  - now rewrite Hc.
  - now rewrite Hx, IH.
Qed.

Lemma not_rbracket_Forall body :
  RBRACKET ∉ body -> Forall (fun x => not_rbracket x = true) body.
Proof.
  intros H. apply Forall_forall. intros x Hx. unfold not_rbracket.
  destruct (N.eqb_spec x RBRACKET) as [->|]; [contradiction|reflexivity].
Qed.

Lemma isspace_not_bracket c : isspace c = true -> c <> LBRACKET /\ c <> RBRACKET.
Proof. intros H. split; intros ->; vm_compute in H; discriminate. Qed.

Lemma is_quote_not_space c : is_quote c = true -> isspace c = false.
Proof.
  unfold is_quote. intros H. apply orb_true_iff in H as [H|H];
    apply N.eqb_eq in H; subst c; reflexivity.
Qed.

Lemma is_quote_not_bracket c : is_quote c = true -> c <> LBRACKET /\ c <> RBRACKET.
Proof. intros H. split; intros ->; vm_compute in H; discriminate. Qed.

Lemma in_drop (x : N) (j : nat) (l : pystr) : x ∈ drop j l -> x ∈ l.
Proof. intros H. rewrite <- (take_drop j l). apply elem_of_app. now right. Qed.

Lemma tail_re_trailing post k gs g :
  trailing post ->
  rmatch tail_re post k gs g = Some (RMatched (k + length post) g).
Proof.
  intros (ws1 & q & ws2 & -> & H1 & H2 & Hq). unfold tail_re.
  destruct Hq as [->|(c & -> & Hc)].
  - (* blanks only *)
    cbn [rmatch app]. 
    assert (Hall : Forall (fun c => isspace c = true) (ws1 ++ ws2))
      by (apply Forall_app; split; assumption).
    rewrite (run_all _ _ Hall).
    apply try_down_first; [lia|]. rewrite drop_all. cbn.
    f_equal. f_equal. lia.
  - cbn [rmatch app].
    rewrite (run_stop isspace ws1 c ws2 H1 (is_quote_not_space c Hc)).
    apply try_down_first; [lia|].
    rewrite drop_app_length. cbn [run]. rewrite Hc. cbn [Nat.min].
    apply try_down_first; [lia|]. cbn [drop]. rewrite ?drop_0.
    rewrite (run_all _ _ H2).
    apply try_down_first; [lia|]. rewrite drop_all. cbn.
    f_equal. f_equal. rewrite length_app. simpl. lia.
Qed.

Lemma tail_re_Some post k gs g r :
  rmatch tail_re post k gs g = Some r -> trailing post.
Proof.
  unfold tail_re. cbn [rmatch]. intros H.
  apply try_down_Some in H as (j1 & Hj1 & H).
  apply try_down_Some in H as (j2 & Hj2 & H).
  apply try_down_Some in H as (j3 & Hj3 & H).
  remember (drop j1 post) as d1 eqn:E1. remember (drop j2 d1) as d2 eqn:E2.
  remember (drop j3 d2) as d3 eqn:E3.
  assert (Hd3 : Forall (fun c => isspace c = true) d3).
  { destruct d3 as [|x [|y d3]]; [constructor| |discriminate].
    destruct (N.eqb_spec x NEWLINE) as [->|]; [|discriminate].
    constructor; [reflexivity|constructor]. }
  exists (take j1 post), (take j2 d1), (take j3 d2 ++ d3).
  split; [|split; [|split]].
  - subst d3 d2 d1. now rewrite !take_drop.
  - apply run_take. lia.
  - apply Forall_app. split; [apply run_take; lia|exact Hd3].
  - destruct j2 as [|[|j2]].
    + left. apply take_0.
    + right. destruct d1 as [|c d1']; [simpl in Hj2; lia|].
      exists c. split; [reflexivity|].
      simpl in Hj2. destruct (is_quote c); [reflexivity|simpl in Hj2; lia].
    + exfalso. destruct (run is_quote d1); simpl in Hj2; lia.
Qed.

Lemma trailing_no_bracket t c :
  trailing t -> c ∈ t -> c <> LBRACKET /\ c <> RBRACKET.
Proof.
  intros (ws1 & q & ws2 & -> & H1 & H2 & Hq) Hin.
  rewrite !elem_of_app in Hin. destruct Hin as [Hin|[Hin|Hin]].
  - rewrite Forall_forall in H1. apply isspace_not_bracket. auto.
  - destruct Hq as [->|(x & -> & Hx)]; [inversion Hin|].
    apply list_elem_of_singleton in Hin as ->. now apply is_quote_not_bracket.
  - rewrite Forall_forall in H2. apply isspace_not_bracket. auto.
Qed.

(** *** The two tag patterns at one position *)

Lemma tag_open (re : list item) s :
  match_here (Lit LBRACKET :: GOpen :: Plus not_rbracket :: re) (LBRACKET :: s)
  = try_down (fun j => rmatch re (drop j s) (1 + j) 1 None) 1 (run not_rbracket s).
Proof. reflexivity. Qed.

Lemma tag_close (re : list item) post k gs g :
  rmatch (GClose :: Lit RBRACKET :: re) (RBRACKET :: post) k gs g
  = rmatch re post (S k) gs (Some (gs, k)).
Proof. reflexivity. Qed.

Lemma pattern_end_shape :
  pattern_end
  = Lit LBRACKET :: GOpen :: Plus not_rbracket :: GClose :: Lit RBRACKET :: tail_re.
Proof. reflexivity. Qed.

Lemma pattern_any_shape :
  pattern_any
  = Lit LBRACKET :: GOpen :: Plus not_rbracket :: GClose :: Lit RBRACKET :: [].
Proof. reflexivity. Qed.

(** Giving characters of the tag body back never helps: the closing
    bracket must follow. *)
Lemma tag_close_inside (re : list item) s j k gs g :
  RBRACKET ∉ take (S j) s ->
  rmatch (GClose :: Lit RBRACKET :: re) (drop j s) k gs g = None.
Proof.
  intros Hrb. cbn [rmatch].
  destruct (drop j s) as [|x d] eqn:E; [reflexivity|].
  destruct (N.eqb_spec x RBRACKET) as [->|]; [|reflexivity].
  exfalso. apply Hrb. rewrite <- (take_drop j s) at 1. rewrite E.
  rewrite take_app_ge by (rewrite length_take; lia).
  apply elem_of_app. right.
  destruct (S j - length (take j s)) eqn:En.
  - rewrite length_take in En. lia.
  - simpl. left.
Qed.

Lemma match_any_tag body post :
  body <> [] -> RBRACKET ∉ body ->
  match_here pattern_any (LBRACKET :: body ++ RBRACKET :: post)
  = Some (RMatched (2 + length body) (Some (1, 1 + length body))).
Proof.
  intros Hne Hrb. rewrite pattern_any_shape, tag_open.
  rewrite (run_stop not_rbracket body RBRACKET post (not_rbracket_Forall _ Hrb) eq_refl).
  apply try_down_first; [destruct body; [contradiction|simpl; lia]|].
  rewrite drop_app_length, tag_close. reflexivity.
Qed.

Lemma match_end_tag body post :
  body <> [] -> RBRACKET ∉ body -> trailing post ->
  match_here pattern_end (LBRACKET :: body ++ RBRACKET :: post)
  = Some (RMatched (2 + length body + length post) (Some (1, 1 + length body))).
Proof.
  intros Hne Hrb Ht. rewrite pattern_end_shape, tag_open.
  rewrite (run_stop not_rbracket body RBRACKET post (not_rbracket_Forall _ Hrb) eq_refl).
  apply try_down_first; [destruct body; [contradiction|simpl; lia]|].
  rewrite drop_app_length, tag_close.
  rewrite (tail_re_trailing _ _ _ _ Ht). reflexivity.
Qed.

Lemma take_body_no_rbracket body post j :
  RBRACKET ∉ body -> j < length body ->
  RBRACKET ∉ take (S j) (body ++ RBRACKET :: post).
Proof.
  intros Hrb Hj. rewrite take_app_le by lia.
  intros Hin. apply Hrb. rewrite <- (take_drop (S j) body).
  apply elem_of_app. now left.
Qed.

Lemma match_end_not_trailing body post :
  RBRACKET ∉ body -> ~ trailing post ->
  match_here pattern_end (LBRACKET :: body ++ RBRACKET :: post) = None.
Proof.
  intros Hrb Ht. rewrite pattern_end_shape, tag_open.
  rewrite (run_stop not_rbracket body RBRACKET post (not_rbracket_Forall _ Hrb) eq_refl).
  apply try_down_None. intros j Hj.
  destruct (Nat.eq_dec j (length body)) as [->|Hne].
  - rewrite drop_app_length, tag_close.
    match goal with |- ?x = None => destruct x eqn:E; [|reflexivity] end.
    exfalso. apply Ht. exact (tail_re_Some _ _ _ _ _ E).
  - apply tag_close_inside. apply take_body_no_rbracket; [exact Hrb|lia].
Qed.

(** No tag starts at a position that holds no opening bracket, whose
    bracket is closed at once, or whose bracket is never closed. *)
Lemma match_tag_nil (re : list item) :
  match_here (Lit LBRACKET :: re) [] = None.
Proof. reflexivity. Qed.

Lemma match_tag_other (re : list item) c s :
  c <> LBRACKET -> match_here (Lit LBRACKET :: re) (c :: s) = None.
Proof.
  intros H. unfold match_here. cbn [rmatch].
  destruct (N.eqb_spec c LBRACKET); [contradiction|reflexivity].
Qed.

Lemma match_tag_empty_body (re : list item) s :
  match_here (Lit LBRACKET :: GOpen :: Plus not_rbracket :: re)
             (LBRACKET :: RBRACKET :: s) = None.
Proof. reflexivity. Qed.

Lemma match_tag_unclosed (re : list item) s :
  RBRACKET ∉ s ->
  match_here (Lit LBRACKET :: GOpen :: Plus not_rbracket :: GClose :: Lit RBRACKET :: re)
             (LBRACKET :: s) = None.
Proof.
  intros Hrb. rewrite tag_open.
  apply try_down_None. intros j Hj. apply tag_close_inside.
  intros Hin. apply Hrb. rewrite <- (take_drop (S j) s). apply elem_of_app. now left.
Qed.

(** *** Texts without a tag, and closed prefixes *)

Lemma no_tag_cons c s : ~ has_tag (c :: s) -> ~ has_tag s.
Proof.
  intros H (pre & body & post & -> & Hne & Hrb). apply H.
  exists (c :: pre), body, post. auto.
Qed.

Lemma no_tag_at_bracket s :
  ~ has_tag (LBRACKET :: s) -> RBRACKET ∉ s \/ exists r, s = RBRACKET :: r.
Proof.
  intros H. destruct (decide (RBRACKET ∈ s)) as [Hin|Hout]; [|now left].
  apply list_elem_of_split_l in Hin as (b & r & -> & Hb).
  destruct b as [|x b]; [right; eauto|].
  exfalso. apply H. exists [], (x :: b), r. split; [reflexivity|]. split; [discriminate|exact Hb].
Qed.

Lemma tag_none_here (re : list item) s :
  ~ has_tag s ->
  match_here (Lit LBRACKET :: GOpen :: Plus not_rbracket :: GClose :: Lit RBRACKET :: re) s
  = None.
Proof.
  intros H. destruct s as [|c s]; [reflexivity|].
  destruct (decide (c = LBRACKET)) as [->|Hc]; [|now apply match_tag_other].
  destruct (no_tag_at_bracket _ H) as [Hrb|(r & ->)].
  - now apply match_tag_unclosed.
  - apply match_tag_empty_body.
Qed.

Lemma closed_nil : closed [].
Proof. intros u v H. destruct u; discriminate. Qed.

Lemma closed_cons c pre : closed (c :: pre) -> closed pre.
Proof. intros H u v E. apply (H (c :: u) v). now rewrite E. Qed.

Lemma closed_drop k pre : closed pre -> closed (drop k pre).
Proof.
  revert pre. induction k as [|k IH]; intros pre H; [now rewrite drop_0|].
  destruct pre as [|c pre]; [exact H|]. simpl. apply IH. eapply closed_cons, H.
Qed.

Lemma closed_head pre : closed (LBRACKET :: pre) -> RBRACKET ∈ pre.
Proof. intros H. apply (H [] pre). reflexivity. Qed.

(** A closed prefix followed by a tag: what a closed prefix starts with. *)
Lemma closed_cases c pre :
  closed (c :: pre) ->
  c <> LBRACKET
  \/ (c = LBRACKET /\ exists r, pre = RBRACKET :: r)
  \/ (c = LBRACKET /\ exists b r, pre = b ++ RBRACKET :: r /\ b <> [] /\ RBRACKET ∉ b).
Proof.
  intros H. destruct (decide (c = LBRACKET)) as [->|Hc]; [|now left].
  right. apply closed_head in H. apply list_elem_of_split_l in H as (b & r & -> & Hb).
  destruct b as [|x b]; [left; eauto|].
  right. split; [reflexivity|]. exists (x :: b), r. split; [reflexivity|]. split; [discriminate|exact Hb].
Qed.

Lemma not_trailing_with_bracket r rest : ~ trailing (r ++ LBRACKET :: rest).
Proof.
  intros H. destruct (trailing_no_bracket _ LBRACKET H) as [E _].
  - apply elem_of_app. right. left.
  - now apply E.
Qed.

Lemma end_none_in_closed c pre rest :
  closed (c :: pre) ->
  match_here pattern_end (c :: pre ++ LBRACKET :: rest) = None.
Proof.
  intros H. destruct (closed_cases _ _ H) as [Hc|[(-> & r & ->)|(-> & b & r & -> & Hne & Hb)]].
  - rewrite pattern_end_shape. now apply match_tag_other.
  - rewrite pattern_end_shape. apply match_tag_empty_body.
  - rewrite <- app_assoc. simpl. apply match_end_not_trailing; [exact Hb|].
    apply not_trailing_with_bracket.
Qed.

Lemma any_other c s : c <> LBRACKET -> match_here pattern_any (c :: s) = None.
Proof. apply match_tag_other. Qed.

Lemma end_other c s : c <> LBRACKET -> match_here pattern_end (c :: s) = None.
Proof. apply match_tag_other. Qed.

Lemma any_empty_body s : match_here pattern_any (LBRACKET :: RBRACKET :: s) = None.
Proof. reflexivity. Qed.

Lemma any_no_tag s : ~ has_tag s -> match_here pattern_any s = None.
Proof. apply tag_none_here. Qed.

Lemma end_no_tag s : ~ has_tag s -> match_here pattern_end s = None.
Proof. apply tag_none_here. Qed.

(** *** [re.search] with the end pattern *)

Lemma search_here (re : list item) off c s :
  search_from re off (c :: s)
  = match match_here re (c :: s) with
    | Some m => Some (at_offset off m)
    | None => search_from re (S off) s
    end.
Proof. reflexivity. Qed.

Lemma finditer_here (re : list item) off c s :
  finditer_from re off 0 (c :: s)
  = match match_here re (c :: s) with
    | Some m => at_offset off m :: finditer_from re (S off) (Nat.pred (m_len m)) s
    | None => finditer_from re (S off) 0 s
    end.
Proof. reflexivity. Qed.

Lemma finditer_skipping (re : list item) off k c s :
  finditer_from re off (S k) (c :: s) = finditer_from re (S off) k s.
Proof. reflexivity. Qed.

Lemma search_end_skip pre rest off :
  closed pre ->
  search_from pattern_end off (pre ++ LBRACKET :: rest)
  = search_from pattern_end (off + length pre) (LBRACKET :: rest).
Proof.
  revert off. induction pre as [|c pre IH]; intros off H.
  - cbn [app length]. now rewrite Nat.add_0_r.
  - cbn [app]. rewrite search_here, (end_none_in_closed _ _ _ H).
    rewrite IH by (eapply closed_cons, H). offsets.
Qed.

Lemma search_end_found pre body post :
  closed pre -> body <> [] -> RBRACKET ∉ body -> trailing post ->
  re_search pattern_end (pre ++ LBRACKET :: body ++ RBRACKET :: post)
  = Some (PyMatch (length pre) (length pre + (2 + length body + length post))
                  (Some (length pre + 1, length pre + (1 + length body)))).
Proof.
  intros Hcl Hne Hrb Ht. unfold re_search. rewrite search_end_skip by exact Hcl.
  rewrite search_here, (match_end_tag _ _ Hne Hrb Ht). reflexivity.
Qed.

Lemma search_end_no_tag s off : ~ has_tag s -> search_from pattern_end off s = None.
Proof.
  revert off. induction s as [|c s IH]; intros off H.
  - reflexivity.
  - rewrite search_here, (end_no_tag _ H).
    apply IH. eapply no_tag_cons, H.
Qed.

Lemma search_end_inside body post off :
  RBRACKET ∉ body -> ~ trailing post -> ~ has_tag post ->
  search_from pattern_end off (body ++ RBRACKET :: post) = None.
Proof.
  revert off. induction body as [|c body IH]; intros off Hrb Ht Hpost.
  - cbn [app]. rewrite search_here, end_other by discriminate.
    now apply search_end_no_tag.
  - apply not_elem_of_cons in Hrb as [Hc Hrb].
    cbn [app]. rewrite search_here.
    assert (Hhere : match_here pattern_end (c :: body ++ RBRACKET :: post) = None).
    { destruct (decide (c = LBRACKET)) as [->|Hn].
      - now apply match_end_not_trailing.
      - now apply end_other. }
    rewrite Hhere. now apply IH.
Qed.

Lemma search_end_none pre body post :
  closed pre -> RBRACKET ∉ body -> ~ trailing post -> ~ has_tag post ->
  re_search pattern_end (pre ++ LBRACKET :: body ++ RBRACKET :: post) = None.
Proof.
  intros Hcl Hrb Ht Hpost. unfold re_search. rewrite search_end_skip by exact Hcl.
  rewrite search_here, (match_end_not_trailing _ _ Hrb Ht).
  now apply search_end_inside.
Qed.

(** *** [re.finditer] with the tag pattern *)

Lemma finditer_skip (re : list item) u v off :
  finditer_from re off (length u) (u ++ v) = finditer_from re (off + length u) 0 v.
Proof.
  revert off. induction u as [|c u IH]; intros off.
  - cbn [app length]. now rewrite Nat.add_0_r.
  - cbn [length app]. rewrite finditer_skipping, IH. offsets.
Qed.

Lemma finditer_no_tag s off : ~ has_tag s -> finditer_from pattern_any off 0 s = [].
Proof.
  revert off. induction s as [|c s IH]; intros off H.
  - reflexivity.
  - rewrite finditer_here, (any_no_tag _ H). apply IH. eapply no_tag_cons, H.
Qed.

Lemma finditer_closed_prefix pre rest off skip :
  skip <= length pre -> closed (drop skip pre) ->
  exists ms,
    finditer_from pattern_any off skip (pre ++ LBRACKET :: rest)
    = ms ++ finditer_from pattern_any (off + length pre) 0 (LBRACKET :: rest).
Proof.
  revert off skip. induction pre as [|c pre IH]; intros off skip Hk Hcl.
  - simpl in Hk. assert (skip = 0) as -> by lia. exists [].
    cbn [app length]. now rewrite Nat.add_0_r.
  - destruct skip as [|k].
    + rewrite drop_0 in Hcl.
      assert (Hnext : exists ms,
                 finditer_from pattern_any (S off) 0 (pre ++ LBRACKET :: rest)
                 = ms ++ finditer_from pattern_any (off + length (c :: pre)) 0
                                       (LBRACKET :: rest)).
      { destruct (IH (S off) 0) as (ms & Hms);
          [lia|rewrite drop_0; eapply closed_cons, Hcl|].
        exists ms. rewrite Hms. offsets. }
      cbn [app]. rewrite finditer_here.
      destruct (closed_cases _ _ Hcl) as [Hc|[(-> & r & ->)|(-> & b & r & -> & Hne & Hb)]].
      * rewrite any_other by exact Hc. exact Hnext.
      * cbn [app]. rewrite any_empty_body. exact Hnext.
      * rewrite <- app_assoc. cbn [app].
        rewrite (match_any_tag b (r ++ LBRACKET :: rest) Hne Hb). cbn [m_len].
        change (Nat.pred (2 + length b)) with (1 + length b).
        destruct (IH (S off) (1 + length b)) as (ms & Hms).
        { rewrite length_app. simpl. lia. }
        { replace (1 + length b) with (length (b ++ [RBRACKET]))
            by (rewrite length_app; simpl; lia).
          replace (b ++ RBRACKET :: r) with ((b ++ [RBRACKET]) ++ r)
            by (now rewrite <- app_assoc).
          rewrite drop_app_length.
          apply (closed_drop (S (length (b ++ [RBRACKET])))) in Hcl.
          replace (b ++ RBRACKET :: r) with ((b ++ [RBRACKET]) ++ r) in Hcl
            by (now rewrite <- app_assoc).
          simpl in Hcl. now rewrite drop_app_length in Hcl. }
        rewrite <- app_assoc in Hms. cbn [app] in Hms.
        rewrite Hms.
        eexists (_ :: ms). offsets.
    + cbn [app]. rewrite finditer_skipping. simpl in Hk, Hcl.
      destruct (IH (S off) k) as (ms & ->); [lia|exact Hcl|].
      exists ms. offsets.
Qed.

Lemma finditer_last pre body post :
  closed pre -> body <> [] -> RBRACKET ∉ body -> ~ has_tag post ->
  last (re_finditer pattern_any (pre ++ LBRACKET :: body ++ RBRACKET :: post))
  = Some (PyMatch (length pre) (length pre + (2 + length body))
                  (Some (length pre + 1, length pre + (1 + length body)))).
Proof.
  intros Hcl Hne Hrb Hpost. unfold re_finditer.
  destruct (finditer_closed_prefix pre (body ++ RBRACKET :: post) 0 0) as (ms & ->).
  { lia. } { now rewrite drop_0. }
  rewrite finditer_here, (match_any_tag body post Hne Hrb). cbn [m_len].
  change (Nat.pred (2 + length body)) with (1 + length body).
  replace (body ++ RBRACKET :: post) with ((body ++ [RBRACKET]) ++ post)
    by (now rewrite <- app_assoc).
  replace (1 + length body) with (length (body ++ [RBRACKET]))
    by (rewrite length_app; simpl; lia).
  rewrite finditer_skip, (finditer_no_tag _ _ Hpost).
  rewrite last_snoc. reflexivity.
Qed.

(** *** What the matcher consumes *)

Lemma accepts_tail c i (re : list item) :
  Exists (item_accepts c) re -> Exists (item_accepts c) (i :: re).
Proof. apply Exists_cons_tl. Qed.

Lemma rmatch_accepts (re : list item) :
  forall s k gs g m,
    rmatch re s k gs g = Some m ->
    exists j, m_len m = k + j /\ j <= length s
              /\ Forall (fun c => Exists (item_accepts c) re) (take j s).
Proof.
  induction re as [|i re IH]; intros s k gs g m H.
  - injection H as <-. exists 0. simpl. split; [lia|]. split; [lia|]. rewrite take_0. constructor.
  - assert (Hrep : forall p lo n,
               item_accepts = item_accepts ->
               (forall c, p c = true -> item_accepts c i) ->
               n <= run p s ->
               try_down (fun j => rmatch re (drop j s) (k + j) gs g) lo n = Some m ->
               exists j, m_len m = k + j /\ j <= length s
                         /\ Forall (fun c => Exists (item_accepts c) (i :: re)) (take j s)).
    { intros p lo n _ Hp Hn Ht.
      apply try_down_Some in Ht as (j1 & Hj1 & Ht).
      apply IH in Ht as (j2 & Hlen & Hj2 & Hall).
      rewrite length_drop in Hj2. pose proof (run_le p s).
      exists (j1 + j2). split; [lia|]. split; [lia|].
      rewrite <- take_take_drop. apply Forall_app. split.
      - eapply Forall_impl; [apply (run_take p); lia|].
        intros c Hc. apply Exists_cons_hd. now apply Hp.
      - eapply Forall_impl; [exact Hall|]. intros c Hc. now apply accepts_tail. }
    assert (Hone : forall x s',
               s = x :: s' -> item_accepts x i ->
               rmatch re s' (S k) gs g = Some m ->
               exists j, m_len m = k + j /\ j <= length s
                         /\ Forall (fun c => Exists (item_accepts c) (i :: re)) (take j s)).
    { intros x s' -> Hx Hm. apply IH in Hm as (j & Hlen & Hj & Hall).
      exists (S j). split; [lia|]. split; [simpl; lia|].
      simpl. constructor; [now apply Exists_cons_hd|].
      eapply Forall_impl; [exact Hall|]. intros c Hc. now apply accepts_tail. }
    assert (Hzero : forall gs' g',
               rmatch re s k gs' g' = Some m ->
               exists j, m_len m = k + j /\ j <= length s
                         /\ Forall (fun c => Exists (item_accepts c) (i :: re)) (take j s)).
    { intros gs' g' Hm. apply IH in Hm as (j & Hlen & Hj & Hall).
      exists j. split; [lia|]. split; [lia|].
      eapply Forall_impl; [exact Hall|]. intros c Hc. now apply accepts_tail. }
    destruct i as [c|p|p|p|p| | |]; cbn [rmatch] in H.
    + destruct s as [|x s']; [discriminate|].
      destruct (N.eqb_spec x c) as [->|]; [|discriminate].
      eapply Hone; [reflexivity|reflexivity|exact H].
    + destruct s as [|x s']; [discriminate|].
      destruct (p x) eqn:Hp; [|discriminate].
      eapply Hone; [reflexivity|exact Hp|exact H].
    + eapply (Hrep p); [reflexivity|auto| |exact H]. lia.
    + eapply (Hrep p); [reflexivity|auto| |exact H]. lia.
    + eapply (Hrep p); [reflexivity|auto| |exact H]. lia.
    + eapply Hzero, H.
    + eapply Hzero, H.
    + destruct s as [|x [|y s']]; [eapply Hzero, H| |discriminate].
      destruct (N.eqb x NEWLINE); [eapply Hzero, H|discriminate].
Qed.

(** *** Leaving characters out *)

Lemma thinned_refl t : thinned t t.
Proof. induction t; constructor; assumption. Qed.

Lemma thinned_trans t1 t2 t3 : thinned t1 t2 -> thinned t2 t3 -> thinned t1 t3.
Proof.
  intros H. revert t3. induction H as [|c t t' _ IH|c t t' Hl Hr _ IH]; intros t3 H23.
  - exact H23.
  - inversion H23; subst.
    + constructor. now apply IH.
    + apply thinned_drop; [assumption..|]. now apply IH.
  - apply thinned_drop; [assumption..|]. now apply IH.
Qed.

Lemma thinned_app t1 t1' t2 t2' :
  thinned t1 t1' -> thinned t2 t2' -> thinned (t1 ++ t2) (t1' ++ t2').
Proof.
  induction 1; intros H2; simpl; [exact H2|constructor; auto|].
  apply thinned_drop; auto.
Qed.

Lemma thinned_rev t t' : thinned t t' -> thinned (rev t) (rev t').
Proof.
  induction 1 as [|c t t' _ IH|c t t' Hl Hr _ IH]; simpl.
  - constructor.
  - apply thinned_app; [exact IH|apply thinned_refl].
  - rewrite <- (app_nil_r (rev t')). apply thinned_app; [exact IH|].
    apply thinned_drop; [assumption..|constructor].
Qed.

Lemma thinned_lstrip s : thinned s (lstrip s).
Proof.
  induction s as [|c s IH]; simpl; [constructor|].
  destruct (isspace c) eqn:E; [|apply thinned_refl].
  destruct (isspace_not_bracket _ E). now apply thinned_drop.
Qed.

Lemma thinned_strip s : thinned s (strip s).
Proof.
  unfold strip, rstrip. eapply thinned_trans; [apply thinned_lstrip|].
  rewrite <- (rev_involutive (lstrip s)) at 1.
  apply thinned_rev, thinned_lstrip.
Qed.

Lemma has_tag_cons c s : has_tag s -> has_tag (c :: s).
Proof.
  intros (pre & body & post & -> & Hne & Hrb). exists (c :: pre), body, post. auto.
Qed.

(** The body of a tag only grows when characters are put back. *)
Lemma thinned_body t x :
  thinned t x ->
  forall body post,
    x = body ++ RBRACKET :: post -> RBRACKET ∉ body ->
    exists body0 post0,
      t = body0 ++ RBRACKET :: post0 /\ (RBRACKET ∉ body0)
      /\ (body <> [] -> body0 <> []).
Proof.
  induction 1 as [|c t t' _ IH|c t t' Hl Hr _ IH]; intros body post E Hrb.
  - destruct body; discriminate.
  - destruct body as [|b body]; simpl in E; injection E as -> ->.
    + exists [], t. split; [reflexivity|]. split; [apply not_elem_of_nil|congruence].
    + apply not_elem_of_cons in Hrb as [Hb Hrb].
      destruct (IH body post eq_refl Hrb) as (body0 & post0 & -> & Hrb0 & _).
      exists (b :: body0), post0. split; [reflexivity|].
      split; [apply not_elem_of_cons; auto|discriminate].
  - destruct (IH body post E Hrb) as (body0 & post0 & -> & Hrb0 & _).
    exists (c :: body0), post0. split; [reflexivity|].
    split; [apply not_elem_of_cons; auto|discriminate].
Qed.

Lemma thinned_has_tag t t' : thinned t t' -> has_tag t' -> has_tag t.
Proof.
  induction 1 as [|c t t' Hth IH|c t t' Hl Hr _ IH]; intros Htag.
  - destruct Htag as (pre & body & post & E & _). destruct pre; discriminate.
  - destruct Htag as (pre & body & post & E & Hne & Hrb).
    destruct pre as [|p pre]; simpl in E; injection E as -> ->.
    + destruct (thinned_body _ _ Hth body post eq_refl Hrb)
        as (body0 & post0 & -> & Hrb0 & Hne0).
      exists [], body0, post0. split; [reflexivity|]. split; [now apply Hne0|exact Hrb0].
    + apply has_tag_cons, IH. exists pre, body, post. auto.
  - apply has_tag_cons, IH, Htag.
Qed.

(** *** [re.sub] and the cleaning of artifacts *)

Lemma sub_thinned (re : list item) :
  (forall c, Exists (item_accepts c) re -> c <> LBRACKET /\ c <> RBRACKET) ->
  forall s skip,
    Forall (fun c => c <> LBRACKET /\ c <> RBRACKET) (take skip s) ->
    thinned s (sub_from re skip s).
Proof.
  intros Hre. induction s as [|c s IH]; intros skip Hskip.
  - destruct skip; constructor.
  - destruct skip as [|k]; cbn [sub_from].
    + destruct (match_here re (c :: s)) as [m|] eqn:Hm.
      * destruct (m_len m) as [|n] eqn:Hn.
        -- constructor. apply IH. rewrite take_0. constructor.
        -- apply rmatch_accepts in Hm as (j & Hlen & Hj & Hall).
           simpl in Hlen. rewrite Hn in Hlen. subst j. simpl in Hall.
           apply Forall_cons in Hall as [Hc Hall].
           destruct (Hre _ Hc). apply thinned_drop; [assumption..|].
           apply IH. eapply Forall_impl; [exact Hall|]. intros x Hx. now apply Hre.
      * constructor. apply IH. rewrite take_0. constructor.
    + simpl in Hskip. apply Forall_cons in Hskip as [[Hl Hr] Hskip].
      apply thinned_drop; [assumption..|]. now apply IH.
Qed.

Lemma artifact1_no_bracket Nd c :
  Nd LBRACKET = false -> Nd RBRACKET = false ->
  Exists (item_accepts c) (pattern_artifact1 Nd) -> c <> LBRACKET /\ c <> RBRACKET.
Proof.
  intros HL HR H. unfold pattern_artifact1 in H.
  repeat (apply Exists_cons in H as [H|H]; [simpl in H|]);
    try (apply Exists_nil in H; contradiction);
    try (subst c; split; discriminate);
    split; intros ->; try (vm_compute in H; discriminate); congruence.
Qed.

Lemma artifact2_no_bracket Nd c :
  Nd LBRACKET = false -> Nd RBRACKET = false ->
  Exists (item_accepts c) (pattern_artifact2 Nd) -> c <> LBRACKET /\ c <> RBRACKET.
Proof.
  intros HL HR H. unfold pattern_artifact2 in H.
  repeat (apply Exists_cons in H as [H|H]; [simpl in H|]);
    try (apply Exists_nil in H; contradiction);
    try (subst c; split; discriminate);
    split; intros ->; try (vm_compute in H; discriminate); congruence.
Qed.

Lemma clean_artifacts_thinned Nd response :
  Nd LBRACKET = false -> Nd RBRACKET = false ->
  thinned response (clean_artifacts Nd response).
Proof.
  intros HL HR. unfold clean_artifacts, re_sub_empty.
  eapply thinned_trans; [|apply thinned_strip].
  eapply thinned_trans.
  - apply (sub_thinned (pattern_artifact1 Nd)
             (fun c => artifact1_no_bracket Nd c HL HR) response 0).
    rewrite take_0. constructor.
  - apply (sub_thinned (pattern_artifact2 Nd)
             (fun c => artifact2_no_bracket Nd c HL HR) _ 0).
    rewrite take_0. constructor.
Qed.

(** *** [strip] twice *)

Lemma lstrip_head s c t : lstrip s = c :: t -> isspace c = false.
Proof.
  induction s as [|x s IH]; simpl; [discriminate|].
  destruct (isspace x) eqn:E; [exact IH|]. now intros [= <- <-].
Qed.

Lemma lstrip_keeps_last u c :
  isspace c = false -> exists u', lstrip (u ++ [c]) = u' ++ [c].
Proof.
  intros Hc. induction u as [|x u IH]; simpl.
  - rewrite Hc. now exists [].
  - destruct (isspace x); [exact IH|]. now exists (x :: u).
Qed.

Lemma strip_idempotent s : strip (strip s) = strip s.
Proof.
  unfold strip, rstrip. destruct (lstrip s) as [|c t] eqn:E; [reflexivity|].
  pose proof (lstrip_head _ _ _ E) as Hc.
  cbn [rev]. destruct (lstrip_keeps_last (rev t) c Hc) as (u' & Hu).
  rewrite Hu, rev_app_distr. cbn [rev app lstrip]. rewrite Hc.
  cbn [rev]. rewrite rev_involutive, <- Hu, strip_idempotent_l.
  rewrite Hu, rev_app_distr. reflexivity.
Qed.

(** *** The match [parse_emotion_tag] settles on *)

Lemma trailing_no_tag t : trailing t -> ~ has_tag t.
Proof.
  intros Ht (pre & body & post & -> & _).
  destruct (trailing_no_bracket _ LBRACKET Ht) as [E _]; [|now apply E].
  apply elem_of_app. right. left.
Qed.

Lemma find_tag_end text pre body post :
  last_tag text pre body post -> trailing post ->
  find_tag text
  = Some (PyMatch (length pre) (length pre + (2 + length body + length post))
                  (Some (length pre + 1, length pre + (1 + length body)))).
Proof.
  intros (-> & Hcl & Hne & Hrb & _) Ht. unfold find_tag.
  now rewrite (search_end_found pre body post Hcl Hne Hrb Ht).
Qed.

Lemma find_tag_last text pre body post :
  last_tag text pre body post -> ~ trailing post ->
  find_tag text
  = Some (PyMatch (length pre) (length pre + (2 + length body))
                  (Some (length pre + 1, length pre + (1 + length body)))).
Proof.
  intros (-> & Hcl & Hne & Hrb & Hpost) Ht. unfold find_tag.
  rewrite (search_end_none pre body post Hcl Hrb Ht Hpost).
  now apply finditer_last.
Qed.

Lemma find_tag_none text : ~ has_tag text -> find_tag text = None.
Proof.
  intros H. unfold find_tag, re_search, re_finditer.
  now rewrite (search_end_no_tag _ _ H), (finditer_no_tag _ _ H).
Qed.

(** The slices of the text a match of the last tag selects. *)
Lemma slice_group pre body post e :
  group1 (pre ++ LBRACKET :: body ++ RBRACKET :: post)
         (PyMatch (length pre) e (Some (length pre + 1, length pre + (1 + length body))))
  = body.
Proof.
  unfold group1. cbn [m_span1].
  replace (length pre + (1 + length body) - (length pre + 1)) with (length body) by lia.
  replace (pre ++ LBRACKET :: body ++ RBRACKET :: post)
    with ((pre ++ [LBRACKET]) ++ body ++ RBRACKET :: post)
    by (now rewrite <- app_assoc).
  rewrite drop_app_length' by (rewrite length_app; simpl; lia).
  apply take_app_length.
Qed.

Lemma slice_before (pre rest : pystr) : take (length pre) (pre ++ rest) = pre.
Proof. apply take_app_length. Qed.

Lemma slice_after pre body post :
  drop (length pre + (2 + length body)) (pre ++ LBRACKET :: body ++ RBRACKET :: post)
  = post.
Proof.
  replace (pre ++ LBRACKET :: body ++ RBRACKET :: post)
    with ((pre ++ LBRACKET :: body ++ [RBRACKET]) ++ post)
    by (rewrite <- !app_assoc; simpl; now rewrite <- app_assoc).
  apply drop_app_length'. rewrite !length_app. simpl. rewrite length_app. simpl. lia.
Qed.

Lemma slice_after_all pre body post :
  drop (length pre + (2 + length body + length post))
       (pre ++ LBRACKET :: body ++ RBRACKET :: post)
  = [].
Proof.
  apply drop_ge. rewrite !length_app. simpl. rewrite length_app. simpl. lia.
Qed.

(** *** Every text has no tag or a last tag *)

Lemma closed_no_rbracket pre : closed pre -> RBRACKET ∉ pre -> LBRACKET ∉ pre.
Proof.
  intros Hcl Hrb Hin. apply list_elem_of_split in Hin as (u & v & ->).
  apply Hrb. apply elem_of_app. right. right. now apply (Hcl u v).
Qed.

Lemma closed_cons_other c pre : c <> LBRACKET -> closed pre -> closed (c :: pre).
Proof.
  intros Hc Hcl u v E. destruct u as [|x u]; simpl in E; inversion E; subst.
  - contradiction.
  - now apply (Hcl u v).
Qed.

Lemma closed_cons_bracket pre : RBRACKET ∈ pre -> closed pre -> closed (LBRACKET :: pre).
Proof.
  intros Hin Hcl u v E. destruct u as [|x u]; simpl in E; inversion E; subst.
  - assumption.
  - now apply (Hcl u v).
Qed.

Lemma has_tag_inv c s :
  has_tag (c :: s) ->
  has_tag s
  \/ (c = LBRACKET /\ exists body post,
        s = body ++ RBRACKET :: post /\ body <> [] /\ RBRACKET ∉ body).
Proof.
  intros (pre & body & post & E & Hne & Hrb).
  destruct pre as [|x pre]; simpl in E; inversion E; subst.
  - right. split; [reflexivity|]. exists body, post. auto.
  - left. exists pre, body, post. auto.
Qed.

Lemma has_tag_after u s : has_tag s -> has_tag (u ++ s).
Proof. induction u; simpl; [auto|]. intros H. now apply has_tag_cons, IHu. Qed.

Lemma tag_or_not s :
  ~ has_tag s \/ exists pre body post, last_tag s pre body post.
Proof.
  induction s as [|c s IH].
  - left. intros (pre & body & post & E & _). destruct pre; discriminate.
  - destruct IH as [Hno|(pre & body & post & -> & Hcl & Hne & Hrb & Hpost)].
    + destruct (decide (c = LBRACKET)) as [->|Hc].
      * destruct (decide (RBRACKET ∈ s)) as [Hin|Hout].
        -- apply list_elem_of_split_l in Hin as (b & r & -> & Hb).
           destruct b as [|x b].
           ++ left. intros H. apply has_tag_inv in H as [H|(_ & body & post & E & Hne & Hrb)].
              ** contradiction.
              ** destruct body as [|y body]; [contradiction|].
                 simpl in E. injection E as <- _. apply Hrb. left.
           ++ right. exists [], (x :: b), r. split; [reflexivity|].
              split; [apply closed_nil|]. split; [discriminate|]. split; [exact Hb|].
              intros H. apply Hno.
              replace ((x :: b) ++ RBRACKET :: r) with (((x :: b) ++ [RBRACKET]) ++ r)
                by (now rewrite <- app_assoc).
              now apply has_tag_after.
        -- left. intros H. apply has_tag_inv in H as [H|(_ & body & post & -> & _)].
           ++ contradiction.
           ++ apply Hout. apply elem_of_app. right. left.
      * left. intros H. apply has_tag_inv in H as [H|(E & _)]; contradiction.
    + right. destruct (decide (c = LBRACKET)) as [->|Hc].
      * destruct (decide (RBRACKET ∈ pre)) as [Hin|Hout].
        -- exists (LBRACKET :: pre), body, post. split; [reflexivity|].
           split; [now apply closed_cons_bracket|]. auto.
        -- pose proof (closed_no_rbracket _ Hcl Hout) as Hlb.
           exists [], (pre ++ LBRACKET :: body), post.
           split; [simpl; now rewrite <- app_assoc|].
           split; [apply closed_nil|]. split; [destruct pre; discriminate|].
           split; [|exact Hpost].
           rewrite elem_of_app, elem_of_cons. intros [H|[H|H]];
             [contradiction|discriminate|contradiction].
      * exists (c :: pre), body, post. split; [reflexivity|].
        split; [now apply closed_cons_other|]. auto.
Qed.

Lemma no_bracket_no_tag s : LBRACKET ∉ s -> ~ has_tag s.
Proof.
  intros Hout (pre & body & post & -> & _). apply Hout.
  apply elem_of_app. right. left.
Qed.

Lemma closed_without_bracket pre : LBRACKET ∉ pre -> closed pre.
Proof.
  intros Hout u v ->. exfalso. apply Hout. apply elem_of_app. right. left.
Qed.

(** *** The claims on [parse_emotion_tag] *)

(** C1: [parse_emotion_tag] cleans the artifacts away and looks for a tag
    in what is left.  When the text has a last tag, that is the tag taken:
    with nothing but blanks and at most one quote behind it the end
    pattern takes it, together with what is behind it; otherwise the
    last match of the tag pattern takes it.  The stripped tag is looked up
    in the emotion mapping of the character: a key gives its image, any
    other tag the default image.  A text without a tag gives the default
    image too.  Every text is of one of the two kinds. *)
Theorem parse_emotion_tag_extracts Nd db response suspect_id ch :
  characters db !! str_of_Z suspect_id = Some ch ->
  let text := clean_artifacts Nd response in
  (forall pre body post,
      last_tag text pre body post ->
      (trailing post ->
       parse_emotion_tag Nd db response suspect_id
       = Return (image_of ch (strip body), strip pre, strip body))
      /\ (~ trailing post ->
          parse_emotion_tag Nd db response suspect_id
          = Return (image_of ch (strip body), strip (pre ++ post), strip body)))
  /\ (~ has_tag text ->
      parse_emotion_tag Nd db response suspect_id
      = Return (default_image ch, text, lit "default"))
  /\ (~ has_tag text \/ exists pre body post, last_tag text pre body post).
Proof.
  intros Hch text. split; [|split].
  - intros pre body post Hlast. pose proof Hlast as (Etext & _). split; intros Ht.
    + rewrite (parse_emotion_tag_found Nd db response suspect_id ch _ Hch
                 (find_tag_end _ _ _ _ Hlast Ht)).
      cbn [m_start m_end]. fold text. rewrite Etext.
      rewrite slice_group, slice_before, slice_after_all, app_nil_r, strip_idempotent.
      reflexivity.
    + rewrite (parse_emotion_tag_found Nd db response suspect_id ch _ Hch
                 (find_tag_last _ _ _ _ Hlast Ht)).
      cbn [m_start m_end]. fold text. rewrite Etext.
      rewrite slice_group, slice_before, slice_after, strip_idempotent.
      reflexivity.
  - intros Hno. apply (parse_emotion_tag_none Nd db response suspect_id ch Hch).
    now apply find_tag_none.
  - apply tag_or_not.
Qed.

Lemma parse_emotion_tag_extracts_witness :
  parse_emotion_tag sample_Nd sample_db (lit "{'='*60}No. [angry] '") 1
  = Return (lit "angry.jpg", lit "No.", lit "angry").
Proof.
  destruct (parse_emotion_tag_extracts sample_Nd sample_db (lit "{'='*60}No. [angry] '") 1
              sample_character) as (Hlast & _).
  { vm_compute. reflexivity. }
  destruct (Hlast (lit "No. ") (lit "angry") (lit " '")) as [Hend _].
  { split; [vm_compute; reflexivity|]. split; [apply closed_without_bracket|].
    - apply (bool_decide_unpack _). vm_compute. exact I.
    - split; [discriminate|]. split.
      + apply (bool_decide_unpack _). vm_compute. exact I.
      + apply no_bracket_no_tag. apply (bool_decide_unpack _). vm_compute. exact I. }
  rewrite Hend.
  - vm_compute. reflexivity.
  - exists (lit " "), (lit "'"), []. split; [reflexivity|].
    split; [repeat constructor|]. split; [constructor|].
    right. exists SQUOTE. split; reflexivity.
Defined.

(** C4: a response without a bracketed tag gets the default of the
    character: the image under the key default of its emotion mapping, or
    the literal other.jpg when the mapping has no such key, with the tag
    name default and the cleaned text. *)
Theorem parse_emotion_tag_no_tag Nd db response suspect_id ch :
  Nd LBRACKET = false -> Nd RBRACKET = false ->
  characters db !! str_of_Z suspect_id = Some ch ->
  ~ has_tag response ->
  parse_emotion_tag Nd db response suspect_id
  = Return (default (lit "other.jpg")
                    (default ∅ (emotion_mapping ch) !! lit "default"),
            clean_artifacts Nd response, lit "default").
Proof.
  intros HL HR Hch Hno.
  apply (parse_emotion_tag_none Nd db response suspect_id ch Hch).
  apply find_tag_none. intros Htag. apply Hno.
  eapply thinned_has_tag; [|exact Htag]. now apply clean_artifacts_thinned.
Qed.


Lemma parse_emotion_tag_no_tag_witness :
  parse_emotion_tag sample_Nd sample_db (lit "{'='*60} I was asleep. ") 1
  = Return (default (lit "other.jpg")
                    (default ∅ (emotion_mapping sample_character) !! lit "default"),
            clean_artifacts sample_Nd (lit "{'='*60} I was asleep. "), lit "default").
Proof.
  apply (parse_emotion_tag_no_tag sample_Nd sample_db (lit "{'='*60} I was asleep. ") 1
           sample_character).
  - reflexivity.
  - reflexivity.
  - vm_compute. reflexivity.
  - apply no_bracket_no_tag. apply (bool_decide_unpack _). vm_compute. exact I.
Defined.

(** The parser at work: a tag in the middle of a response is taken and
    cut out, and a tag the character does not have gives its default
    image. *)
Example parse_tag_mid_response :
  parse_emotion_tag sample_Nd sample_db (lit "[sad] I saw [angry] nothing") 1
  = Return (lit "angry.jpg", lit "[sad] I saw  nothing", lit "angry").
Proof. vm_compute. reflexivity. Qed.

Example parse_tag_unknown :
  parse_emotion_tag sample_Nd sample_db (lit "I saw nothing. [ sad ]") 1
  = Return (lit "calm.jpg", lit "I saw nothing.", lit "sad").
Proof. vm_compute. reflexivity. Qed.

Example parse_unknown_suspect :
  parse_emotion_tag sample_Nd sample_db (lit "I saw nothing. [angry]") 7
  = Raise (ValueError (lit "Invalid suspect_id: 7")).
Proof. vm_compute. reflexivity. Qed.

Example parse_tag_with_open_bracket :
  parse_emotion_tag sample_Nd sample_db (lit "{'='*12}[a[angry] x") 1
  = Return (lit "calm.jpg", lit "x", lit "a[angry").
Proof. vm_compute. reflexivity. Qed.

(** ** The chat engine *)

Section EngineFacts.

Variable api_completion : nat -> list message -> llm_reply.
Variable engine_chat : nat -> SimpleChatEngine -> pystr -> SimpleChatEngine * llm_reply.
Variable db : CharacterDatabase.


Lemma last20_short h : length h <= 20 -> last20 h = h.
Proof.
  intros H. unfold last20. replace (length h - 20) with 0 by lia. apply drop_0.
Qed.

(** What [_get_suspect_response_api] leaves behind, spelled out. *)
Lemma api_response_spec suspect_id question streaming callback e w :
  let h := default [] (api_chat_histories e !! suspect_id) in
  let '(w', answer) :=
    _openai_chat api_completion (_create_system_prompt db suspect_id) question h
                 (streaming && callback) w in
  _get_suspect_response_api api_completion db suspect_id question streaming callback e w
  = match answer with
    | Raise ex =>
        (set_api_chat_histories (<[suspect_id := h]> (api_chat_histories e)) e,
         w', Raise ex)
    | Return text =>
        (set_api_chat_histories
           (<[suspect_id := last20 (h ++ [Message (lit "user") question;
                                          Message (lit "assistant") text])]>
              (api_chat_histories e)) e,
         w', Return text)
    end.
Proof.
  cbv zeta. unfold _get_suspect_response_api.
  destruct (api_chat_histories e !! suspect_id) as [h|] eqn:Eh.
  - rewrite Eh. cbn [from_option id].
    destruct (_openai_chat _ _ _ _ _ _) as [w' [text|ex]].
    + set (h2 := (h ++ [Message (lit "user") question]) ++ [Message (lit "assistant") text]).
      replace (h ++ [Message (lit "user") question; Message (lit "assistant") text])
        with h2 by (subst h2; now rewrite <- app_assoc).
      destruct (Nat.ltb_spec 20 (length h2)).
      * unfold set_api_chat_histories. cbn [api_chat_histories use_api openai_client chat_engines].
        now rewrite insert_insert_eq.
      * now rewrite last20_short by lia.
    + rewrite insert_id by exact Eh. destruct e; reflexivity.
  - cbn [api_chat_histories set_api_chat_histories]. rewrite lookup_insert_eq.
    cbn [from_option id].
    destruct (_openai_chat _ _ _ _ _ _) as [w' [text|ex]].
    + set (h2 := ([] ++ [Message (lit "user") question])
                 ++ [Message (lit "assistant") text]).
      change ([] ++ [Message (lit "user") question; Message (lit "assistant") text])
        with h2.
      destruct (Nat.ltb_spec 20 (length h2)).
      * unfold set_api_chat_histories.
        cbn [api_chat_histories use_api openai_client chat_engines].
        now rewrite !insert_insert_eq.
      * rewrite last20_short by lia. unfold set_api_chat_histories.
        cbn [api_chat_histories use_api openai_client chat_engines].
        now rewrite insert_insert_eq.
    + reflexivity.
Qed.



(** What [_get_suspect_response_ollama] leaves behind, spelled out. *)
Lemma ollama_response_spec suspect_id question streaming callback e w :
  let ce0 := default (fresh_engine db suspect_id) (chat_engines e !! suspect_id) in
  let '(ce', w', answer) :=
    chat_with_retries engine_chat (seq 0 max_retries) 1 (streaming && callback)
                      question ce0 w in
  _get_suspect_response_ollama engine_chat db suspect_id question streaming callback e w
  = (set_chat_engines (<[suspect_id := ce']> (chat_engines e)) e, w',
     match answer with
     | Raise ex => Raise ex
     | Return text => Return (reply_text (streaming && callback) text)
     end).
Proof.
  cbv zeta. unfold _get_suspect_response_ollama.
  destruct (chat_engines e !! suspect_id) as [ce|] eqn:Ece.
  - rewrite Ece. cbn [from_option id].
    destruct (chat_with_retries _ _ _ _ _ _ _) as [[ce' w'] [[text|]|ex]]; reflexivity.
  - cbn [chat_engines set_chat_engines]. rewrite lookup_insert_eq. cbn [from_option id].
    fold (fresh_engine db suspect_id).
    destruct (chat_with_retries _ _ _ _ _ _ _) as [[ce' w'] [[text|]|ex]];
      unfold set_chat_engines; cbn [api_chat_histories use_api openai_client chat_engines];
      now rewrite insert_insert_eq.
Qed.

Lemma response_engine suspect_id question streaming callback e w :
  fst (fst (get_suspect_response api_completion engine_chat db suspect_id question
                                 streaming callback e w))
  = if api_mode e then
      fst (fst (_get_suspect_response_api api_completion db suspect_id question
                                          streaming callback e w))
    else
      fst (fst (_get_suspect_response_ollama engine_chat db suspect_id question
                                             streaming callback e w)).
Proof.
  unfold get_suspect_response, api_mode. destruct (use_api e && openai_client e).
  - destruct (_get_suspect_response_api _ _ _ _ _ _ _ _) as [[e' w'] [text|ex]]; reflexivity.
  - destruct (_get_suspect_response_ollama _ _ _ _ _ _ _ _) as [[e' w'] [text|ex]]; reflexivity.
Qed.











(** The state one question to [a] leaves for a suspect [b]. *)
Lemma response_conversation a question streaming callback e w b :
  conversation
    (fst (fst (get_suspect_response api_completion engine_chat db a question
                                    streaming callback e w))) b
  = if decide (a = b) then
      if api_mode e then
        (api_chat_histories
           (fst (fst (_get_suspect_response_api api_completion db a question
                                                streaming callback e w))) !! a,
         chat_engines e !! a)
      else
        (api_chat_histories e !! a,
         chat_engines
           (fst (fst (_get_suspect_response_ollama engine_chat db a question
                                                   streaming callback e w))) !! a)
    else conversation e b.
Proof.
  rewrite response_engine. unfold conversation. destruct (api_mode e).
  - pose proof (api_response_spec a question streaming callback e w) as H. cbv zeta in H.
    destruct (_openai_chat _ _ _ _ _ _) as [w' [text|ex]]; rewrite H;
      cbn [fst api_chat_histories chat_engines set_api_chat_histories];
      (destruct (decide (a = b)) as [->|Hne];
       [reflexivity|now rewrite lookup_insert_ne by exact Hne]).
  - pose proof (ollama_response_spec a question streaming callback e w) as H. cbv zeta in H.
    destruct (chat_with_retries _ _ _ _ _ _ _) as [[ce' w'] answer]; rewrite H;
      cbn [fst api_chat_histories chat_engines set_chat_engines];
      (destruct (decide (a = b)) as [->|Hne];
       [reflexivity|now rewrite lookup_insert_ne by exact Hne]).
Qed.

Lemma response_outcome a question streaming callback e w :
  let r := get_suspect_response api_completion engine_chat db a question
                                streaming callback e w in
  (conversation (fst (fst r)) a, snd (fst r), snd r)
  = outcome_for api_completion engine_chat db (api_mode e) a question streaming
                callback (conversation e a) w.
Proof.
  cbv zeta. unfold get_suspect_response, outcome_for. fold (api_mode e).
  unfold conversation at 2 3 4. cbn [fst snd]. destruct (api_mode e).
  - pose proof (api_response_spec a question streaming callback e w) as H. cbv zeta in H.
    destruct (_openai_chat _ _ _ _ _ _) as [w' [text|ex]]; rewrite H;
      unfold conversation;
      cbn [fst snd api_chat_histories chat_engines set_api_chat_histories];
      now rewrite lookup_insert_eq.
  - pose proof (ollama_response_spec a question streaming callback e w) as H. cbv zeta in H.
    destruct (chat_with_retries _ _ _ _ _ _ _) as [[ce' w'] [text|ex]]; rewrite H;
      unfold conversation;
      cbn [fst snd api_chat_histories chat_engines set_chat_engines];
      now rewrite lookup_insert_eq.
Qed.

Lemma reset_chat_conversation a e b :
  conversation (reset_chat a e) b
  = if decide (a = b) then (None, None) else conversation e b.
Proof.
  unfold conversation, reset_chat.
  cbn [api_chat_histories chat_engines set_api_chat_histories set_chat_engines].
  destruct (decide (a = b)) as [->|Hne].
  - now rewrite !lookup_delete_eq.
  - now rewrite !lookup_delete_ne by exact Hne.
Qed.

(** *** The retry loop *)

Lemma paces_tokens tokens : List.filter paces (map Token tokens) = [].
Proof. induction tokens; simpl; auto. Qed.

Lemma pacing_emit w w' evs :
  length (trace w) <= length (trace w') ->
  pacing w (emit evs w') = pacing w w' ++ List.filter paces evs.
Proof.
  intros H. unfold pacing, emit. cbn [trace].
  rewrite drop_app_le by exact H. apply List.filter_app.
Qed.

Lemma pacing_sent w w' :
  length (trace w) <= length (trace w') ->
  pacing w (sent w') = pacing w w' ++ [Request (requests w')].
Proof.
  intros H. unfold pacing, sent. cbn [trace].
  rewrite drop_app_le by exact H. now rewrite List.filter_app.
Qed.

Lemma pacing_same w : pacing w w = [].
Proof. unfold pacing. now rewrite drop_all. Qed.

Lemma pacing_tokens stream w w' tokens :
  length (trace w) <= length (trace w') ->
  pacing w (if stream : bool then emit (map Token tokens) w' else w') = pacing w w'.
Proof.
  intros H. destruct stream; [|reflexivity].
  rewrite pacing_emit by exact H. now rewrite paces_tokens, app_nil_r.
Qed.

Lemma trace_tokens_length (stream : bool) w tokens :
  length (trace w)
  <= length (trace (if stream then emit (map Token tokens) w else w)).
Proof. destruct stream; cbn [emit trace]; [rewrite length_app|]; lia. Qed.

Lemma requests_tokens (stream : bool) w tokens :
  requests (if stream then emit (map Token tokens) w else w) = requests w.
Proof. now destruct stream. Qed.

(** The three rounds of the loop, by the answers the requests get. *)
Lemma chat_with_retries_rounds stream question ce w :
  let n := requests w in
  let '(ce1, r1) := engine_chat n ce question in
  let '(ce2, r2) := engine_chat (S n) ce1 question in
  let '(ce3, r3) := engine_chat (S (S n)) ce2 question in
  let '(ce', w', answer) :=
    chat_with_retries engine_chat (seq 0 max_retries) 1 stream question ce w in
  match r1, r2, r3 with
  | Reply tokens, _, _ =>
      ce' = ce1 /\ pacing w w' = [Request n]
      /\ answer = Return (Some (concat tokens))
  | Failure _ _, Reply tokens, _ =>
      ce' = ce2 /\ pacing w w' = [Request n; Sleep 1; Request (S n)]
      /\ answer = Return (Some (concat tokens))
  | Failure _ _, Failure _ _, Reply tokens =>
      ce' = ce3
      /\ pacing w w' = [Request n; Sleep 1; Request (S n); Sleep 2; Request (S (S n))]
      /\ answer = Return (Some (concat tokens))
  | Failure _ _, Failure _ _, Failure _ ex =>
      ce' = ce3
      /\ pacing w w' = [Request n; Sleep 1; Request (S n); Sleep 2; Request (S (S n))]
      /\ answer = Raise ex
  end.
Proof.
  cbv zeta. cbn [seq max_retries chat_with_retries].
  destruct (engine_chat (requests w) ce question) as [ce1 r1].
  assert (H0 : length (trace w) <= length (trace (sent w)))
    by (cbn [sent trace]; rewrite length_app; lia).
  destruct r1 as [t1|t1 e1].
  { destruct (engine_chat (S (requests w)) ce1 question) as [ce2 r2].
    destruct (engine_chat (S (S (requests w))) ce2 question) as [ce3 r3].
    split; [reflexivity|]. split; [|reflexivity].
    rewrite pacing_tokens by exact H0. rewrite pacing_sent by lia.
    now rewrite pacing_same. }
  cbn [Nat.ltb Nat.leb Nat.sub].
  set (w1 := emit [Sleep 1] (if stream then emit (map Token t1) (sent w) else sent w)).
  assert (Hp1 : pacing w w1 = [Request (requests w); Sleep 1]).
  { subst w1. rewrite pacing_emit by apply (Nat.le_trans _ _ _ H0), trace_tokens_length.
    rewrite pacing_tokens by exact H0. rewrite pacing_sent by lia.
    now rewrite pacing_same. }
  assert (Hr1 : requests w1 = S (requests w))
    by (subst w1; cbn [emit requests]; now rewrite requests_tokens).
  assert (Hl1 : length (trace w) <= length (trace w1)).
  { subst w1. cbn [emit trace]. rewrite length_app.
    pose proof (trace_tokens_length stream (sent w) t1). lia. }
  rewrite Hr1. destruct (engine_chat (S (requests w)) ce1 question) as [ce2 r2].
  assert (H1 : length (trace w) <= length (trace (sent w1)))
    by (cbn [sent trace]; rewrite length_app; lia).
  destruct r2 as [t2|t2 e2].
  { destruct (engine_chat (S (S (requests w))) ce2 question) as [ce3 r3].
    split; [reflexivity|]. split; [|reflexivity].
    rewrite pacing_tokens by exact H1. rewrite pacing_sent by lia.
    now rewrite Hp1, Hr1. }
  set (w2 := emit [Sleep (1 * 2)]
                  (if stream then emit (map Token t2) (sent w1) else sent w1)).
  assert (Hp2 : pacing w w2
                = [Request (requests w); Sleep 1; Request (S (requests w)); Sleep 2]).
  { subst w2. rewrite pacing_emit by apply (Nat.le_trans _ _ _ H1), trace_tokens_length.
    rewrite pacing_tokens by exact H1. rewrite pacing_sent by lia.
    now rewrite Hp1, Hr1. }
  assert (Hr2 : requests w2 = S (S (requests w)))
    by (subst w2; cbn [emit requests]; rewrite requests_tokens; cbn [sent requests];
        now rewrite Hr1).
  assert (Hl2 : length (trace w) <= length (trace w2)).
  { subst w2. cbn [emit trace]. rewrite length_app.
    pose proof (trace_tokens_length stream (sent w1) t2). lia. }
  rewrite Hr2. destruct (engine_chat (S (S (requests w))) ce2 question) as [ce3 r3].
  assert (H2 : length (trace w) <= length (trace (sent w2)))
    by (cbn [sent trace]; rewrite length_app; lia).
  destruct r3 as [t3|t3 e3].
  - split; [reflexivity|]. split; [|reflexivity].
    rewrite pacing_tokens by exact H2. rewrite pacing_sent by lia.
    now rewrite Hp2, Hr2.
  - split; [reflexivity|]. split; [|reflexivity].
    rewrite pacing_tokens by exact H2. rewrite pacing_sent by lia.
    now rewrite Hp2, Hr2.
Qed.

End EngineFacts.



(** C5: one conversation object per suspect.  A question to suspect [a]
    leaves the conversation state of every other suspect as it was; in API
    mode it leaves [a] a history, the stored one (an empty one on first
    use) or that history extended by the exchange, and in local mode a
    chat engine, the stored one (one built from the system prompt on first
    use) after the loop has run on it; the reply, the world and the state
    left for [a] depend on the engine only through its mode and the state
    of [a]; and [reset_chat] removes the state of its suspect and of no
    other. *)
Theorem one_conversation_per_suspect api_completion engine_chat db :
  (forall a b question streaming callback e w,
      a <> b ->
      conversation
        (fst (fst (get_suspect_response api_completion engine_chat db a question
                                        streaming callback e w))) b
      = conversation e b)
  /\ (forall a question streaming callback e w,
         let e' := fst (fst (get_suspect_response api_completion engine_chat db a
                                                  question streaming callback e w)) in
         if api_mode e then
           let h := default [] (api_chat_histories e !! a) in
           chat_engines e' !! a = chat_engines e !! a
           /\ (api_chat_histories e' !! a = Some h
               \/ exists text,
                    api_chat_histories e' !! a
                    = Some (last20 (h ++ [Message (lit "user") question;
                                          Message (lit "assistant") text])))
         else
           let ce := default (fresh_engine db a) (chat_engines e !! a) in
           api_chat_histories e' !! a = api_chat_histories e !! a
           /\ chat_engines e' !! a
              = Some (fst (fst (chat_with_retries engine_chat (seq 0 max_retries) 1
                                                  (streaming && callback) question ce w))))
  /\ (forall a question streaming callback e1 e2 w,
         api_mode e1 = api_mode e2 ->
         conversation e1 a = conversation e2 a ->
         let r1 := get_suspect_response api_completion engine_chat db a question
                                        streaming callback e1 w in
         let r2 := get_suspect_response api_completion engine_chat db a question
                                        streaming callback e2 w in
         snd r1 = snd r2 /\ snd (fst r1) = snd (fst r2)
         /\ conversation (fst (fst r1)) a = conversation (fst (fst r2)) a)
  /\ (forall a b e,
         conversation (reset_chat a e) a = (None, None)
         /\ (a <> b -> conversation (reset_chat a e) b = conversation e b)).
Proof.
  split; [|split; [|split]].
  - intros a b question streaming callback e w Hne.
    rewrite response_conversation. now destruct (decide (a = b)).
  - intros a question streaming callback e w e'.
    pose proof (response_outcome api_completion engine_chat db a question
                                 streaming callback e w) as H.
    cbv zeta in H. fold e' in H. unfold outcome_for in H.
    destruct (api_mode e).
    + cbv zeta. unfold conversation in H. cbn [fst snd] in H.
      destruct (_openai_chat _ _ _ _ _ _) as [w' [text|ex]];
        injection H as H1 H2 _ _; (split; [exact H2|]); [right; eauto|now left].
    + cbv zeta. unfold conversation in H. cbn [fst snd] in H.
      destruct (chat_with_retries _ _ _ _ _ _ _) as [[ce' w'] answer].
      injection H as H1 H2 _ _. now split.
  - intros a question streaming callback e1 e2 w Hmode Hconv r1 r2.
    pose proof (response_outcome api_completion engine_chat db a question
                                 streaming callback e1 w) as H1.
    pose proof (response_outcome api_completion engine_chat db a question
                                 streaming callback e2 w) as H2.
    cbv zeta in H1, H2. fold r1 in H1. fold r2 in H2.
    rewrite Hmode, Hconv, <- H2 in H1. injection H1 as Ha Hb Hc Hd.
    split; [exact Hd|]. split; [exact Hc|]. unfold conversation. now rewrite Ha, Hb.
  - intros a b e. rewrite !reset_chat_conversation. split.
    + now destruct (decide (a = a)).
    + intros Hne. now destruct (decide (a = b)).
Qed.

Lemma one_conversation_per_suspect_witness :
  conversation
    (fst (fst (get_suspect_response sample_api failing_chat sample_db 1 sample_question
                                    false false (new_engine true true) start))) 2
  = conversation (new_engine true true) 2.
Proof.
  apply (proj1 (one_conversation_per_suspect sample_api failing_chat sample_db)).
  discriminate.
Defined.





(** ** The game state *)

Lemma load_missing s fs : fs !! save_file s = None -> load s fs = (s, false).
Proof. intros H. unfold load. now rewrite H. Qed.

Lemma load_not_json s fs : fs !! save_file s = Some NotJson -> load s fs = (s, false).
Proof. intros H. unfold load. now rewrite H. Qed.

Lemma load_not_object s fs v :
  fs !! save_file s = Some (Json v) ->
  (forall kv, v <> PDict kv) ->
  load s fs = (s, false).
Proof.
  intros H Hv. unfold load. rewrite H.
  destruct v; try reflexivity. now destruct (Hv kv).
Qed.

Lemma load_object s fs kv :
  fs !! save_file s = Some (Json (PDict kv)) ->
  load s fs
  = ({| current_day := default (PInt 1) (assoc (lit "current_day") kv);
        notebook_pages :=
          default (PList [blank_page (PInt 1)]) (assoc (lit "notebook_pages") kv);
        game_ended := default (PBool false) (assoc (lit "game_ended") kv);
        win_state := default (PStr []) (assoc (lit "win_state") kv);
        intro_shown := default (PBool false) (assoc (lit "intro_shown") kv);
        case_files_text := default (PStr []) (assoc (lit "case_files_text") kv);
        save_file := save_file s |}, true).
Proof. intros H. unfold load. rewrite H. reflexivity. Qed.

Lemma load_true_iff s fs :
  snd (load s fs) = true
  <-> exists kv, fs !! save_file s = Some (Json (PDict kv)).
Proof.
  split.
  - destruct (fs !! save_file s) as [[v|]|] eqn:E.
    + destruct v as [| | | | |kv];
        try (rewrite (load_not_object s fs _ E) by discriminate; discriminate).
      eauto.
    + now rewrite (load_not_json s fs E).
    + now rewrite (load_missing s fs E).
  - intros (kv & E). now rewrite (load_object s fs kv E).
Qed.

Lemma load_false_unchanged s fs : snd (load s fs) = false -> fst (load s fs) = s.
Proof.
  destruct (fs !! save_file s) as [[v|]|] eqn:E.
  - destruct v as [| | | | |kv];
      try (now rewrite (load_not_object s fs _ E) by discriminate).
    now rewrite (load_object s fs kv E).
  - now rewrite (load_not_json s fs E).
  - now rewrite (load_missing s fs E).
Qed.

Lemma save_then_load s fs :
  save_file s = save_file init ->
  load init (save s WriteOk fs)
  = ({| current_day := current_day s; notebook_pages := notebook_pages s;
        game_ended := game_ended s; win_state := win_state s;
        intro_shown := intro_shown s; case_files_text := case_files_text s;
        save_file := save_file init |}, true).
Proof.
  intros Hfile. unfold save. rewrite Hfile.
  rewrite (load_object init _ _ (lookup_insert_eq _ _ _)).
  reflexivity.
Qed.

(** C3 as stated fails: a save file that holds a JSON array exists and
    parses as JSON, and [load] answers False. *)
Lemma load_json_array_false :
  array_disk !! save_file init = Some (Json (PList []))
  /\ snd (load init array_disk) = false.
Proof. split; reflexivity. Qed.

(** C3, as the code has it: a state saved to a file that can be written
    and loaded into a new state comes back in its six saved attributes,
    and [load] answers True; [load] answers True exactly when the save
    file exists, parses as JSON and holds an object; when it answers
    False the state is left as it was. *)
Theorem save_load_round_trip :
  (forall s fs,
      save_file s = save_file init ->
      saved_fields (fst (load init (save s WriteOk fs))) = saved_fields s
      /\ snd (load init (save s WriteOk fs)) = true)
  /\ (forall s fs,
         snd (load s fs) = true
         <-> exists kv, fs !! save_file s = Some (Json (PDict kv)))
  /\ (forall s fs, snd (load s fs) = false -> fst (load s fs) = s).
Proof.
  split; [|split].
  - intros s fs Hfile. rewrite (save_then_load s fs Hfile). split; reflexivity.
  - apply load_true_iff.
  - apply load_false_unchanged.
Qed.

Lemma save_load_round_trip_witness :
  saved_fields (fst (load init (save sample_state WriteOk empty_disk)))
  = saved_fields sample_state
  /\ snd (load init (save sample_state WriteOk empty_disk)) = true.
Proof.
  apply (proj1 save_load_round_trip sample_state empty_disk). reflexivity.
Defined.

(** *** Days and pages *)

Lemma page_day d c : getitem (page d c) (lit "day") = Return d.
Proof. reflexivity. Qed.

Lemma blank_is_page d : blank_page d = page d [].
Proof. reflexivity. Qed.

Lemma page_set_content d c c' :
  setitem (page d c) (lit "content") (PStr c') = Return (page d c').
Proof. reflexivity. Qed.

Lemma int_is_not_final j : py_eq (PInt j) FINAL = false.
Proof. reflexivity. Qed.

Lemma final_is_final : py_eq FINAL FINAL = true.
Proof. reflexivity. Qed.

Lemma int_eq_int j m : py_eq (PInt j) (PInt m) = (j =? m)%Z.
Proof. reflexivity. Qed.

Lemma numbered_length k cs : length (numbered k cs) = length cs.
Proof. revert k. induction cs; intros k; simpl; auto. Qed.

Lemma numbered_app k a b :
  numbered k (a ++ b) = numbered k a ++ numbered (k + Z.of_nat (length a)) b.
Proof.
  revert k. induction a as [|c a IH]; intros k.
  - simpl. now rewrite Z.add_0_r.
  - cbn [app numbered length]. rewrite IH.
    replace (k + 1 + Z.of_nat (length a))%Z with (k + Z.of_nat (S (length a)))%Z by lia.
    reflexivity.
Qed.

Lemma find_step p rest i today d :
  getitem p (lit "day") = Return d ->
  find_current_page (p :: rest) i today
  = if py_eq d today || py_eq d FINAL then Return (Some (i, p))
    else find_current_page rest (S i) today.
Proof. intros H. cbn [find_current_page]. now rewrite H. Qed.

Lemma find_skip_numbered cs k i today rest :
  (forall j, (k <= j < k + Z.of_nat (length cs))%Z -> py_eq (PInt j) today = false) ->
  find_current_page (numbered k cs ++ rest) i today
  = find_current_page rest (i + length cs) today.
Proof.
  revert k i. induction cs as [|c cs IH]; intros k i H.
  - simpl. now rewrite Nat.add_0_r.
  - cbn [numbered app]. rewrite (find_step _ _ _ _ _ (page_day _ _)).
    rewrite H by (cbn [length]; lia). rewrite int_is_not_final. cbn [orb].
    rewrite IH by (intros j Hj; apply H; cbn [length]; lia).
    cbn [length]. same_days.
Qed.

Lemma has_final_step p rest d :
  getitem p (lit "day") = Return d ->
  has_final_page (p :: rest) = if py_eq d FINAL then Return true else has_final_page rest.
Proof. intros H. cbn [has_final_page]. now rewrite H. Qed.

Lemma has_final_numbered cs k rest :
  has_final_page (numbered k cs ++ rest) = has_final_page rest.
Proof.
  revert k. induction cs as [|c cs IH]; intros k; [reflexivity|].
  cbn [numbered app]. rewrite (has_final_step _ _ _ (page_day _ _)).
  rewrite int_is_not_final. apply IH.
Qed.

(** The two shapes of a well-formed state. *)
Lemma well_formed_cases s :
  well_formed s ->
  (exists cs c,
      notebook_pages s
      = PList (numbered 1 cs ++ [page (PInt (Z.of_nat (S (length cs)))) c])
      /\ current_day s = PInt (Z.of_nat (S (length cs))))
  \/ (exists contents f,
         contents <> []
         /\ notebook_pages s = PList (numbered 1 contents ++ [page FINAL f])
         /\ current_day s = FINAL).
Proof.
  intros (contents & final & Hne & Hp & Hd). destruct final as [f|].
  - right. eauto.
  - left. destruct (exists_last Hne) as (cs & c & ->).
    exists cs, c. rewrite Hp, Hd, app_nil_r, numbered_app, length_app. cbn [numbered length].
    split; same_days.
Qed.

Lemma get_current_numbered cs c s :
  notebook_pages s
  = PList (numbered 1 cs ++ [page (PInt (Z.of_nat (S (length cs)))) c]) ->
  current_day s = PInt (Z.of_nat (S (length cs))) ->
  find_current_page (numbered 1 cs ++ [page (PInt (Z.of_nat (S (length cs)))) c]) 0
                    (current_day s)
  = Return (Some (length cs, page (PInt (Z.of_nat (S (length cs)))) c))
  /\ get_current_page s
     = Return (InNotebook (length cs), page (PInt (Z.of_nat (S (length cs)))) c).
Proof.
  intros Hp Hd.
  assert (Hfind : find_current_page
                    (numbered 1 cs ++ [page (PInt (Z.of_nat (S (length cs)))) c]) 0
                    (current_day s)
                  = Return (Some (length cs, page (PInt (Z.of_nat (S (length cs)))) c))).
  { rewrite Hd, find_skip_numbered.
    - rewrite (find_step _ _ _ _ _ (page_day _ _)), int_eq_int, Z.eqb_refl. reflexivity.
    - intros j Hj. rewrite int_eq_int. apply Z.eqb_neq. lia. }
  split; [exact Hfind|].
  unfold get_current_page. rewrite Hp. cbn [iterate bind]. now rewrite Hfind.
Qed.

Lemma get_current_final contents f s :
  notebook_pages s = PList (numbered 1 contents ++ [page FINAL f]) ->
  current_day s = FINAL ->
  find_current_page (numbered 1 contents ++ [page FINAL f]) 0 (current_day s)
  = Return (Some (length contents, page FINAL f))
  /\ get_current_page s = Return (InNotebook (length contents), page FINAL f).
Proof.
  intros Hp Hd.
  assert (Hfind : find_current_page (numbered 1 contents ++ [page FINAL f]) 0
                                    (current_day s)
                  = Return (Some (length contents, page FINAL f))).
  { rewrite Hd, find_skip_numbered by (intros; apply int_is_not_final).
    rewrite (find_step _ _ _ _ _ (page_day _ _)), final_is_final. reflexivity. }
  split; [exact Hfind|].
  unfold get_current_page. rewrite Hp. cbn [iterate bind]. now rewrite Hfind.
Qed.

(** *** The methods keep a state well formed *)

Lemma well_formed_init : well_formed init.
Proof. exists [[]], None. split; [discriminate|]. split; reflexivity. Qed.

Lemma well_formed_reset s : well_formed (reset s).
Proof. exists [[]], None. split; [discriminate|]. split; reflexivity. Qed.

Lemma advance_day_numbered cs c s :
  notebook_pages s
  = PList (numbered 1 cs ++ [page (PInt (Z.of_nat (S (length cs)))) c]) ->
  current_day s = PInt (Z.of_nat (S (length cs))) ->
  let day := PInt (Z.of_nat (S (length cs)) + 1) in
  advance_day s
  = (set_notebook_pages
       (PList ((numbered 1 cs ++ [page (PInt (Z.of_nat (S (length cs)))) c])
               ++ [blank_page day]))
       (set_current_day day s),
     Return day).
Proof.
  intros Hp Hd. unfold advance_day. rewrite Hd. cbn [add_one].
  cbn [set_current_day notebook_pages current_day]. rewrite Hp. reflexivity.
Qed.

Lemma advance_day_final s :
  current_day s = FINAL -> exists e, advance_day s = (s, Raise e).
Proof. intros Hd. unfold advance_day. rewrite Hd. cbn. eauto. Qed.

Lemma well_formed_advance s : well_formed s -> well_formed (fst (advance_day s)).
Proof.
  intros H. destruct (well_formed_cases s H) as [(cs & c & Hp & Hd)|(contents & f & Hne & Hp & Hd)].
  - rewrite (advance_day_numbered cs c s Hp Hd). cbn [fst].
    exists ((cs ++ [c]) ++ [[]]), None. split; [destruct cs; discriminate|].
    cbn [set_notebook_pages set_current_day notebook_pages current_day].
    split.
    + rewrite app_nil_r, !numbered_app, !length_app. cbn [numbered length].
      rewrite blank_is_page. same_days.
    + rewrite !length_app. cbn [length]. same_days.
  - destruct (advance_day_final s Hd) as (e & ->). exact H.
Qed.

Lemma create_final_numbered cs c s :
  notebook_pages s
  = PList (numbered 1 cs ++ [page (PInt (Z.of_nat (S (length cs)))) c]) ->
  create_final_page s
  = (set_current_day FINAL
       (set_notebook_pages
          (PList ((numbered 1 cs ++ [page (PInt (Z.of_nat (S (length cs)))) c])
                  ++ [blank_page FINAL])) s),
     Return tt).
Proof.
  intros Hp. unfold create_final_page. rewrite Hp. cbn [iterate bind].
  rewrite has_final_numbered, (has_final_step _ _ _ (page_day _ _)), int_is_not_final.
  reflexivity.
Qed.

Lemma create_final_final contents f s :
  notebook_pages s = PList (numbered 1 contents ++ [page FINAL f]) ->
  create_final_page s = (s, Return tt).
Proof.
  intros Hp. unfold create_final_page. rewrite Hp. cbn [iterate bind].
  rewrite has_final_numbered, (has_final_step _ _ _ (page_day _ _)), final_is_final.
  reflexivity.
Qed.

Lemma well_formed_final s : well_formed s -> well_formed (fst (create_final_page s)).
Proof.
  intros H. destruct (well_formed_cases s H) as [(cs & c & Hp & Hd)|(contents & f & Hne & Hp & Hd)].
  - rewrite (create_final_numbered cs c s Hp). cbn [fst].
    exists (cs ++ [c]), (Some []). split; [destruct cs; discriminate|].
    cbn [set_notebook_pages set_current_day notebook_pages current_day].
    split; [|reflexivity].
    rewrite numbered_app. cbn [numbered]. rewrite blank_is_page. same_days.
  - rewrite (create_final_final contents f s Hp). exact H.
Qed.

Lemma well_formed_update content s :
  well_formed s -> well_formed (fst (update_current_page content s)).
Proof.
  intros H. destruct (well_formed_cases s H) as [(cs & c & Hp & Hd)|(contents & f & Hne & Hp & Hd)].
  - destruct (get_current_numbered cs c s Hp Hd) as [_ Hget].
    unfold update_current_page. rewrite Hget, page_set_content, Hp. cbn [fst].
    exists (cs ++ [content]), None. split; [destruct cs; discriminate|].
    cbn [set_notebook_pages notebook_pages current_day]. split.
    + rewrite <- (numbered_length 1 cs) at 1.
      rewrite <- (Nat.add_0_r (length (numbered 1 cs))), insert_app_r.
      rewrite app_nil_r, numbered_app. cbn [numbered]. simpl. same_days.
    + rewrite Hd, length_app. cbn [length]. same_days.
  - destruct (get_current_final contents f s Hp Hd) as [_ Hget].
    unfold update_current_page. rewrite Hget, page_set_content, Hp. cbn [fst].
    exists contents, (Some content). split; [exact Hne|].
    cbn [set_notebook_pages notebook_pages current_day]. split; [|exact Hd].
    rewrite <- (numbered_length 1 contents) at 1.
    rewrite <- (Nat.add_0_r (length (numbered 1 contents))), insert_app_r. reflexivity.
Qed.

Lemma reachable_well_formed s : reachable s -> well_formed s.
Proof.
  induction 1.
  - apply well_formed_init.
  - apply well_formed_reset.
  - now apply well_formed_advance.
  - now apply well_formed_final.
  - now apply well_formed_update.
Qed.

(** *** A page for the current day *)

Lemma has_today_init : has_today init.
Proof.
  exists [blank_page (PInt 1)], (blank_page (PInt 1)), (PInt 1).
  split; [reflexivity|]. split; [discriminate|]. split; [left|]. split; reflexivity.
Qed.

Lemma has_today_reset s : has_today (reset s).
Proof.
  exists [blank_page (PInt 1)], (blank_page (PInt 1)), (PInt 1).
  split; [reflexivity|]. split; [discriminate|]. split; [left|]. split; reflexivity.
Qed.

Lemma has_today_appended s pages day :
  py_eq day day = true ->
  has_today (set_notebook_pages (PList (pages ++ [blank_page day])) (set_current_day day s)).
Proof.
  intros Hday. exists (pages ++ [blank_page day]), (blank_page day), day.
  split; [reflexivity|]. split; [destruct pages; discriminate|].
  split; [apply elem_of_app; right; left|]. split; [reflexivity|exact Hday].
Qed.

Lemma has_today_advance s : has_today s -> has_today (fst (advance_day s)).
Proof.
  intros H. pose proof H as (pages & p & day & Hp & _).
  unfold advance_day.
  destruct (current_day s) as [|b|z|t|l|kv] eqn:Hd; cbn [add_one]; try exact H;
    cbn [set_current_day notebook_pages current_day]; rewrite Hp; cbn [list_append fst].
  - apply (has_today_appended s pages (PInt (Z.b2z b + 1))).
    rewrite int_eq_int. apply Z.eqb_refl.
  - apply (has_today_appended s pages (PInt (z + 1))).
    rewrite int_eq_int. apply Z.eqb_refl.
Qed.

Lemma has_today_final s : has_today s -> has_today (fst (create_final_page s)).
Proof.
  intros H. pose proof H as (pages & p & day & Hp & _).
  unfold create_final_page. rewrite Hp. cbn [iterate bind].
  destruct (has_final_page pages) as [[|]|e]; try exact H.
  cbn [list_append fst].
  exists (pages ++ [blank_page FINAL]), (blank_page FINAL), FINAL.
  split; [reflexivity|]. split; [destruct pages; discriminate|].
  split; [apply elem_of_app; right; left|]. split; reflexivity.
Qed.

Lemma well_formed_has_today s : well_formed s -> has_today s.
Proof.
  intros H. destruct (well_formed_cases s H) as [(cs & c & Hp & Hd)|(contents & f & Hne & Hp & Hd)].
  - eexists _, (page (PInt (Z.of_nat (S (length cs)))) c), _.
    split; [exact Hp|]. split; [destruct (numbered 1 cs); discriminate|].
    split; [apply elem_of_app; right; left|]. split; [apply page_day|].
    rewrite Hd, int_eq_int. apply Z.eqb_refl.
  - eexists _, (page FINAL f), _.
    split; [exact Hp|]. split; [destruct (numbered 1 contents); discriminate|].
    split; [apply elem_of_app; right; left|]. split; [apply page_day|].
    now rewrite Hd.
Qed.

Lemma final_pages_numbered k cs rest :
  List.filter (fun p => match getitem p (lit "day") with
                        | Return d => py_eq d FINAL
                        | Raise _ => false
                        end) (numbered k cs ++ rest)
  = List.filter (fun p => match getitem p (lit "day") with
                          | Return d => py_eq d FINAL
                          | Raise _ => false
                          end) rest.
Proof.
  revert k. induction cs as [|c cs IH]; intros k; [reflexivity|].
  cbn [numbered app List.filter]. rewrite page_day, int_is_not_final. apply IH.
Qed.

Lemma well_formed_final_pages s :
  well_formed s ->
  final_pages s = (if py_eq (current_day s) FINAL then 1 else 0).
Proof.
  intros H. destruct (well_formed_cases s H) as [(cs & c & Hp & Hd)|(contents & f & Hne & Hp & Hd)];
    unfold final_pages; rewrite Hp, final_pages_numbered, Hd.
  - reflexivity.
  - reflexivity.
Qed.

Lemma well_formed_final_day s :
  well_formed s -> current_day (fst (create_final_page s)) = FINAL.
Proof.
  intros H. destruct (well_formed_cases s H) as [(cs & c & Hp & Hd)|(contents & f & Hne & Hp & Hd)].
  - now rewrite (create_final_numbered cs c s Hp).
  - now rewrite (create_final_final contents f s Hp).
Qed.

Lemma sample_state_well_formed : well_formed sample_state.
Proof. exists [[]; []], None. split; [discriminate|]. split; reflexivity. Qed.

Lemma accusing_state_well_formed : well_formed accusing_state.
Proof. exists [[]; []], (Some []). split; [discriminate|]. split; reflexivity. Qed.

(** C8: where [advance_day] meets the Final page the code does not do
    what the specification says.  [create_final_page], called in the
    middle of a game, leaves a state of the game that satisfies the
    invariant and whose current day is the string Final; saved and loaded
    by the next launch of the game, the state comes back as it was; and
    there [advance_day] raises the TypeError of [self.current_day += 1]
    on a string: it returns no day number, the current day is not
    incremented and no page is appended. *)
Lemma advance_day_after_final_raises :
  played reloaded_state
  /\ has_today accusing_state
  /\ current_day accusing_state = FINAL
  /\ load init accusing_disk = (accusing_state, true)
  /\ advance_day reloaded_state
     = (reloaded_state,
        Raise (TypeError (lit "can only concatenate str (not " ++ [DQUOTE] ++ lit "int"
                          ++ [DQUOTE] ++ lit ") to str")))
  /\ current_day (fst (advance_day reloaded_state)) = FINAL
  /\ notebook_pages (fst (advance_day reloaded_state)) = notebook_pages accusing_state.
Proof.
  split.
  { apply (played_reloaded accusing_state empty_disk), played_final.
    apply played_case_files, played_intro_shown, played_advance, played_new. }
  split; [apply well_formed_has_today, accusing_state_well_formed|].
  repeat split; reflexivity.
Qed.

(** X26: the invariant of the notebook, as far as the code keeps it.
    That the notebook is not empty and has a page for the current day holds of a
    new and of a reset state and is kept by [advance_day] and
    [create_final_page], from any state.  In a well-formed state,
    whatever its other attributes hold, the current day is a number or
    the string Final: [advance_day] on a number moves the day on by one
    and appends a blank page for it, and on Final it raises and changes
    nothing; [create_final_page] leaves the current day at Final and one
    Final page, and no state has more than one; and the loop of
    [get_current_page] finds a page of the notebook whose day is the
    current day, so that its fallback is never taken. *)
Theorem notebook_has_current_page :
  has_today init
  /\ (forall s, has_today (reset s))
  /\ (forall s, has_today s ->
                has_today (fst (advance_day s)) /\ has_today (fst (create_final_page s)))
  /\ (forall s,
         well_formed s ->
         has_today s
         /\ ((exists n, current_day s = PInt n) \/ current_day s = FINAL)
         /\ (forall n, current_day s = PInt n ->
                       exists pages,
                         notebook_pages s = PList pages
                         /\ advance_day s
                            = (set_notebook_pages
                                 (PList (pages ++ [blank_page (PInt (n + 1))]))
                                 (set_current_day (PInt (n + 1)) s),
                               Return (PInt (n + 1))))
         /\ (current_day s = FINAL -> exists e, advance_day s = (s, Raise e))
         /\ current_day (fst (create_final_page s)) = FINAL
         /\ final_pages (fst (create_final_page s)) = 1
         /\ final_pages s <= 1
         /\ (exists i p pages,
                get_current_page s = Return (InNotebook i, p)
                /\ notebook_pages s = PList pages
                /\ find_current_page pages 0 (current_day s) = Return (Some (i, p))
                /\ getitem p (lit "day") = Return (current_day s))).
Proof.
  split; [apply has_today_init|]. split; [apply has_today_reset|].
  split; [intros s H; split; [now apply has_today_advance|now apply has_today_final]|].
  intros s Hwf.
  split; [now apply well_formed_has_today|].
  pose proof (well_formed_final s Hwf) as Hwf'.
  pose proof (well_formed_final_pages _ Hwf') as Hfp'.
  rewrite (well_formed_final_day s Hwf) in Hfp'.
  pose proof (well_formed_final_pages _ Hwf) as Hfp.
  destruct (well_formed_cases s Hwf) as [(cs & c & Hp & Hd)|(contents & f & Hne & Hp & Hd)].
  - split; [left; eauto|]. split; [|split; [|split; [|split; [|split]]]].
    + intros n Hn. rewrite Hd in Hn. injection Hn as <-.
      eexists. split; [exact Hp|]. apply (advance_day_numbered cs c s Hp Hd).
    + intros Hf. rewrite Hd in Hf. discriminate.
    + now apply well_formed_final_day.
    + rewrite Hfp'. reflexivity.
    + rewrite Hfp. destruct (py_eq (current_day s) FINAL); lia.
    + destruct (get_current_numbered cs c s Hp Hd) as [Hfind Hget].
      eexists _, _, _. split; [exact Hget|]. split; [exact Hp|]. split; [exact Hfind|].
      now rewrite page_day, Hd.
  - split; [now right|]. split; [|split; [|split; [|split; [|split]]]].
    + intros n Hn. rewrite Hd in Hn. discriminate.
    + intros _. now apply advance_day_final.
    + now apply well_formed_final_day.
    + rewrite Hfp'. reflexivity.
    + rewrite Hfp. destruct (py_eq (current_day s) FINAL); lia.
    + destruct (get_current_final contents f s Hp Hd) as [Hfind Hget].
      eexists _, _, _. split; [exact Hget|]. split; [exact Hp|]. split; [exact Hfind|].
      now rewrite page_day, Hd.
Qed.

Lemma notebook_has_current_page_witness :
  has_today (fst (advance_day sample_state))
  /\ (exists i p pages,
         get_current_page sample_state = Return (InNotebook i, p)
         /\ notebook_pages sample_state = PList pages
         /\ find_current_page pages 0 (current_day sample_state)
            = Return (Some (i, p))
         /\ getitem p (lit "day") = Return (current_day sample_state)).
Proof.
  destruct notebook_has_current_page as (_ & _ & Hkeep & Hplay).
  pose proof (Hplay sample_state sample_state_well_formed) as (Htoday & _ & _ & _ & _ & _ & _ & Hget).
  split.
  - apply Hkeep, Htoday.
  - exact Hget.
Defined.

(** ** The system prompt *)






(** ** More on the emotion parser *)

Lemma lstrip_is_drop s : lstrip s = drop (run isspace s) s.
Proof.
  induction s as [|c s IH]; simpl; [reflexivity|].
  destruct (isspace c); [exact IH|reflexivity].
Qed.

Lemma rstrip_is_take s : rstrip s = take (length s - run isspace (rev s)) s.
Proof.
  unfold rstrip. rewrite lstrip_is_drop, skipn_rev, rev_involutive.
  reflexivity.
Qed.

Lemma lstrip_sublist s : lstrip s `sublist_of` s.
Proof. rewrite lstrip_is_drop. apply sublist_drop. Qed.

Lemma strip_sublist s : strip s `sublist_of` s.
Proof.
  unfold strip. rewrite rstrip_is_take.
  etransitivity; [apply sublist_take|apply lstrip_sublist].
Qed.

Lemma sub_sublist (re : list item) s : forall skip, sub_from re skip s `sublist_of` s.
Proof.
  induction s as [|c s IH]; intros skip; simpl; [constructor|].
  destruct skip as [|skip]; [|apply sublist_cons, IH].
  destruct (match_here re (c :: s)) as [m|];
    [destruct (m_len m)|]; first [apply sublist_skip, IH|apply sublist_cons, IH].
Qed.

Lemma clean_artifacts_sublist Nd response :
  clean_artifacts Nd response `sublist_of` response.
Proof.
  unfold clean_artifacts, re_sub_empty.
  etransitivity; [apply strip_sublist|].
  etransitivity; apply sub_sublist.
Qed.

Lemma cut_sublist {A} (l : list A) a b :
  a <= b -> take a l ++ drop b l `sublist_of` l.
Proof.
  intros Hab. rewrite <- (take_drop a l) at 3.
  apply sublist_app; [reflexivity|].
  replace b with (a + (b - a)) by lia. rewrite <- drop_drop. apply sublist_drop.
Qed.

Lemma search_from_span re s : forall off m,
  search_from re off s = Some m -> m_start m <= m_end m.
Proof.
  induction s as [|c s IH]; intros off m; simpl;
    destruct (match_here re _) as [r|]; try discriminate;
    try (intros [= <-]; simpl; lia).
  apply IH.
Qed.

Lemma finditer_from_span re s : forall off skip,
  Forall (fun m => m_start m <= m_end m) (finditer_from re off skip s).
Proof.
  induction s as [|c s IH]; intros off skip; simpl.
  - destruct skip; [|constructor].
    destruct (match_here re []); constructor; [simpl; lia|constructor].
  - destruct skip; [|apply IH].
    destruct (match_here re (c :: s)); [constructor; [simpl; lia|]|]; apply IH.
Qed.

Lemma find_tag_span text m : find_tag text = Some m -> m_start m <= m_end m.
Proof.
  unfold find_tag, re_search, re_finditer.
  destruct (search_from pattern_end 0 text) as [r|] eqn:E.
  - intros [= <-]. exact (search_from_span _ _ _ _ E).
  - intros H. apply last_Some in H as (l' & Hl).
    pose proof (finditer_from_span pattern_any text 0 0) as Hall.
    rewrite Hl in Hall. apply Forall_app in Hall as [_ Hall].
    now inversion Hall.
Qed.

Lemma strip_head s c t : strip s = c :: t -> isspace c = false.
Proof.
  unfold strip. rewrite rstrip_is_take. intros H.
  destruct (lstrip s) as [|x u] eqn:E.
  - now rewrite take_nil in H.
  - destruct (length (x :: u) - run isspace (rev (x :: u))); simpl in H; [discriminate|].
    injection H as <- _. exact (lstrip_head _ _ _ E).
Qed.

Lemma strip_last s c : last (strip s) = Some c -> isspace c = false.
Proof.
  unfold strip, rstrip. intros H.
  destruct (lstrip (rev (lstrip s))) as [|x u] eqn:E; [discriminate|].
  simpl in H. rewrite last_snoc in H. injection H as <-.
  exact (lstrip_head _ _ _ E).
Qed.
Lemma lstrip_spaces ws s :
  Forall (fun c => isspace c = true) ws -> lstrip (ws ++ s) = lstrip s.
Proof. induction 1 as [|c ws Hc _ IH]; simpl; [reflexivity|]. now rewrite Hc. Qed.

Lemma lstrip_app_keep s c t :
  isspace c = false -> lstrip (s ++ c :: t) = lstrip (s ++ [c]) ++ t.
Proof.
  intros Hc. induction s as [|x s IH]; simpl.
  - now rewrite Hc.
  - destruct (isspace x); [exact IH|]. simpl. now rewrite <- app_assoc.
Qed.

Lemma lstrip_all_spaces s :
  Forall (fun c => isspace c = true) s -> lstrip s = [].
Proof. intros H. rewrite <- (app_nil_r s). now rewrite lstrip_spaces. Qed.

Lemma lstrip_cases s :
  Forall (fun c => isspace c = true) s
  \/ exists ws c t, s = ws ++ c :: t /\ Forall (fun c => isspace c = true) ws
                    /\ isspace c = false.
Proof.
  induction s as [|x s IH]; [left; constructor|].
  destruct (isspace x) eqn:E.
  - destruct IH as [H|(ws & c & t & -> & Hws & Hc)].
    + left. now constructor.
    + right. exists (x :: ws), c, t. repeat split; auto.
  - right. exists [], x, s. repeat split; auto.
Qed.

Lemma rstrip_spaces s ws :
  Forall (fun c => isspace c = true) ws -> rstrip (s ++ ws) = rstrip s.
Proof.
  intros H. unfold rstrip. rewrite rev_app_distr, lstrip_spaces; [reflexivity|].
  now apply Forall_rev.
Qed.

Lemma rstrip_all_spaces s :
  Forall (fun c => isspace c = true) s -> rstrip s = [].
Proof. intros H. unfold rstrip. rewrite lstrip_all_spaces; [reflexivity|now apply Forall_rev]. Qed.

Lemma rstrip_keep s c : isspace c = false -> rstrip (s ++ [c]) = s ++ [c].
Proof.
  intros Hc. unfold rstrip. rewrite rev_app_distr. simpl. rewrite Hc.
  simpl. now rewrite rev_involutive.
Qed.

(** Blanks around a text do not change what [strip] leaves of it. *)
Lemma strip_padding ws1 s ws2 :
  Forall (fun c => isspace c = true) ws1 ->
  Forall (fun c => isspace c = true) ws2 ->
  strip (ws1 ++ s ++ ws2) = strip s.
Proof.
  intros H1 H2. unfold strip. rewrite (lstrip_spaces _ _ H1).
  destruct (lstrip_cases s) as [Hs|(ws & c & t & -> & Hws & Hc)].
  - rewrite (lstrip_all_spaces s Hs), lstrip_all_spaces; [|now apply Forall_app].
    reflexivity.
  - rewrite <- !app_assoc, !(lstrip_spaces _ _ Hws). simpl. rewrite Hc.
    change (c :: t ++ ws2) with ((c :: t) ++ ws2).
    now rewrite (rstrip_spaces (c :: t) ws2 H2).
Qed.

Lemma parse_emotion_tag_unknown Nd db response suspect_id :
  characters db !! str_of_Z suspect_id = None ->
  parse_emotion_tag Nd db response suspect_id
  = Raise (ValueError (lit "Invalid suspect_id: " ++ str_of_Z suspect_id)).
Proof.
  intros H. unfold parse_emotion_tag, map_emotion_to_image, get_emotion_mapping.
  rewrite H. now destruct (find_tag _).
Qed.

(** X1: whatever the response, the image [parse_emotion_tag] returns is the
    image [map_emotion_to_image] gives for the tag it returns: the
    portrait shown belongs to the tag reported, also when no tag was found
    and the tag reported is the word default. *)
Theorem parse_emotion_tag_image_of_tag Nd db response suspect_id image cleaned tag :
  parse_emotion_tag Nd db response suspect_id = Return (image, cleaned, tag) ->
  exists is_valid,
    map_emotion_to_image db suspect_id tag = Return (image, is_valid).
Proof.
  intros H.
  destruct (characters db !! str_of_Z suspect_id) as [ch|] eqn:Hch;
    [|rewrite (parse_emotion_tag_unknown _ _ _ _ Hch) in H; discriminate].
  unfold map_emotion_to_image. rewrite (get_emotion_mapping_known _ _ _ Hch).
  cbn [bind].
  destruct (find_tag (clean_artifacts Nd response)) as [m|] eqn:Hm.
  - rewrite (parse_emotion_tag_found _ _ _ _ _ _ Hch Hm) in H.
    injection H as <- _ <-. unfold image_of, default_image.
    destruct (default ∅ (emotion_mapping ch) !! strip (strip (group1 _ m)));
      eexists; reflexivity.
  - rewrite (parse_emotion_tag_none _ _ _ _ _ Hch Hm) in H.
    injection H as <- _ <-. unfold default_image.
    replace (strip (lit "default")) with (lit "default") by (vm_compute; reflexivity).
    destruct (default ∅ (emotion_mapping ch) !! lit "default");
      eexists; reflexivity.
Qed.

Lemma parse_emotion_tag_image_of_tag_witness :
  exists is_valid,
    map_emotion_to_image sample_db 1 (lit "sad") = Return (lit "calm.jpg", is_valid).
Proof.
  apply (parse_emotion_tag_image_of_tag sample_Nd sample_db
           (lit "I saw nothing. [ sad ]") 1 _ (lit "I saw nothing.")).
  vm_compute. reflexivity.
Defined.

(** X2: the text [parse_emotion_tag] returns is made of characters of the
    response in their order, nothing added, and it neither starts nor ends
    with a blank. *)
Theorem parse_emotion_tag_cleaned_text Nd db response suspect_id image cleaned tag :
  parse_emotion_tag Nd db response suspect_id = Return (image, cleaned, tag) ->
  cleaned `sublist_of` response
  /\ (forall c t, cleaned = c :: t -> isspace c = false)
  /\ (forall c, last cleaned = Some c -> isspace c = false).
Proof.
  intros H.
  destruct (characters db !! str_of_Z suspect_id) as [ch|] eqn:Hch;
    [|rewrite (parse_emotion_tag_unknown _ _ _ _ Hch) in H; discriminate].
  destruct (find_tag (clean_artifacts Nd response)) as [m|] eqn:Hm.
  - rewrite (parse_emotion_tag_found _ _ _ _ _ _ Hch Hm) in H.
    injection H as _ <- _. split; [|split].
    + etransitivity; [apply strip_sublist|].
      etransitivity; [|apply clean_artifacts_sublist].
      apply cut_sublist, (find_tag_span _ _ Hm).
    + intros c t. apply strip_head.
    + intros c. apply strip_last.
  - rewrite (parse_emotion_tag_none _ _ _ _ _ Hch Hm) in H.
    injection H as _ <- _. split; [|split].
    + apply clean_artifacts_sublist.
    + intros c t. unfold clean_artifacts. apply strip_head.
    + intros c. unfold clean_artifacts. apply strip_last.
Qed.

Lemma parse_emotion_tag_cleaned_text_witness :
  lit "[sad] I saw  nothing" `sublist_of` lit " [sad] I saw [angry] nothing{'='*3} "
  /\ (forall c t, lit "[sad] I saw  nothing" = c :: t -> isspace c = false)
  /\ (forall c, last (lit "[sad] I saw  nothing") = Some c -> isspace c = false).
Proof.
  apply (parse_emotion_tag_cleaned_text sample_Nd sample_db
           (lit " [sad] I saw [angry] nothing{'='*3} ") 1
           (lit "angry.jpg") _ (lit "angry")).
  vm_compute. reflexivity.
Defined.

(** X3: blanks before and after an emotion tag never change what
    [map_emotion_to_image] answers, for a suspect of the database or
    not. *)
Theorem map_emotion_to_image_padding db suspect_id ws1 tag ws2 :
  Forall (fun c => isspace c = true) ws1 ->
  Forall (fun c => isspace c = true) ws2 ->
  map_emotion_to_image db suspect_id (ws1 ++ tag ++ ws2)
  = map_emotion_to_image db suspect_id tag.
Proof.
  intros H1 H2. unfold map_emotion_to_image.
  destruct (get_emotion_mapping db suspect_id) as [mapping|ex]; cbn [bind];
    [|reflexivity].
  now rewrite (strip_padding _ _ _ H1 H2).
Qed.

Lemma map_emotion_to_image_padding_witness :
  map_emotion_to_image sample_db 1 (lit "  " ++ lit "angry" ++ [NEWLINE])
  = map_emotion_to_image sample_db 1 (lit "angry").
Proof.
  apply (map_emotion_to_image_padding sample_db 1 (lit "  ") (lit "angry") [NEWLINE]).
  - repeat constructor.
  - repeat constructor.
Defined.
Lemma lstrip_app_stop s c t :
  isspace c = false -> lstrip (s ++ c :: t) = lstrip s ++ c :: t.
Proof.
  intros Hc. induction s as [|x s IH]; simpl.
  - now rewrite Hc.
  - destruct (isspace x); [exact IH|reflexivity].
Qed.

Lemma sub_absent c (re : list item) s :
  c ∉ s -> sub_from (Lit c :: re) 0 s = s.
Proof.
  induction s as [|x s IH]; intros Hout; [reflexivity|].
  apply not_elem_of_cons in Hout as [Hx Hs].
  cbn [sub_from]. unfold match_here. cbn [rmatch].
  destruct (N.eqb_spec x c) as [->|_]; [contradiction|].
  now rewrite IH.
Qed.

Lemma closed_snoc pre c : c <> LBRACKET -> closed pre -> closed (pre ++ [c]).
Proof.
  intros Hc Hcl u v E.
  destruct v as [|x v _] using rev_ind.
  - apply (app_inj_tail pre u c LBRACKET) in E as [_ E]. contradiction.
  - change (u ++ LBRACKET :: v ++ [x]) with (u ++ (LBRACKET :: v) ++ [x]) in E.
    rewrite app_assoc in E. apply app_inj_tail in E as [-> _].
    apply elem_of_app. left. now apply (Hcl u v).
Qed.

(** X4: a reply that ends as the system prompt asks, with one blank and a
    bracketed tag, is taken apart as meant: when the text before the tag
    has no brace and no open bracket of its own, the cleaned response is
    that text stripped, the tag is the bracket's content stripped, and the
    image is the image of that tag. *)
Theorem parse_emotion_tag_tagged_reply Nd db reply tag suspect_id ch :
  characters db !! str_of_Z suspect_id = Some ch ->
  123%N ∉ reply -> 123%N ∉ tag -> closed reply ->
  tag <> [] -> RBRACKET ∉ tag ->
  parse_emotion_tag Nd db (reply ++ lit " [" ++ tag ++ lit "]") suspect_id
  = Return (image_of ch (strip tag), strip reply, strip tag).
Proof.
  intros Hch Hr Ht Hcl Hne Hrb.
  change (lit " [") with [32%N; LBRACKET]. change (lit "]") with [RBRACKET].
  set (pre := lstrip (reply ++ [32%N])).
  assert (Etext : clean_artifacts Nd (reply ++ [32%N; LBRACKET] ++ tag ++ [RBRACKET])
                  = pre ++ LBRACKET :: tag ++ RBRACKET :: []).
  { unfold clean_artifacts, re_sub_empty, pattern_artifact1, pattern_artifact2.
    assert (Hout : 123%N ∉ reply ++ [32%N; LBRACKET] ++ tag ++ [RBRACKET]).
    { rewrite !not_elem_of_app. repeat split; try assumption;
        apply (bool_decide_unpack _); vm_compute; exact I. }
    rewrite !(sub_absent _ _ _ Hout). unfold strip.
    replace (reply ++ [32%N; LBRACKET] ++ tag ++ [RBRACKET])
      with ((reply ++ [32%N]) ++ LBRACKET :: tag ++ [RBRACKET])
      by (now rewrite <- app_assoc).
    rewrite lstrip_app_stop by reflexivity. fold pre.
    replace (pre ++ LBRACKET :: tag ++ [RBRACKET])
      with ((pre ++ LBRACKET :: tag) ++ [RBRACKET])
      by (now rewrite <- app_assoc).
    now rewrite rstrip_keep. }
  assert (Hlast : last_tag (clean_artifacts Nd (reply ++ [32%N; LBRACKET] ++ tag ++ [RBRACKET]))
                           pre tag []).
  { split; [exact Etext|]. split; [|split; [exact Hne|split; [exact Hrb|]]].
    - unfold pre. rewrite lstrip_is_drop. apply closed_drop, closed_snoc; [discriminate|exact Hcl].
    - intros (u & b & p & E & _). destruct u; discriminate. }
  assert (Htr : trailing []).
  { exists [], [], []. repeat split; auto. }
  rewrite (parse_emotion_tag_found Nd db _ suspect_id ch _ Hch
             (find_tag_end _ _ _ _ Hlast Htr)).
  cbn [m_start m_end]. rewrite Etext.
  rewrite slice_group, slice_before, slice_after_all, app_nil_r, strip_idempotent.
  f_equal. f_equal. f_equal. unfold pre, strip at 1.
  rewrite strip_idempotent_l. fold (strip (reply ++ [32%N])).
  apply (strip_padding [] reply [32%N]); repeat constructor.
Qed.

Lemma parse_emotion_tag_tagged_reply_witness :
  parse_emotion_tag sample_Nd sample_db
    (lit " [sigh] I was at home. " ++ lit " [" ++ lit " angry" ++ lit "]") 1
  = Return (image_of sample_character (strip (lit " angry")),
            strip (lit " [sigh] I was at home. "), strip (lit " angry")).
Proof.
  apply (parse_emotion_tag_tagged_reply sample_Nd sample_db
           (lit " [sigh] I was at home. ") (lit " angry") 1 sample_character).
  - reflexivity.
  - apply (bool_decide_unpack _). vm_compute. exact I.
  - apply (bool_decide_unpack _). vm_compute. exact I.
  - change (lit " [sigh] I was at home. ")
      with (32%N :: LBRACKET :: lit "sigh] I was at home. ").
    apply closed_cons_other; [discriminate|].
    apply closed_cons_bracket; [apply (bool_decide_unpack _); vm_compute; exact I|].
    apply closed_without_bracket. apply (bool_decide_unpack _). vm_compute. exact I.
  - discriminate.
  - apply (bool_decide_unpack _). vm_compute. exact I.
Defined.
(** ** More on the game state: pages by index *)

Lemma numbered_lookup cs : forall k i pg,
  numbered k cs !! i = Some pg ->
  exists c, cs !! i = Some c /\ pg = page (PInt (k + Z.of_nat i)) c.
Proof.
  induction cs as [|c cs IH]; intros k i pg H; [discriminate|].
  destruct i as [|i]; cbn [numbered] in H.
  - injection H as <-. exists c. split; [reflexivity|]. now rewrite Z.add_0_r.
  - destruct (IH _ _ _ H) as (c' & Hc & ->). exists c'. split; [exact Hc|].
    do 2 f_equal. lia.
Qed.

Lemma well_formed_shape s :
  well_formed s ->
  exists cs d c,
    notebook_pages s = PList (numbered 1 cs ++ [page d c])
    /\ current_day s = d
    /\ (d = PInt (Z.of_nat (S (length cs))) \/ d = FINAL)
    /\ get_current_page s = Return (InNotebook (length cs), page d c).
Proof.
  intros H.
  destruct (well_formed_cases s H) as [(cs & c & Hp & Hd)|(contents & f & Hne & Hp & Hd)].
  - exists cs, (PInt (Z.of_nat (S (length cs)))), c.
    destruct (get_current_numbered cs c s Hp Hd) as [_ Hget]. auto.
  - exists contents, FINAL, f.
    destruct (get_current_final contents f s Hp Hd) as [_ Hget]. auto.
Qed.

Lemma total_pages_list s pages :
  notebook_pages s = PList pages ->
  get_total_pages s = Return (Z.of_nat (length pages)).
Proof. intros H. unfold get_total_pages. now rewrite H. Qed.

Lemma page_by_index_inside s pages i pg :
  notebook_pages s = PList pages -> pages !! i = Some pg ->
  get_page_by_index (Z.of_nat i) s = Return (InNotebook i, pg).
Proof.
  intros Hp Hi. unfold get_page_by_index.
  destruct (Z.leb_spec 0 (Z.of_nat i)) as [_|]; [|lia].
  rewrite Hp. cbn [py_len bind].
  pose proof (lookup_lt_Some _ _ _ Hi) as Hlt.
  destruct (Z.ltb_spec (Z.of_nat i) (Z.of_nat (length pages))) as [_|]; [|lia].
  unfold getitem_int. cbv zeta.
  destruct (Z.ltb_spec (Z.of_nat i) 0) as [|_]; [lia|].
  destruct (Z.ltb_spec (Z.of_nat i) 0) as [|_]; [lia|].
  now rewrite Nat2Z.id, Hi.
Qed.

Lemma page_by_index_outside s pages i :
  notebook_pages s = PList pages ->
  (i < 0 \/ Z.of_nat (length pages) <= i)%Z ->
  get_page_by_index i s = Return (Fresh, blank_page (PInt 1)).
Proof.
  intros Hp Hi. unfold get_page_by_index.
  destruct (Z.leb_spec 0 i) as [Hle|]; [|reflexivity].
  rewrite Hp. cbn [py_len bind].
  destruct (Z.ltb_spec i (Z.of_nat (length pages))) as [|_]; [lia|reflexivity].
Qed.

(** X5: in every state the methods of [GameState] reach, the notebook has
    at least one page, page [i] is the page of day [i+1] (the last page
    may be the Final page instead), and an index outside the notebook,
    negative ones included, gets a blank page of day 1 that is not part of
    the notebook. *)
Theorem pages_in_day_order s :
  reachable s ->
  exists n : nat,
    get_total_pages s = Return (Z.of_nat n) /\ 1 <= n
    /\ (forall i, i < n ->
          exists d c,
            get_page_by_index (Z.of_nat i) s = Return (InNotebook i, page d c)
            /\ (d = PInt (Z.of_nat (S i)) \/ (d = FINAL /\ S i = n)))
    /\ (forall i, (i < 0 \/ Z.of_nat n <= i)%Z ->
          get_page_by_index i s = Return (Fresh, blank_page (PInt 1))).
Proof.
  intros Hr. apply reachable_well_formed in Hr.
  destruct (well_formed_shape s Hr) as (cs & d & c & Hp & Hd & Hday & _).
  exists (length (numbered 1 cs ++ [page d c])).
  split; [exact (total_pages_list _ _ Hp)|].
  rewrite length_app, numbered_length. cbn [length].
  split; [lia|]. split.
  - intros i Hi.
    destruct (decide (i < length cs)) as [Hlt|Hge].
    + destruct (lookup_lt_is_Some_2 (numbered 1 cs) i) as [pg Hpg];
        [now rewrite numbered_length|].
      destruct (numbered_lookup _ _ _ _ Hpg) as (ci & _ & ->).
      exists (PInt (1 + Z.of_nat i)), ci. split.
      * apply (page_by_index_inside s _ i _ Hp).
        now rewrite lookup_app_l by (now rewrite numbered_length).
      * left. f_equal. lia.
    + assert (i = length cs) as -> by lia.
      exists d, c. split.
      * apply (page_by_index_inside s _ _ _ Hp).
        rewrite lookup_app_r by (now rewrite numbered_length).
        now rewrite numbered_length, Nat.sub_diag.
      * destruct Hday as [->| ->]; [left; reflexivity|right; split; [reflexivity|lia]].
  - intros i Hi. apply (page_by_index_outside s _ i Hp).
    rewrite length_app, numbered_length. cbn [length]. lia.
Qed.

Lemma pages_in_day_order_witness :
  exists n : nat,
    get_total_pages (fst (create_final_page (fst (advance_day init))))
    = Return (Z.of_nat n) /\ 1 <= n
    /\ (forall i, i < n ->
          exists d c,
            get_page_by_index (Z.of_nat i) (fst (create_final_page (fst (advance_day init))))
            = Return (InNotebook i, page d c)
            /\ (d = PInt (Z.of_nat (S i)) \/ (d = FINAL /\ S i = n)))
    /\ (forall i, (i < 0 \/ Z.of_nat n <= i)%Z ->
          get_page_by_index i (fst (create_final_page (fst (advance_day init))))
          = Return (Fresh, blank_page (PInt 1))).
Proof.
  apply (pages_in_day_order (fst (create_final_page (fst (advance_day init))))).
  apply reach_final, reach_advance, reach_init.
Defined.

(** X6: in every well-formed state, whatever its other attributes hold,
    the page [get_current_page] returns is the last page of the notebook,
    the one [get_page_by_index] returns for the index
    [get_total_pages() - 1], and its day is the current day. *)
Theorem current_page_is_last s :
  well_formed s ->
  exists (n : nat) c,
    get_total_pages s = Return (Z.of_nat (S n))
    /\ get_current_page s = Return (InNotebook n, page (current_day s) c)
    /\ get_page_by_index (Z.of_nat (S n) - 1) s
       = Return (InNotebook n, page (current_day s) c).
Proof.
  intros Hr.
  destruct (well_formed_shape s Hr) as (cs & d & c & Hp & Hd & Hday & Hget).
  exists (length cs), c. rewrite Hd. split; [|split; [exact Hget|]].
  - rewrite (total_pages_list _ _ Hp), length_app, numbered_length. cbn [length].
    do 2 f_equal. lia.
  - replace (Z.of_nat (S (length cs)) - 1)%Z with (Z.of_nat (length cs)) by lia.
    apply (page_by_index_inside s _ _ _ Hp).
    rewrite lookup_app_r by (now rewrite numbered_length).
    now rewrite numbered_length, Nat.sub_diag.
Qed.

Lemma current_page_is_last_witness :
  exists (n : nat) c,
    get_total_pages accusing_state = Return (Z.of_nat (S n))
    /\ get_current_page accusing_state
       = Return (InNotebook n, page (current_day accusing_state) c)
    /\ get_page_by_index (Z.of_nat (S n) - 1) accusing_state
       = Return (InNotebook n, page (current_day accusing_state) c).
Proof.
  apply (current_page_is_last accusing_state).
  exists [[]; []], (Some []). split; [discriminate|]. split; reflexivity.
Defined.

Lemma get_current_shape cs d c s :
  notebook_pages s = PList (numbered 1 cs ++ [page d c]) ->
  current_day s = d ->
  d = PInt (Z.of_nat (S (length cs))) \/ d = FINAL ->
  get_current_page s = Return (InNotebook (length cs), page d c).
Proof.
  intros Hp Hd [->| ->].
  - now destruct (get_current_numbered cs c s Hp Hd).
  - now destruct (get_current_final cs c s Hp Hd).
Qed.

Lemma page_by_index_insert s s' pages n x i :
  notebook_pages s = PList pages ->
  notebook_pages s' = PList (<[n := x]> pages) ->
  i <> Z.of_nat n ->
  get_page_by_index i s' = get_page_by_index i s.
Proof.
  intros Hp Hp' Hi. unfold get_page_by_index.
  destruct (Z.leb_spec 0 i) as [Hle|]; [|reflexivity].
  rewrite Hp, Hp'. cbn [py_len bind]. rewrite length_insert.
  destruct (Z.ltb_spec i (Z.of_nat (length pages))) as [Hlt|]; [|reflexivity].
  unfold getitem_int. cbv zeta. rewrite length_insert.
  destruct (Z.ltb_spec i 0) as [|_]; [lia|].
  destruct (Z.ltb_spec i 0) as [|_]; [lia|].
  rewrite list_lookup_insert_ne by lia. reflexivity.
Qed.

Lemma page_by_index_app s s' pages extra i :
  notebook_pages s = PList pages ->
  notebook_pages s' = PList (pages ++ extra) ->
  (i < Z.of_nat (length pages))%Z ->
  get_page_by_index i s' = get_page_by_index i s.
Proof.
  intros Hp Hp' Hi. unfold get_page_by_index.
  destruct (Z.leb_spec 0 i) as [Hle|]; [|reflexivity].
  rewrite Hp, Hp'. cbn [py_len bind]. rewrite length_app.
  destruct (Z.ltb_spec i (Z.of_nat (length pages))) as [_|]; [|lia].
  destruct (Z.ltb_spec i (Z.of_nat (length pages + length extra))) as [_|]; [|lia].
  unfold getitem_int. cbv zeta.
  destruct (Z.ltb_spec i 0) as [|_]; [lia|].
  destruct (Z.ltb_spec i 0) as [|_]; [lia|].
  rewrite lookup_app_l by lia. reflexivity.
Qed.

Lemma insert_last {A} (l : list A) (x y : A) :
  <[length l := y]> (l ++ [x]) = l ++ [y].
Proof.
  rewrite <- (Nat.add_0_r (length l)), insert_app_r. reflexivity.
Qed.

(** X7: in a well-formed state, whatever its other attributes hold,
    [update_current_page] returns, and what it
    wrote is what [get_current_page] then reads: the same page with the
    new content.  The day, the number of pages and every other page stay
    as they were. *)
Theorem update_then_get content s :
  well_formed s ->
  exists (n : nat) c,
    get_current_page s = Return (InNotebook n, page (current_day s) c)
    /\ snd (update_current_page content s) = Return tt
    /\ get_current_page (fst (update_current_page content s))
       = Return (InNotebook n, page (current_day s) content)
    /\ current_day (fst (update_current_page content s)) = current_day s
    /\ get_total_pages (fst (update_current_page content s)) = get_total_pages s
    /\ (forall i, i <> Z.of_nat n ->
          get_page_by_index i (fst (update_current_page content s))
          = get_page_by_index i s).
Proof.
  intros Hr.
  destruct (well_formed_shape s Hr) as (cs & d & c & Hp & Hd & Hday & Hget).
  exists (length cs), c. rewrite Hd. split; [exact Hget|].
  unfold update_current_page. rewrite Hget, page_set_content, Hp.
  cbn [fst snd]. split; [reflexivity|].
  rewrite <- (numbered_length 1 cs) at 1 2 3 4. rewrite insert_last.
  rewrite numbered_length.
  split; [|split; [exact Hd|split]].
  - apply get_current_shape; [reflexivity|exact Hd|exact Hday].
  - unfold get_total_pages. cbn [set_notebook_pages notebook_pages]. rewrite Hp.
    cbn [py_len]. now rewrite !length_app.
  - intros i Hi.
    apply (page_by_index_insert s _ _ (length cs) (page d content) i Hp); [|exact Hi].
    cbn [set_notebook_pages notebook_pages].
    reflexivity.
Qed.

Lemma update_then_get_witness :
  exists (n : nat) c,
    get_current_page sample_state
    = Return (InNotebook n, page (current_day sample_state) c)
    /\ snd (update_current_page (lit "the nun lied") sample_state) = Return tt
    /\ get_current_page (fst (update_current_page (lit "the nun lied") sample_state))
       = Return (InNotebook n, page (current_day sample_state) (lit "the nun lied"))
    /\ current_day (fst (update_current_page (lit "the nun lied") sample_state))
       = current_day sample_state
    /\ get_total_pages (fst (update_current_page (lit "the nun lied") sample_state))
       = get_total_pages sample_state
    /\ (forall i, i <> Z.of_nat n ->
          get_page_by_index i (fst (update_current_page (lit "the nun lied") sample_state))
          = get_page_by_index i sample_state).
Proof.
  apply (update_then_get (lit "the nun lied") sample_state).
  exists [[]; []], None. split; [discriminate|]. split; reflexivity.
Defined.

Lemma has_final_app l : forall r,
  has_final_page l = Return false -> has_final_page (l ++ r) = has_final_page r.
Proof.
  induction l as [|p l IH]; intros r H; [reflexivity|].
  cbn [has_final_page app] in *.
  destruct (getitem p (lit "day")) as [d|e]; cbn [bind] in *; [|discriminate].
  destruct (py_eq d FINAL); [discriminate|]. now apply IH.
Qed.

(** X8: [create_final_page] called a second time does what the first call
    did and nothing more, in every state: the state stays as the first
    call left it and the outcome is the same, whether the first call added
    the Final page, found one, or raised. *)
Theorem create_final_page_idempotent s :
  create_final_page (fst (create_final_page s)) = create_final_page s.
Proof.
  unfold create_final_page at 2 3.
  destruct (notebook_pages s) as [| | |t|l|kv] eqn:Hp; cbn [iterate bind];
    try (cbn [fst]; unfold create_final_page; rewrite Hp; reflexivity).
  - destruct (has_final_page (map (fun c => PStr [c]) t)) as [[|]|e] eqn:Hf;
      cbn [list_append fst]; unfold create_final_page; rewrite Hp;
      cbn [iterate bind]; rewrite Hf; reflexivity.
  - destruct (has_final_page l) as [[|]|e] eqn:Hf; cbn [list_append fst].
    + unfold create_final_page. rewrite Hp. cbn [iterate bind]. now rewrite Hf.
    + unfold create_final_page.
      cbn [set_current_day set_notebook_pages notebook_pages iterate bind].
      rewrite (has_final_app l _ Hf).
      reflexivity.
    + unfold create_final_page. rewrite Hp. cbn [iterate bind]. now rewrite Hf.
  - destruct (has_final_page (map (fun p => PStr p.1) kv)) as [[|]|e] eqn:Hf;
      cbn [list_append fst]; unfold create_final_page; rewrite Hp;
      cbn [iterate bind]; rewrite Hf; reflexivity.
Qed.
(** X9: in a well-formed state whose day is not Final, whatever its
    other attributes hold, the day number is the number of pages; [advance_day] returns the next day, makes it the
    current day and appends its blank page, which is then the current
    page.  Every page the notebook had is still there, unchanged. *)
Theorem advance_day_new_page s :
  well_formed s -> current_day s <> FINAL ->
  exists n : nat,
    current_day s = PInt (Z.of_nat n)
    /\ get_total_pages s = Return (Z.of_nat n)
    /\ snd (advance_day s) = Return (PInt (Z.of_nat n + 1))
    /\ current_day (fst (advance_day s)) = PInt (Z.of_nat n + 1)
    /\ get_total_pages (fst (advance_day s)) = Return (Z.of_nat n + 1)%Z
    /\ get_current_page (fst (advance_day s))
       = Return (InNotebook n, blank_page (PInt (Z.of_nat n + 1)))
    /\ (forall i, (i < Z.of_nat n)%Z ->
          get_page_by_index i (fst (advance_day s)) = get_page_by_index i s).
Proof.
  intros Hr Hnf.
  destruct (well_formed_cases s Hr) as [(cs & c & Hp & Hd)|(contents & f & Hne & Hp & Hd)];
    [|contradiction].
  assert (Hlen : length (numbered 1 cs ++ [page (PInt (Z.of_nat (S (length cs)))) c])
                 = S (length cs)).
  { rewrite length_app, numbered_length. cbn [length]. lia. }
  exists (S (length cs)). split; [exact Hd|].
  split; [now rewrite (total_pages_list _ _ Hp), Hlen|].
  rewrite (advance_day_numbered cs c s Hp Hd). cbn [fst snd].
  split; [reflexivity|]. split; [reflexivity|]. split; [|split].
  - unfold get_total_pages. cbn [set_notebook_pages notebook_pages py_len].
    rewrite length_app, Hlen. cbn [length]. f_equal. lia.
  - set (day := PInt (Z.of_nat (S (length cs)) + 1)).
    rewrite blank_is_page.
    pose proof (get_current_shape (cs ++ [c]) day []
                  (set_notebook_pages
                     (PList ((numbered 1 cs ++ [page (PInt (Z.of_nat (S (length cs)))) c])
                             ++ [page day []]))
                     (set_current_day day s))) as Hget.
    rewrite length_app in Hget. cbn [length] in Hget.
    replace (length cs + 1) with (S (length cs)) in Hget by lia.
    apply Hget.
    + cbn [set_notebook_pages notebook_pages]. rewrite numbered_app.
      cbn [numbered]. same_days.
    + reflexivity.
    + left. unfold day. f_equal. lia.
  - intros i Hi.
    apply (page_by_index_app s _ _ [blank_page (PInt (Z.of_nat (S (length cs)) + 1))] i Hp);
      [reflexivity|]. rewrite Hlen. exact Hi.
Qed.

Lemma advance_day_new_page_witness :
  exists n : nat,
    current_day sample_state = PInt (Z.of_nat n)
    /\ get_total_pages sample_state = Return (Z.of_nat n)
    /\ snd (advance_day sample_state) = Return (PInt (Z.of_nat n + 1))
    /\ current_day (fst (advance_day sample_state)) = PInt (Z.of_nat n + 1)
    /\ get_total_pages (fst (advance_day sample_state)) = Return (Z.of_nat n + 1)%Z
    /\ get_current_page (fst (advance_day sample_state))
       = Return (InNotebook n, blank_page (PInt (Z.of_nat n + 1)))
    /\ (forall i, (i < Z.of_nat n)%Z ->
          get_page_by_index i (fst (advance_day sample_state)) = get_page_by_index i sample_state).
Proof.
  apply (advance_day_new_page sample_state); [|discriminate].
  exists [[]; []], None. split; [discriminate|]. split; reflexivity.
Defined.

(** X10: in a well-formed state whose day is not Final, whatever its
    other attributes hold, [create_final_page] returns, appends the blank Final page and makes Final the current
    day: the Final page is the current page, and every page the notebook
    had is still there, unchanged. *)
Theorem create_final_page_new_page s :
  well_formed s -> current_day s <> FINAL ->
  exists n : nat,
    get_total_pages s = Return (Z.of_nat n)
    /\ snd (create_final_page s) = Return tt
    /\ current_day (fst (create_final_page s)) = FINAL
    /\ get_total_pages (fst (create_final_page s)) = Return (Z.of_nat n + 1)%Z
    /\ get_current_page (fst (create_final_page s))
       = Return (InNotebook n, blank_page FINAL)
    /\ (forall i, (i < Z.of_nat n)%Z ->
          get_page_by_index i (fst (create_final_page s)) = get_page_by_index i s).
Proof.
  intros Hr Hnf.
  destruct (well_formed_cases s Hr) as [(cs & c & Hp & Hd)|(contents & f & Hne & Hp & Hd)];
    [|contradiction].
  assert (Hlen : length (numbered 1 cs ++ [page (PInt (Z.of_nat (S (length cs)))) c])
                 = S (length cs)).
  { rewrite length_app, numbered_length. cbn [length]. lia. }
  exists (S (length cs)).
  split; [now rewrite (total_pages_list _ _ Hp), Hlen|].
  rewrite (create_final_numbered cs c s Hp). cbn [fst snd].
  split; [reflexivity|]. split; [reflexivity|]. split; [|split].
  - unfold get_total_pages. cbn [set_current_day set_notebook_pages notebook_pages py_len].
    rewrite length_app, Hlen. cbn [length]. f_equal. lia.
  - rewrite blank_is_page.
    pose proof (get_current_shape (cs ++ [c]) FINAL []
                  (set_current_day FINAL
                     (set_notebook_pages
                        (PList ((numbered 1 cs ++ [page (PInt (Z.of_nat (S (length cs)))) c])
                                ++ [page FINAL []])) s))) as Hget.
    rewrite length_app in Hget. cbn [length] in Hget.
    replace (length cs + 1) with (S (length cs)) in Hget by lia.
    apply Hget.
    + cbn [set_current_day set_notebook_pages notebook_pages]. rewrite numbered_app.
      cbn [numbered]. same_days.
    + reflexivity.
    + now right.
  - intros i Hi.
    apply (page_by_index_app s _ _ [blank_page FINAL] i Hp); [reflexivity|].
    rewrite Hlen. exact Hi.
Qed.

Lemma create_final_page_new_page_witness :
  exists n : nat,
    get_total_pages sample_state = Return (Z.of_nat n)
    /\ snd (create_final_page sample_state) = Return tt
    /\ current_day (fst (create_final_page sample_state)) = FINAL
    /\ get_total_pages (fst (create_final_page sample_state))
       = Return (Z.of_nat n + 1)%Z
    /\ get_current_page (fst (create_final_page sample_state))
       = Return (InNotebook n, blank_page FINAL)
    /\ (forall i, (i < Z.of_nat n)%Z ->
          get_page_by_index i (fst (create_final_page sample_state))
          = get_page_by_index i sample_state).
Proof.
  apply (create_final_page_new_page sample_state); [|discriminate].
  exists [[]; []], None. split; [discriminate|]. split; reflexivity.
Defined.

Lemma advance_day_save_file s : save_file (fst (advance_day s)) = save_file s.
Proof.
  unfold advance_day. destruct (add_one (current_day s)); [|reflexivity].
  destruct (list_append _ _); reflexivity.
Qed.

Lemma create_final_save_file s : save_file (fst (create_final_page s)) = save_file s.
Proof.
  unfold create_final_page.
  destruct (let* pages := iterate (notebook_pages s) in has_final_page pages)
    as [[|]|e]; try reflexivity.
  destruct (list_append _ _); reflexivity.
Qed.

Lemma update_save_file content s :
  save_file (fst (update_current_page content s)) = save_file s.
Proof.
  unfold update_current_page. destruct (get_current_page s) as [[ref pg]|e]; [|reflexivity].
  destruct (setitem _ _ _); [|reflexivity].
  destruct ref; [|reflexivity]. destruct (notebook_pages s); reflexivity.
Qed.

Lemma reachable_save_file s : reachable s -> save_file s = save_file init.
Proof.
  induction 1 as [|s _ IH|s _ IH|s _ IH|s content _ IH]; [reflexivity|exact IH|..].
  - now rewrite advance_day_save_file.
  - now rewrite create_final_save_file.
  - now rewrite update_save_file.
Qed.

(** X11: a state that keeps its save file under the name [__init__] gave
    it, saved to a file that can be written and loaded into a new
    [GameState] as the game does when it starts, gives a state with the
    same notebook, whatever the state holds: [load] answers True, the
    current day, the current page, the number of pages and the page at
    every index are those of the state that was saved, and the loaded
    state is well formed when the saved one was. *)
Theorem reload_keeps_notebook s fs :
  save_file s = save_file init ->
  snd (load init (save s WriteOk fs)) = true
  /\ current_day (fst (load init (save s WriteOk fs))) = current_day s
  /\ get_current_page (fst (load init (save s WriteOk fs))) = get_current_page s
  /\ get_total_pages (fst (load init (save s WriteOk fs))) = get_total_pages s
  /\ (forall i, get_page_by_index i (fst (load init (save s WriteOk fs)))
                = get_page_by_index i s)
  /\ (well_formed s -> well_formed (fst (load init (save s WriteOk fs)))).
Proof.
  intros Hfile. rewrite (save_then_load s fs Hfile). cbn [fst snd].
  repeat split.
  intros (contents & final & Hne & Hp & Hd).
  exists contents, final. auto.
Qed.

Lemma reload_keeps_notebook_witness :
  snd (load init (save accusing_state WriteOk empty_disk)) = true
  /\ current_day (fst (load init (save accusing_state WriteOk empty_disk)))
     = current_day accusing_state
  /\ get_current_page (fst (load init (save accusing_state WriteOk empty_disk)))
     = get_current_page accusing_state
  /\ get_total_pages (fst (load init (save accusing_state WriteOk empty_disk)))
     = get_total_pages accusing_state
  /\ (forall i, get_page_by_index i
                  (fst (load init (save accusing_state WriteOk empty_disk)))
                = get_page_by_index i accusing_state)
  /\ (well_formed accusing_state
      -> well_formed (fst (load init (save accusing_state WriteOk empty_disk)))).
Proof.
  apply (reload_keeps_notebook accusing_state empty_disk). reflexivity.
Defined.
(** ** The notebook panel *)

Lemma split_on_cons sep s : exists l ls, split_on sep s = l :: ls.
Proof.
  induction s as [|c s (l & ls & IH)]; simpl; [eauto|].
  destruct (c =? sep)%N; [eauto|]. rewrite IH. eauto.
Qed.

Lemma join_more sep (p q : pystr) r : join sep (p :: q :: r) = p ++ sep ++ join sep (q :: r).
Proof. reflexivity. Qed.

Lemma join_split sep s : join [sep] (split_on sep s) = s.
Proof.
  induction s as [|c s IH]; [reflexivity|].
  cbn [split_on]. destruct (split_on_cons sep s) as (l & ls & E). rewrite E in *.
  destruct (N.eqb_spec c sep) as [->|Hc].
  - rewrite join_more, IH. reflexivity.
  - destruct ls as [|l' ls].
    + cbn [join] in *. now rewrite IH.
    + rewrite join_more in *. now rewrite <- IH.
Qed.

Lemma page_content d c : dict_get (page d c) (lit "content") (PStr []) = Return (PStr c).
Proof. reflexivity. Qed.

Lemma page_get_day d c : dict_get (page d c) (lit "day") PNone = Return d.
Proof. reflexivity. Qed.

Lemma page_truthy d c : truthy (page d c) = true.
Proof. reflexivity. Qed.

(** The pages of a well-formed state, as the panel looks at them: each is
    a page dict, and the only page of the current day or of the day Final
    is the last. *)
Lemma well_formed_view s :
  well_formed s ->
  exists pages,
    notebook_pages s = PList pages /\ pages <> []
    /\ forall i pg, pages !! i = Some pg ->
         exists d c, pg = page d c
           /\ py_eq d (current_day s) || py_eq d FINAL = (S i =? length pages).
Proof.
  intros H. destruct (well_formed_shape s H) as (cs & d & c & Hp & Hd & Hday & _).
  exists (numbered 1 cs ++ [page d c]). split; [exact Hp|].
  split; [destruct (numbered 1 cs); discriminate|].
  intros i pg Hi. rewrite length_app, numbered_length. cbn [length].
  destruct (decide (i < length cs)) as [Hlt|Hge].
  - rewrite lookup_app_l in Hi by (now rewrite numbered_length).
    destruct (numbered_lookup _ _ _ _ Hi) as (ci & _ & ->).
    exists (PInt (1 + Z.of_nat i)), ci. split; [reflexivity|].
    rewrite Hd. destruct (Nat.eqb_spec (S i) (length cs + 1)) as [|_]; [lia|].
    destruct Hday as [->| ->]; [|reflexivity].
    rewrite int_eq_int, int_is_not_final, orb_false_r. apply Z.eqb_neq. lia.
  - pose proof (lookup_lt_Some _ _ _ Hi) as Hlt.
    rewrite length_app, numbered_length in Hlt. cbn [length] in Hlt.
    assert (i = length cs) as -> by lia.
    rewrite lookup_app_r in Hi by (now rewrite numbered_length).
    rewrite numbered_length, Nat.sub_diag in Hi. injection Hi as <-.
    exists d, c. split; [reflexivity|]. rewrite Hd.
    destruct (Nat.eqb_spec (S (length cs)) (length cs + 1)) as [_|]; [|lia].
    destruct Hday as [->| ->]; [|reflexivity].
    now rewrite int_eq_int, Z.eqb_refl.
Qed.
Lemma page_by_index_at s pages i pg :
  notebook_pages s = PList pages -> (0 <= i)%Z -> pages !! Z.to_nat i = Some pg ->
  get_page_by_index i s = Return (InNotebook (Z.to_nat i), pg).
Proof.
  intros Hp Hi Hpg. rewrite <- (Z2Nat.id i) at 1 by exact Hi.
  now apply (page_by_index_inside s pages).
Qed.

Ltac run_method :=
  repeat unfold mbind, on_state, panel_field, try_, assign, mret, is_today;
  cbn [fst snd].

Ltac page_facts :=
  repeat (rewrite ?page_get_day, ?page_content, ?page_truthy; cbn [fst snd]).

Lemma join_lines_of c : join [NEWLINE] (lines_of c) = c.
Proof. destruct c; [reflexivity|apply join_split]. Qed.

Lemma load_spread_spec s p pages :
  well_formed s -> notebook_pages s = PList pages ->
  exists side lines,
    _load_current_spread (p, s)
    = ((loaded_panel (current_spread_index p) side lines, s), Return tt)
    /\ side = (if (current_spread_index p * 2 + 1 =? Z.of_nat (length pages) - 1)%Z
               then 1 else 0)%Z
    /\ (forall pg,
          pages !! Z.to_nat (if (side =? 0)%Z then current_spread_index p * 2
                             else current_spread_index p * 2 + 1)%Z = Some pg ->
          (0 <= current_spread_index p)%Z ->
          exists d c, pg = page d c /\ lines = lines_of c).
Proof.
  intros Hwf Hp.
  destruct (well_formed_view s Hwf) as (pages' & Hp' & Hne & Hview).
  rewrite Hp in Hp'. injection Hp' as <-.
  pose proof (total_pages_list s pages Hp) as Htotal.
  set (k := current_spread_index p).
  set (n := Z.of_nat (length pages)).
  assert (Hn : (1 <= n)%Z) by (subst n; destruct pages; [contradiction|cbn [length]; lia]).
  unfold _load_current_spread, page_or_none, _get_right_page_index, _get_left_page_index.
  run_method. rewrite Htotal. cbn [fst snd]. fold k n.
  destruct (Z.ltb_spec (k * 2) n) as [Hr|Hr]; cbn [fst snd].
  - destruct (Z.ltb_spec k 0) as [Hk|Hk].
    + (* a spread before the first: both sides are the blank page *)
      rewrite (page_by_index_outside s pages (k * 2) Hp) by lia.
      destruct (Z.ltb_spec (k * 2 + 1) n) as [_|]; [|lia]. cbn [fst snd].
      rewrite (page_by_index_outside s pages (k * 2 + 1) Hp) by lia.
      cbn [fst snd]. rewrite blank_is_page. page_facts.
      destruct (Z.eqb_spec (k * 2 + 1) (n - 1)) as [|_]; [lia|].
      exists 0%Z, [[]].
      split; [|split; [reflexivity|intros pg _ Hk0; lia]].
      destruct (py_eq (PInt 1) (current_day s) || py_eq (PInt 1) FINAL) eqn:E;
        cbn [fst snd]; rewrite ?E; reflexivity.
    + (* the right page is in the notebook *)
      destruct (lookup_lt_is_Some_2 pages (Z.to_nat (k * 2))) as [pgr Hpgr]; [lia|].
      destruct (Hview _ _ Hpgr) as (dr & cr & -> & Hdr).
      rewrite (page_by_index_at s pages (k * 2) _ Hp ltac:(lia) Hpgr). cbn [fst snd].
      destruct (Z.ltb_spec (k * 2 + 1) n) as [Hl|Hl]; cbn [fst snd].
      * destruct (lookup_lt_is_Some_2 pages (Z.to_nat (k * 2 + 1))) as [pgl Hpgl]; [lia|].
        destruct (Hview _ _ Hpgl) as (dl & cl & -> & Hdl).
        rewrite (page_by_index_at s pages (k * 2 + 1) _ Hp ltac:(lia) Hpgl).
        cbn [fst snd]. page_facts. rewrite Hdl.
        destruct (Nat.eqb_spec (S (Z.to_nat (k * 2))) (length pages)) as [|_]; [lia|].
        destruct (Nat.eqb_spec (S (Z.to_nat (k * 2 + 1))) (length pages)) as [El|El];
          cbn [fst snd]; page_facts.
        -- rewrite Hdr; cbn [fst snd]; page_facts.
           destruct (Z.eqb_spec (k * 2 + 1) (n - 1)) as [_|]; [|lia].
           exists 1%Z, (lines_of cl).
           split; [destruct cl; reflexivity|]. split; [reflexivity|].
           intros pg Hpg _. cbn [Z.eqb] in Hpg. rewrite Hpgl in Hpg. injection Hpg as <-.
           now exists dl, cl.
        -- rewrite Hdr; cbn [fst snd]; page_facts.
           destruct (Z.eqb_spec (k * 2 + 1) (n - 1)) as [|_]; [lia|].
           exists 0%Z, (lines_of cr).
           split; [destruct cr; reflexivity|]. split; [reflexivity|].
           intros pg Hpg _. cbn [Z.eqb] in Hpg. rewrite Hpgr in Hpg. injection Hpg as <-.
           now exists dr, cr.
      * cbn [truthy fst snd]. page_facts. rewrite Hdr.
        destruct (Nat.eqb_spec (S (Z.to_nat (k * 2))) (length pages)) as [_|]; [|lia].
        cbn [fst snd]. page_facts.
        destruct (Z.eqb_spec (k * 2 + 1) (n - 1)) as [|_]; [lia|].
        exists 0%Z, (lines_of cr).
        split; [destruct cr; reflexivity|]. split; [reflexivity|].
        intros pg Hpg _. cbn [Z.eqb] in Hpg. rewrite Hpgr in Hpg. injection Hpg as <-.
        now exists dr, cr.
  - (* a spread after the last page: no page on either side *)
    destruct (Z.ltb_spec (k * 2 + 1) n) as [|_]; [lia|]. cbn [fst snd].
    destruct (Z.eqb_spec (k * 2 + 1) (n - 1)) as [|_]; [lia|].
    exists 0%Z, [[]]. split; [reflexivity|]. split; [reflexivity|].
    intros pg Hpg _. cbn [Z.eqb] in Hpg. apply lookup_lt_Some in Hpg. lia.
Qed.
Lemma set_same_pages s : set_notebook_pages (notebook_pages s) s = s.
Proof. now destruct s. Qed.

Lemma save_in_sync s p pages :
  notebook_pages s = PList pages ->
  (forall pg, (0 <= _get_active_page_index p)%Z ->
              pages !! Z.to_nat (_get_active_page_index p) = Some pg ->
              exists d, pg = page d (join [NEWLINE] (text_lines p))) ->
  in_sync p s.
Proof.
  intros Hp Hpg. unfold in_sync, _save_current_page. run_method.
  rewrite (total_pages_list s pages Hp).
  destruct (Z.ltb_spec (_get_active_page_index p) (Z.of_nat (length pages))) as [Hlt|];
    [|reflexivity]. cbn [fst snd].
  destruct (Z.ltb_spec (_get_active_page_index p) 0) as [Hneg|Hpos].
  - rewrite (page_by_index_outside s pages _ Hp) by lia. reflexivity.
  - destruct (lookup_lt_is_Some_2 pages (Z.to_nat (_get_active_page_index p)))
      as [pg Hi]; [lia|].
    destruct (Hpg pg Hpos Hi) as (d & ->).
    rewrite (page_by_index_at s pages _ _ Hp Hpos Hi). cbn [fst snd].
    unfold set_page_content. rewrite page_set_content. cbn [fst snd]. rewrite Hp.
    rewrite list_insert_id by exact Hi. rewrite <- Hp, set_same_pages. reflexivity.
Qed.

Lemma numbered_insert cs : forall k i x,
  <[i := page (PInt (k + Z.of_nat i)) x]> (numbered k cs) = numbered k (<[i := x]> cs).
Proof.
  induction cs as [|c cs IH]; intros k i x; [reflexivity|].
  destruct i as [|i]; cbn [numbered].
  - cbn. now rewrite Z.add_0_r.
  - replace (k + Z.of_nat (S i))%Z with ((k + 1) + Z.of_nat i)%Z by lia.
    cbn. f_equal. apply IH.
Qed.
Lemma well_formed_replace s pages i d c c' :
  well_formed s -> notebook_pages s = PList pages ->
  pages !! i = Some (page d c) ->
  well_formed (set_notebook_pages (PList (<[i := page d c']> pages)) s).
Proof.
  intros (contents & final & Hne & Hp & Hd) Hp' Hi.
  rewrite Hp in Hp'. injection Hp' as <-.
  destruct (decide (i < length contents)) as [Hlt|Hge].
  - rewrite lookup_app_l in Hi by (now rewrite numbered_length).
    destruct (numbered_lookup _ _ _ _ Hi) as (ci & Hci & E).
    injection E as -> _.
    exists (<[i := c']> contents), final.
    split; [intros E; apply (f_equal length) in E; rewrite length_insert in E;
            destruct contents; [contradiction|discriminate]|].
    cbn [set_notebook_pages notebook_pages current_day]. split.
    + rewrite insert_app_l by (now rewrite numbered_length).
      now rewrite numbered_insert.
    + rewrite Hd, length_insert. reflexivity.
  - pose proof (lookup_lt_Some _ _ _ Hi) as Hlt.
    rewrite lookup_app_r in Hi by (rewrite numbered_length; lia).
    rewrite numbered_length in Hi.
    destruct final as [f|]; [|now rewrite lookup_nil in Hi].
    rewrite length_app, numbered_length in Hlt. cbn [length] in Hlt.
    assert (i = length contents) as -> by lia.
    rewrite Nat.sub_diag in Hi. injection Hi as <- <-.
    exists contents, (Some c'). split; [exact Hne|].
    cbn [set_notebook_pages notebook_pages current_day]. split; [|exact Hd].
    rewrite <- (numbered_length 1 contents) at 1. now rewrite insert_last.
Qed.

(** What [_save_current_page] does to a well-formed state: it returns,
    leaves the panel alone, and the state is well formed after it, with
    the day and the number of pages it had; the panel is in sync then. *)
Lemma save_page_spec s p :
  well_formed s ->
  exists s1,
    _save_current_page (p, s) = ((p, s1), Return tt)
    /\ well_formed s1 /\ current_day s1 = current_day s
    /\ get_total_pages s1 = get_total_pages s
    /\ in_sync p s1.
Proof.
  intros Hwf.
  destruct (well_formed_view s Hwf) as (pages & Hp & Hne & Hview).
  pose proof (total_pages_list s pages Hp) as Htotal.
  unfold _save_current_page. run_method. rewrite Htotal.
  set (a := _get_active_page_index p).
  destruct (Z.ltb_spec a (Z.of_nat (length pages))) as [Hlt|Hge].
  - cbn [fst snd]. destruct (Z.ltb_spec a 0) as [Hneg|Hpos].
    + rewrite (page_by_index_outside s pages _ Hp) by lia. cbn [fst snd].
      exists s. split; [reflexivity|]. split; [exact Hwf|]. split; [reflexivity|].
      split; [exact Htotal|].
      apply (save_in_sync s p pages Hp). fold a. intros pg Ha. lia.
    + destruct (lookup_lt_is_Some_2 pages (Z.to_nat a)) as [pg Hi]; [lia|].
      destruct (Hview _ _ Hi) as (d & c & -> & _).
      rewrite (page_by_index_at s pages _ _ Hp Hpos Hi). cbn [fst snd].
      unfold set_page_content. rewrite page_set_content. cbn [fst snd]. rewrite Hp.
      eexists. split; [reflexivity|]. split; [|split; [reflexivity|split]].
      * exact (well_formed_replace s pages _ d c _ Hwf Hp Hi).
      * unfold get_total_pages. cbn [set_notebook_pages notebook_pages].
        cbn [py_len]. now rewrite length_insert.
      * apply (save_in_sync _ p (<[Z.to_nat a := page d (join [NEWLINE] (text_lines p))]> pages));
          [reflexivity|].
        fold a. intros pg _ Hpg.
        rewrite list_lookup_insert_eq in Hpg by lia. injection Hpg as <-. now exists d.
  - exists s. split; [reflexivity|]. split; [exact Hwf|]. split; [reflexivity|].
    split; [exact Htotal|].
    apply (save_in_sync s p pages Hp). fold a.
    intros pg _ Hpg. apply lookup_lt_Some in Hpg. lia.
Qed.

Lemma page_editable_spec s p pages i :
  well_formed s -> notebook_pages s = PList pages -> (0 <= i)%Z ->
  _is_page_editable i (p, s) = ((p, s), Return (i =? Z.of_nat (length pages) - 1)%Z).
Proof.
  intros Hwf Hp Hi.
  destruct (well_formed_view s Hwf) as (pages' & Hp' & Hne & Hview).
  rewrite Hp in Hp'. injection Hp' as <-.
  unfold _is_page_editable. run_method. rewrite (total_pages_list s pages Hp).
  destruct (Z.geb_spec i (Z.of_nat (length pages))) as [Hge|Hlt].
  - destruct (Z.eqb_spec i (Z.of_nat (length pages) - 1)); [lia|reflexivity].
  - cbn [fst snd].
    destruct (lookup_lt_is_Some_2 pages (Z.to_nat i)) as [pg Hpg]; [lia|].
    destruct (Hview _ _ Hpg) as (d & c & -> & Hd).
    rewrite (page_by_index_at s pages _ _ Hp Hi Hpg). cbn [fst snd].
    rewrite page_get_day. cbn [fst snd]. rewrite Hd. do 2 f_equal.
    destruct (Nat.eqb_spec (S (Z.to_nat i)) (length pages));
      destruct (Z.eqb_spec i (Z.of_nat (length pages) - 1)); (reflexivity || lia).
Qed.
Lemma load_spread_in_sync s p :
  well_formed s ->
  exists p1,
    _load_current_spread (p, s) = ((p1, s), Return tt)
    /\ current_spread_index p1 = current_spread_index p
    /\ in_sync p1 s.
Proof.
  intros Hwf.
  destruct (well_formed_view s Hwf) as (pages & Hp & _ & _).
  destruct (load_spread_spec s p pages Hwf Hp) as (side & lines & Hload & _ & Hpg).
  exists (loaded_panel (current_spread_index p) side lines).
  split; [exact Hload|]. split; [reflexivity|].
  apply (save_in_sync s _ pages Hp).
  unfold _get_active_page_index, _get_right_page_index, _get_left_page_index.
  cbn [loaded_panel active_side current_spread_index text_lines].
  intros pg Ha Hi. destruct (Hpg pg Hi) as (d & c & -> & ->);
    [|exists d; now rewrite join_lines_of].
  destruct (side =? 0)%Z; lia.
Qed.

(** X12: in a well-formed state, whatever its other attributes hold,
    [_load_current_spread] returns on every spread, leaves the game state as it is and puts the panel in sync with
    it: saving right after it writes nothing.  From a panel in sync,
    [go_to_spread_containing_page] turns to the spread of the page asked
    for and changes no page of the notebook. *)
Theorem page_turning_keeps_notes s :
  well_formed s ->
  (forall p, exists p1,
      _load_current_spread (p, s) = ((p1, s), Return tt)
      /\ current_spread_index p1 = current_spread_index p
      /\ in_sync p1 s)
  /\ (forall p page_index,
        in_sync p s ->
        exists p1,
          go_to_spread_containing_page page_index (p, s) = ((p1, s), Return tt)
          /\ current_spread_index p1 = (page_index / 2)%Z
          /\ in_sync p1 s).
Proof.
  intros Hr. split.
  - intros p. now apply load_spread_in_sync.
  - intros p page_index Hsync.
    destruct (load_spread_in_sync s (set_current_spread_index (page_index / 2) p) Hr)
      as (p1 & Hload & Hk & Hs).
    exists p1. split; [|split; [exact Hk|exact Hs]].
    unfold go_to_spread_containing_page, mbind. unfold in_sync in Hsync.
    rewrite Hsync. unfold assign. cbn [fst snd]. exact Hload.
Qed.

Lemma page_turning_keeps_notes_witness :
  exists p1,
    go_to_spread_containing_page 1 (sample_panel, sample_state)
    = ((p1, sample_state), Return tt)
    /\ current_spread_index p1 = (1 / 2)%Z
    /\ in_sync p1 (sample_state).
Proof.
  apply (proj2 (page_turning_keeps_notes sample_state sample_state_well_formed)).
  reflexivity.
Defined.

(** X13: in a well-formed state, whatever its other attributes hold,
    the only page of the notebook [_is_page_editable] calls editable is the last one, the page of the
    current day: for an index that is not negative it returns True for
    [get_total_pages() - 1] and False for every other. *)
Theorem only_current_page_editable s p i :
  well_formed s -> (0 <= i)%Z ->
  exists n : nat,
    get_total_pages s = Return (Z.of_nat n)
    /\ _is_page_editable i (p, s) = ((p, s), Return (i =? Z.of_nat n - 1)%Z).
Proof.
  intros Hr Hi.
  destruct (well_formed_view s Hr) as (pages & Hp & _ & _).
  exists (length pages). split; [exact (total_pages_list s pages Hp)|].
  now apply page_editable_spec.
Qed.

Lemma only_current_page_editable_witness :
  exists n : nat,
    get_total_pages sample_state = Return (Z.of_nat n)
    /\ _is_page_editable 0 (sample_panel, sample_state)
       = ((sample_panel, sample_state), Return (0 =? Z.of_nat n - 1)%Z).
Proof.
  apply (only_current_page_editable sample_state sample_panel 0).
  - apply sample_state_well_formed.
  - lia.
Defined.

(** X14: in a well-formed state, whatever its other attributes hold,
    [go_to_latest_page] returns, whatever the panel showed.  It saves the lines of the panel as
    [_save_current_page] does and then has the panel on the last page of
    the notebook: the active page is the current page, the lines of the
    panel are its content, it is editable, and the panel is in sync. *)
Theorem go_to_latest_page_shows_current s p :
  well_formed s ->
  exists p1 s1 (n : nat) c,
    go_to_latest_page (p, s) = ((p1, s1), Return tt)
    /\ _save_current_page (p, s) = ((p, s1), Return tt)
    /\ current_day s1 = current_day s
    /\ get_total_pages s1 = Return (Z.of_nat (S n))
    /\ _get_active_page_index p1 = Z.of_nat n
    /\ get_current_page s1 = Return (InNotebook n, page (current_day s) c)
    /\ join [NEWLINE] (text_lines p1) = c
    /\ _is_current_page_editable (p1, s1) = ((p1, s1), Return true)
    /\ in_sync p1 s1.
Proof.
  intros Hr.
  destruct (save_page_spec s p Hr) as (s1 & Hsave & Hwf1 & Hd1 & Ht1 & _).
  destruct (well_formed_shape s1 Hwf1) as (cs & d & c & Hp1 & Hday1 & _ & Hget1).
  set (pages1 := numbered 1 cs ++ [page d c]) in *.
  assert (Hlen : length pages1 = S (length cs)).
  { unfold pages1. rewrite length_app, numbered_length. cbn [length]. lia. }
  pose proof (total_pages_list s1 pages1 Hp1) as Htot1. rewrite Hlen in Htot1.
  assert (Htot : get_total_pages s = Return (Z.of_nat (S (length cs))))
    by (now rewrite <- Ht1).
  set (k := ((Z.of_nat (S (length cs)) - 1) / 2)%Z).
  destruct (load_spread_spec s1 (set_current_spread_index k p) pages1 Hwf1 Hp1)
    as (side & lines & Hload & Hside & Hpg).
  cbn [set_current_spread_index current_spread_index] in Hload, Hside, Hpg.
  rewrite Hlen in Hside.
  assert (Hk : (0 <= k)%Z) by (apply Z.div_pos; lia).
  assert (Hact : (if (side =? 0)%Z then k * 2 else k * 2 + 1)%Z = Z.of_nat (length cs)).
  { pose proof (Z.div_mod (Z.of_nat (S (length cs)) - 1)%Z 2%Z ltac:(lia)) as Hdm.
    pose proof (Z.mod_pos_bound (Z.of_nat (S (length cs)) - 1)%Z 2%Z ltac:(lia)) as Hm.
    fold k in Hdm. rewrite Hside.
    destruct (Z.eqb_spec (k * 2 + 1)%Z (Z.of_nat (S (length cs)) - 1)%Z); cbn [Z.eqb]; lia. }
  rewrite Hact in Hpg.
  destruct (Hpg (page d c)) as (d' & c' & E & Hlines); [|exact Hk|].
  { unfold pages1. rewrite Nat2Z.id, lookup_app_r by (now rewrite numbered_length).
    now rewrite numbered_length, Nat.sub_diag. }
  injection E as <- <-.
  assert (Hjoin : join [NEWLINE] lines = c) by (rewrite Hlines; apply join_lines_of).
  exists (loaded_panel k side lines), s1, (length cs), c.
  assert (Hidx : _get_active_page_index (loaded_panel k side lines) = Z.of_nat (length cs)).
  { unfold _get_active_page_index, _get_right_page_index, _get_left_page_index.
    cbn [loaded_panel active_side current_spread_index]. exact Hact. }
  split; [|split; [exact Hsave|split; [exact Hd1|split; [exact Htot1|split; [exact Hidx|]]]]].
  - unfold go_to_latest_page, mbind, on_state. cbn [fst snd]. rewrite Htot.
    destruct (Z.gtb_spec (Z.of_nat (S (length cs))) 0%Z) as [_|]; [|lia].
    unfold go_to_spread_containing_page, mbind. rewrite Hsave.
    unfold assign. cbn [fst snd]. fold k. exact Hload.
  - split; [now rewrite <- Hd1, Hday1|]. split; [exact Hjoin|]. split.
    + unfold _is_current_page_editable, mbind, panel_field. cbn [fst snd].
      rewrite Hidx, (page_editable_spec s1 _ pages1 _ Hwf1 Hp1) by lia.
      rewrite Hlen. do 2 f_equal. apply Z.eqb_eq. lia.
    + apply (save_in_sync s1 _ pages1 Hp1). rewrite Hidx, Nat2Z.id.
      intros pg _ Hi. unfold pages1 in Hi.
      rewrite lookup_app_r in Hi by (now rewrite numbered_length).
      rewrite numbered_length, Nat.sub_diag in Hi. injection Hi as <-.
      exists d. cbn [loaded_panel text_lines]. now rewrite Hjoin.
Qed.

Lemma go_to_latest_page_shows_current_witness :
  exists p1 s1 (n : nat) c,
    go_to_latest_page (sample_panel, sample_state) = ((p1, s1), Return tt)
    /\ _save_current_page (sample_panel, sample_state)
       = ((sample_panel, s1), Return tt)
    /\ current_day s1 = current_day sample_state
    /\ get_total_pages s1 = Return (Z.of_nat (S n))
    /\ _get_active_page_index p1 = Z.of_nat n
    /\ get_current_page s1
       = Return (InNotebook n, page (current_day sample_state) c)
    /\ join [NEWLINE] (text_lines p1) = c
    /\ _is_current_page_editable (p1, s1) = ((p1, s1), Return true)
    /\ in_sync p1 s1.
Proof.
  apply (go_to_latest_page_shows_current sample_state sample_panel).
  apply sample_state_well_formed.
Defined.
Lemma split_on_plain sep l : sep ∉ l -> split_on sep l = [l].
Proof.
  induction l as [|c l IH]; intros Hout; [reflexivity|].
  apply not_elem_of_cons in Hout as [Hc Hl]. cbn [split_on].
  destruct (N.eqb_spec c sep) as [->|_]; [contradiction|]. now rewrite (IH Hl).
Qed.

Lemma split_on_app sep l rest :
  sep ∉ l -> split_on sep (l ++ sep :: rest) = l :: split_on sep rest.
Proof.
  induction l as [|c l IH]; intros Hout.
  - cbn [app split_on]. now rewrite N.eqb_refl.
  - apply not_elem_of_cons in Hout as [Hc Hl]. cbn [app split_on].
    destruct (N.eqb_spec c sep) as [->|_]; [contradiction|]. now rewrite (IH Hl).
Qed.

Lemma split_join sep ls :
  ls <> [] -> Forall (fun l => sep ∉ l) ls -> split_on sep (join [sep] ls) = ls.
Proof.
  intros Hne Hall. induction Hall as [|l ls Hl Hall IH]; [contradiction|].
  destruct ls as [|l' ls].
  - cbn [join]. now apply split_on_plain.
  - rewrite join_more. cbn [app]. rewrite split_on_app by exact Hl.
    now rewrite IH.
Qed.

Lemma lines_of_join ls :
  ls <> [] -> Forall (fun l => NEWLINE ∉ l) ls -> lines_of (join [NEWLINE] ls) = ls.
Proof.
  intros Hne Hall. pose proof (split_join NEWLINE ls Hne Hall) as H.
  unfold lines_of. destruct (join [NEWLINE] ls); [|exact H]. exact H.
Qed.

Lemma save_page_written s p pages d c :
  notebook_pages s = PList pages ->
  (0 <= _get_active_page_index p)%Z ->
  pages !! Z.to_nat (_get_active_page_index p) = Some (page d c) ->
  _save_current_page (p, s)
  = ((p, set_notebook_pages
           (PList (<[Z.to_nat (_get_active_page_index p)
                     := page d (join [NEWLINE] (text_lines p))]> pages)) s),
     Return tt).
Proof.
  intros Hp Ha Hi. unfold _save_current_page. run_method.
  rewrite (total_pages_list s pages Hp).
  pose proof (lookup_lt_Some _ _ _ Hi) as Hlt.
  destruct (Z.ltb_spec (_get_active_page_index p) (Z.of_nat (length pages))) as [_|]; [|lia].
  cbn [fst snd]. rewrite (page_by_index_at s pages _ _ Hp Ha Hi). cbn [fst snd].
  unfold set_page_content. rewrite page_set_content. cbn [fst snd]. now rewrite Hp.
Qed.

(** X22: notes typed are notes kept.  In a well-formed state, whatever
    its other attributes hold, with the panel on the current page, lines without a line break in them that are
    saved with [_save_current_page] become the content of the current
    page, joined by line breaks, and [_load_current_spread] reads the same
    lines back on the same page. *)
Theorem typed_notes_come_back s p lines :
  well_formed s ->
  get_total_pages s = Return (_get_active_page_index p + 1)%Z ->
  lines <> [] -> Forall (fun l => NEWLINE ∉ l) lines ->
  exists s1 p2 i,
    _save_current_page (set_text_lines lines p, s)
    = ((set_text_lines lines p, s1), Return tt)
    /\ get_current_page s1
       = Return (InNotebook i, page (current_day s) (join [NEWLINE] lines))
    /\ _load_current_spread (set_text_lines lines p, s1) = ((p2, s1), Return tt)
    /\ text_lines p2 = lines
    /\ _get_active_page_index p2 = _get_active_page_index p.
Proof.
  intros Hr Htot Hne Hall.
  destruct (well_formed_shape s Hr) as (cs & d & c & Hp & Hd & Hday & _).
  set (pages := numbered 1 cs ++ [page d c]) in *.
  assert (Hlen : length pages = S (length cs)).
  { unfold pages. rewrite length_app, numbered_length. cbn [length]. lia. }
  rewrite (total_pages_list s pages Hp), Hlen in Htot. injection Htot as Htot.
  set (q := set_text_lines lines p).
  assert (Hq : _get_active_page_index q = _get_active_page_index p) by reflexivity.
  assert (Ha : _get_active_page_index q = Z.of_nat (length cs)) by lia.
  assert (Hlast : pages !! Z.to_nat (_get_active_page_index q) = Some (page d c)).
  { rewrite Ha, Nat2Z.id. unfold pages.
    rewrite lookup_app_r by (now rewrite numbered_length).
    now rewrite numbered_length, Nat.sub_diag. }
  pose proof (save_page_written s q pages d c Hp ltac:(lia) Hlast) as Hsave.
  pose proof (well_formed_replace s pages _ d c (join [NEWLINE] (text_lines q)) Hr Hp Hlast)
    as Hwf1.
  rewrite Ha, Nat2Z.id in Hsave, Hwf1. unfold pages in Hsave, Hwf1.
  rewrite <- (numbered_length 1 cs) in Hsave at 1.
  rewrite <- (numbered_length 1 cs) in Hwf1 at 1.
  rewrite insert_last in Hsave, Hwf1. cbn [q set_text_lines text_lines] in Hsave, Hwf1.
  fold q in Hsave.
  set (s1 := set_notebook_pages
               (PList (numbered 1 cs ++ [page d (join [NEWLINE] lines)])) s) in *.
  destruct (load_spread_spec s1 q _ Hwf1 eq_refl) as (side & lines' & Hload & Hside & Hpg).
  rewrite length_app, numbered_length in Hside. cbn [length] in Hside.
  assert (Hk : (0 <= current_spread_index q)%Z).
  { revert Ha. unfold _get_active_page_index, _get_right_page_index, _get_left_page_index.
    destruct (active_side q =? 0)%Z; lia. }
  assert (Hact : (if (side =? 0)%Z then current_spread_index q * 2
                  else current_spread_index q * 2 + 1)%Z = Z.of_nat (length cs)).
  { revert Ha. unfold _get_active_page_index, _get_right_page_index, _get_left_page_index.
    rewrite Hside.
    destruct (active_side q =? 0)%Z;
      destruct (Z.eqb_spec (current_spread_index q * 2 + 1)
                           (Z.of_nat (length cs + 1) - 1)); cbn [Z.eqb]; lia. }
  rewrite Hact, Nat2Z.id in Hpg.
  destruct (Hpg (page d (join [NEWLINE] lines))) as (d' & c' & E & Hlines); [|exact Hk|].
  { rewrite lookup_app_r by (now rewrite numbered_length).
    now rewrite numbered_length, Nat.sub_diag. }
  injection E as <- <-.
  exists s1, (loaded_panel (current_spread_index q) side lines'), (length cs).
  split; [exact Hsave|]. split; [|split; [exact Hload|split]].
  - rewrite Hd. apply get_current_shape; [reflexivity|exact Hd|exact Hday].
  - cbn [loaded_panel text_lines]. rewrite Hlines. now apply lines_of_join.
  - rewrite <- Hq, Ha.
    unfold _get_active_page_index, _get_right_page_index, _get_left_page_index.
    cbn [loaded_panel active_side current_spread_index]. exact Hact.
Qed.

Lemma typed_notes_come_back_witness :
  exists s1 p2 i,
    _save_current_page (set_text_lines [lit "knife"; lit "nun?"] left_panel, sample_state)
    = ((set_text_lines [lit "knife"; lit "nun?"] left_panel, s1), Return tt)
    /\ get_current_page s1
       = Return (InNotebook i,
                 page (current_day sample_state) (join [NEWLINE] [lit "knife"; lit "nun?"]))
    /\ _load_current_spread (set_text_lines [lit "knife"; lit "nun?"] left_panel, s1)
       = ((p2, s1), Return tt)
    /\ text_lines p2 = [lit "knife"; lit "nun?"]
    /\ _get_active_page_index p2 = _get_active_page_index left_panel.
Proof.
  apply (typed_notes_come_back sample_state left_panel [lit "knife"; lit "nun?"]).
  - apply sample_state_well_formed.
  - reflexivity.
  - discriminate.
  - repeat constructor; apply (bool_decide_unpack _); vm_compute; exact I.
Defined.

(** X23: in a well-formed state, whatever its other attributes hold,
    [get_page_content] returns for every index that is not negative and changes nothing: no line for an index past
    the last page and for a page without text, and otherwise the lines of
    the page, which joined by line breaks are its content. *)
Theorem page_content_lines s p i :
  well_formed s -> (0 <= i)%Z ->
  exists lines,
    get_page_content i (p, s) = ((p, s), Return lines)
    /\ match get_page_by_index i s with
       | Return (InNotebook _, pg) =>
           exists d c, pg = page d c
                       /\ (c = [] -> lines = [])
                       /\ (c <> [] -> join [NEWLINE] lines = c)
       | _ => lines = []
       end.
Proof.
  intros Hr Hi.
  destruct (well_formed_view s Hr) as (pages & Hp & _ & Hview).
  unfold get_page_content. run_method. rewrite (total_pages_list s pages Hp).
  destruct (Z.geb_spec i (Z.of_nat (length pages))) as [Hge|Hlt].
  - exists []. split; [reflexivity|].
    now rewrite (page_by_index_outside s pages i Hp) by lia.
  - cbn [fst snd].
    destruct (lookup_lt_is_Some_2 pages (Z.to_nat i)) as [pg Hpg]; [lia|].
    destruct (Hview _ _ Hpg) as (d & c & -> & _).
    rewrite (page_by_index_at s pages _ _ Hp Hi Hpg). cbn [fst snd].
    rewrite page_content. cbn [fst snd].
    destruct c as [|x c].
    + exists []. split; [reflexivity|]. exists d, []. now repeat split.
    + exists (split_on NEWLINE (x :: c)). split; [reflexivity|].
      exists d, (x :: c). split; [reflexivity|]. split; [discriminate|].
      intros _. apply join_split.
Qed.

Lemma page_content_lines_witness :
  exists lines,
    get_page_content 1 (sample_panel, fst (update_current_page (lit "knife") sample_state))
    = ((sample_panel, fst (update_current_page (lit "knife") sample_state)), Return lines)
    /\ match get_page_by_index 1 (fst (update_current_page (lit "knife") sample_state)) with
       | Return (InNotebook _, pg) =>
           exists d c, pg = page d c
                       /\ (c = [] -> lines = [])
                       /\ (c <> [] -> join [NEWLINE] lines = c)
       | _ => lines = []
       end.
Proof.
  apply (page_content_lines (fst (update_current_page (lit "knife") sample_state)) sample_panel 1).
  - exists [[]; lit "knife"], None. split; [discriminate|]. split; reflexivity.
  - lia.
Defined.
(** ** More on the engine *)

Section EngineMore.

Variable api_completion : nat -> list message -> llm_reply.
Variable engine_chat : nat -> SimpleChatEngine -> pystr -> SimpleChatEngine * llm_reply.
Variable db : CharacterDatabase.

(** What one question changes in the engine: the conversation of its
    suspect in the store of the engine's mode, and nothing else. *)
Lemma response_state a question streaming callback e w :
  let e' := fst (fst (get_suspect_response api_completion engine_chat db a question
                                           streaming callback e w)) in
  use_api e' = use_api e /\ openai_client e' = openai_client e
  /\ if api_mode e then
       chat_engines e' = chat_engines e
       /\ exists h, api_chat_histories e' = <[a := h]> (api_chat_histories e)
     else
       api_chat_histories e' = api_chat_histories e
       /\ exists ce, chat_engines e' = <[a := ce]> (chat_engines e).
Proof.
  cbv zeta. rewrite response_engine. destruct (api_mode e).
  - pose proof (api_response_spec api_completion db a question streaming callback e w) as H.
    cbv zeta in H. destruct (_openai_chat _ _ _ _ _ _) as [w' [text|ex]]; rewrite H;
      cbn [fst]; repeat split; eauto.
  - pose proof (ollama_response_spec engine_chat db a question streaming callback e w) as H.
    cbv zeta in H. destruct (chat_with_retries _ _ _ _ _ _ _) as [[ce' w'] answer];
      rewrite H; cbn [fst]; repeat split; eauto.
Qed.

Lemma ask_all_state questions streaming callback :
  forall e w,
    let e' := fst (ask_all api_completion engine_chat db questions streaming callback e w) in
    api_mode e' = api_mode e
    /\ if api_mode e then
         chat_engines e' = chat_engines e
         /\ dom (api_chat_histories e') = dom (api_chat_histories e) ∪ asked questions
       else
         api_chat_histories e' = api_chat_histories e
         /\ dom (chat_engines e') = dom (chat_engines e) ∪ asked questions.
Proof.
  induction questions as [|[a q] later IH]; intros e w; cbv zeta.
  - cbn [ask_all fst]. split; [reflexivity|].
    unfold asked. cbn [map list_to_set].
    destruct (api_mode e); (split; [reflexivity|now rewrite union_empty_r_L]).
  - cbn [ask_all].
    pose proof (response_state a q streaming callback e w) as Hs. cbv zeta in Hs.
    destruct (get_suspect_response _ _ _ _ _ _ _ _ _) as [[e1 w1] text].
    cbn [fst] in Hs. destruct Hs as (Hu & Hc & Hs).
    assert (Hmode : api_mode e1 = api_mode e) by (unfold api_mode; now rewrite Hu, Hc).
    specialize (IH e1 w1). cbv zeta in IH. rewrite Hmode in IH.
    destruct IH as (IHm & IH). split; [now rewrite IHm|].
    unfold asked in *. cbn [map fst list_to_set].
    destruct (api_mode e).
    + destruct Hs as (Hce & h & Hh). destruct IH as (IHc & IHd).
      split; [now rewrite IHc|]. rewrite IHd, Hh, dom_insert_L.
      now rewrite (union_comm_L {[a]}), union_assoc_L.
    + destruct Hs as (Hh & ce & Hce). destruct IH as (IHc & IHd).
      split; [now rewrite IHc|]. rewrite IHd, Hce, dom_insert_L.
      now rewrite (union_comm_L {[a]}), union_assoc_L.
Qed.

End EngineMore.

(** X15: from a new engine, after any run of questions, the suspects that
    have a conversation are exactly the suspects that were asked: in API
    mode they are the keys of [api_chat_histories] and [chat_engines] is
    empty, in local mode the other way round.  Failed requests count: a
    suspect whose every request failed has a conversation too. *)
Theorem conversations_of_asked api_completion engine_chat db questions streaming
    callback api client w :
  let e' := fst (ask_all api_completion engine_chat db questions streaming callback
                         (new_engine api client) w) in
  if api && client then
    dom (api_chat_histories e') = asked questions /\ chat_engines e' = ∅
  else
    dom (chat_engines e') = asked questions /\ api_chat_histories e' = ∅.
Proof.
  cbv zeta.
  pose proof (ask_all_state api_completion engine_chat db questions streaming callback
                            (new_engine api client) w) as H.
  cbv zeta in H. destruct H as (_ & H).
  unfold api_mode in H. cbn [new_engine use_api openai_client] in H.
  destruct (api && client); destruct H as (H1 & H2); (split; [|exact H1]);
    rewrite H2; cbn [new_engine api_chat_histories chat_engines];
    rewrite dom_empty_L; apply union_empty_l_L.
Qed.
Lemma streamed_same w : streamed w w = [].
Proof. unfold streamed. now rewrite drop_all. Qed.

Lemma streamed_emit w w' evs :
  length (trace w) <= length (trace w') ->
  streamed w (emit evs w') = streamed w w' ++ flat_map token_text evs.
Proof.
  intros H. unfold streamed, emit. cbn [trace].
  rewrite drop_app_le by exact H. apply flat_map_app.
Qed.

Lemma streamed_sent w w' :
  length (trace w) <= length (trace w') ->
  streamed w (sent w') = streamed w w'.
Proof.
  intros H. unfold streamed, sent. cbn [trace].
  rewrite drop_app_le by exact H. rewrite flat_map_app. cbn. apply app_nil_r.
Qed.

Lemma streamed_tokens tokens : flat_map token_text (map Token tokens) = tokens.
Proof. induction tokens as [|t ts IH]; [reflexivity|]. cbn. now rewrite IH. Qed.

Lemma requests_emit evs w : requests (emit evs w) = requests w.
Proof. reflexivity. Qed.

Lemma requests_sent w : requests (sent w) = S (requests w).
Proof. reflexivity. Qed.

Ltac longer := cbn [emit sent trace]; rewrite ?length_app; lia.

Section Streaming.

Variable api_completion : nat -> list message -> llm_reply.
Variable engine_chat : nat -> SimpleChatEngine -> pystr -> SimpleChatEngine * llm_reply.
Variable db : CharacterDatabase.

(** The tokens the three rounds of the loop hand to a callback. *)
Lemma chat_with_retries_streamed question ce w :
  let n := requests w in
  let '(ce1, r1) := engine_chat n ce question in
  let '(ce2, r2) := engine_chat (S n) ce1 question in
  let '(ce3, r3) := engine_chat (S (S n)) ce2 question in
  let '(_, w', _) :=
    chat_with_retries engine_chat (seq 0 max_retries) 1 true question ce w in
  streamed w w'
  = match r1, r2, r3 with
    | Reply t1, _, _ => t1
    | Failure f1 _, Reply t2, _ => f1 ++ t2
    | Failure f1 _, Failure f2 _, Reply t3 => f1 ++ f2 ++ t3
    | Failure f1 _, Failure f2 _, Failure f3 _ => f1 ++ f2 ++ f3
    end.
Proof.
  cbv zeta. cbn [seq max_retries chat_with_retries].
  destruct (engine_chat (requests w) ce question) as [ce1 [t1|f1 e1]].
  { destruct (engine_chat (S (requests w)) ce1 question) as [ce2 r2].
    destruct (engine_chat (S (S (requests w))) ce2 question) as [ce3 r3].
    cbv beta iota.
    rewrite streamed_emit by longer. rewrite streamed_sent by lia.
    now rewrite streamed_same, streamed_tokens. }
  cbn [Nat.ltb Nat.leb Nat.sub max_retries]. repeat (rewrite requests_emit || rewrite requests_sent).
  destruct (engine_chat (S (requests w)) ce1 question) as [ce2 [t2|f2 e2]].
  { destruct (engine_chat (S (S (requests w))) ce2 question) as [ce3 r3].
    cbv beta iota.
    rewrite !streamed_emit by longer. rewrite streamed_sent by longer.
    rewrite !streamed_emit by longer. rewrite streamed_sent by lia.
    rewrite streamed_same, !streamed_tokens. cbn. now rewrite app_nil_r. }
  cbn [Nat.ltb Nat.leb Nat.sub max_retries]. repeat (rewrite requests_emit || rewrite requests_sent).
  destruct (engine_chat (S (S (requests w))) ce2 question) as [ce3 [t3|f3 e3]];
    cbn [Nat.ltb Nat.leb Nat.sub max_retries]; cbv beta iota;
    rewrite !streamed_emit by longer; rewrite streamed_sent by longer;
    rewrite !streamed_emit by longer; rewrite streamed_sent by longer;
    rewrite !streamed_emit by longer; rewrite streamed_sent by lia;
    rewrite streamed_same, !streamed_tokens; cbn; rewrite !app_nil_r;
    now rewrite <- app_assoc.
Qed.

End Streaming.
(** X16: in API mode the tokens handed to the callback are the chunks of
    the answer that carry text, none of them empty.  Without a callback,
    or with streaming off, none is handed on; with both, an answer that
    arrives whole is the reply, and the tokens handed on add up to it. *)
Theorem api_streamed_is_reply api_completion engine_chat db a question streaming
    callback e w :
  api_mode e = true ->
  let '(_, w', reply) :=
    get_suspect_response api_completion engine_chat db a question streaming callback e w in
  Forall (fun t => t <> []) (streamed w w')
  /\ (streaming && callback = false -> streamed w w' = [])
  /\ (streaming && callback = true ->
      forall text,
        snd (_get_suspect_response_api api_completion db a question streaming callback e w)
        = Return text ->
        reply = text /\ concat (streamed w w') = text).
Proof.
  intros Hmode. unfold get_suspect_response. fold (api_mode e). rewrite Hmode.
  pose proof (api_response_spec api_completion db a question streaming callback e w) as H.
  cbv zeta in H. unfold _openai_chat in H.
  destruct (streaming && callback);
    destruct (api_completion _ _) as [tokens|tokens ex]; rewrite H; cbn [snd];
    rewrite ?streamed_emit by longer; rewrite streamed_sent by lia;
    rewrite streamed_same, ?streamed_tokens; cbn [app].
  - split; [|split; [discriminate|]].
    + apply Forall_forall. intros t Ht. now apply list_elem_of_filter in Ht as [Ht _].
    + intros _ text [= <-]. now split.
  - split; [|split; [discriminate|intros _ text; discriminate]].
    apply Forall_forall. intros t Ht. now apply list_elem_of_filter in Ht as [Ht _].
  - split; [constructor|]. split; [reflexivity|discriminate].
  - split; [constructor|]. split; [reflexivity|discriminate].
Qed.

Lemma api_streamed_is_reply_witness :
  let '(_, w', reply) :=
    get_suspect_response sample_api flaky_chat sample_db 1 sample_question true true
                         (new_engine true true) start in
  Forall (fun t => t <> []) (streamed start w')
  /\ (true && true = false -> streamed start w' = [])
  /\ (true && true = true ->
      forall text,
        snd (_get_suspect_response_api sample_api sample_db 1 sample_question true true
                                       (new_engine true true) start)
        = Return text ->
        reply = text /\ concat (streamed start w') = text).
Proof.
  apply (api_streamed_is_reply sample_api flaky_chat sample_db 1 sample_question true true
           (new_engine true true) start).
  reflexivity.
Defined.

(** X17: in local mode with a callback the tokens of every attempt are
    handed on as they come, those of a failed attempt too: after a retry
    the callback has received the tokens of the attempts that broke off
    and then those of the answer, while the reply is the answer alone. *)
Theorem local_streamed_accumulates api_completion engine_chat db a question e w :
  api_mode e = false ->
  let n := requests w in
  let ce := default (fresh_engine db a) (chat_engines e !! a) in
  let '(ce1, r1) := engine_chat n ce question in
  let '(ce2, r2) := engine_chat (S n) ce1 question in
  let '(ce3, r3) := engine_chat (S (S n)) ce2 question in
  let '(_, w', reply) :=
    get_suspect_response api_completion engine_chat db a question true true e w in
  match r1, r2, r3 with
  | Reply t1, _, _ =>
      streamed w w' = t1 /\ reply = concat t1
  | Failure f1 _, Reply t2, _ =>
      streamed w w' = f1 ++ t2 /\ reply = concat t2
  | Failure f1 _, Failure f2 _, Reply t3 =>
      streamed w w' = f1 ++ f2 ++ t3 /\ reply = concat t3
  | Failure f1 _, Failure f2 _, Failure f3 ex =>
      streamed w w' = f1 ++ f2 ++ f3 /\ reply = error_reply ex
  end.
Proof.
  intros Hmode. cbv zeta.
  pose proof (chat_with_retries_streamed engine_chat question
                (default (fresh_engine db a) (chat_engines e !! a)) w) as Hst.
  pose proof (chat_with_retries_rounds engine_chat true question
                (default (fresh_engine db a) (chat_engines e !! a)) w) as Hrounds.
  pose proof (ollama_response_spec engine_chat db a question true true e w) as Hspec.
  cbv zeta in Hst, Hrounds, Hspec. cbn [andb] in Hspec.
  unfold get_suspect_response. fold (api_mode e). rewrite Hmode.
  destruct (engine_chat (requests w) _ question) as [ce1 r1].
  destruct (engine_chat (S (requests w)) ce1 question) as [ce2 r2].
  destruct (engine_chat (S (S (requests w))) ce2 question) as [ce3 r3].
  destruct (chat_with_retries _ _ _ _ _ _ _) as [[ce' w'] answer].
  rewrite Hspec.
  destruct r1 as [t1|t1 e1]; [|destruct r2 as [t2|t2 e2]; [|destruct r3 as [t3|t3 e3]]];
    destruct Hrounds as (_ & _ & ->); cbn [reply_text]; auto.
Qed.

Lemma local_streamed_accumulates_witness :
  let '(_, w', reply) :=
    get_suspect_response sample_api flaky_chat sample_db 1 sample_question true true
                         (new_engine false false) start in
  streamed start w' = [lit "I was "; lit "at "] ++ [lit "I was "; lit "asleep."]
  /\ reply = concat [lit "I was "; lit "asleep."].
Proof.
  exact (local_streamed_accumulates sample_api flaky_chat sample_db 1 sample_question
           (new_engine false false) start eq_refl).
Defined.

(** X18: a reset forgets.  After [reset_chat] on a suspect the next
    question to that suspect gets the reply, and leaves the world and that
    suspect's conversation, that it would on an engine just built in the
    same mode; after [reset_all_chats] this holds for every suspect, and
    no suspect has a conversation. *)
Theorem reset_forgets api_completion engine_chat db a question streaming callback e w :
  let fresh := new_engine (use_api e) (openai_client e) in
  let ask := get_suspect_response api_completion engine_chat db a question
                                  streaming callback in
  (snd (ask (reset_chat a e) w) = snd (ask fresh w)
   /\ snd (fst (ask (reset_chat a e) w)) = snd (fst (ask fresh w))
   /\ conversation (fst (fst (ask (reset_chat a e) w))) a
      = conversation (fst (fst (ask fresh w))) a)
  /\ ask (reset_all_chats e) w = ask fresh w
  /\ (forall b, conversation (reset_all_chats e) b = (None, None)).
Proof.
  cbv zeta. split; [|split; [reflexivity|intros b; reflexivity]].
  pose proof (response_outcome api_completion engine_chat db a question streaming
                               callback (reset_chat a e) w) as H1.
  pose proof (response_outcome api_completion engine_chat db a question streaming
                               callback (new_engine (use_api e) (openai_client e)) w) as H2.
  cbv zeta in H1, H2.
  replace (api_mode (reset_chat a e)) with (api_mode e) in H1 by reflexivity.
  replace (api_mode (new_engine (use_api e) (openai_client e))) with (api_mode e) in H2
    by reflexivity.
  rewrite reset_chat_conversation in H1. destruct (decide (a = a)); [|contradiction].
  replace (conversation (new_engine (use_api e) (openai_client e)) a)
    with (@None (list message), @None SimpleChatEngine) in H2 by reflexivity.
  rewrite <- H2 in H1. injection H1 as Ha Hb Hc Hd.
  split; [exact Hd|]. split; [exact Hc|]. unfold conversation. now rewrite Ha, Hb.
Qed.
(** ** The settings *)

Lemma assoc_set_lookup {A} (k k' : pystr) (v : A) kv :
  assoc k' (assoc_set k v kv) = if bool_decide (k = k') then Some v else assoc k' kv.
Proof.
  induction kv as [|[x y] kv IH]; cbn [assoc_set assoc].
  - reflexivity.
  - destruct (bool_decide_reflect (x = k)) as [->|Hx]; cbn [assoc].
    + destruct (bool_decide (k = k')); reflexivity.
    + rewrite IH. destruct (bool_decide_reflect (x = k')) as [->|Hx'];
        [|reflexivity].
      now rewrite bool_decide_eq_false_2 by (intros ->; contradiction).
Qed.

Lemma assoc_snoc {A} (k k' : pystr) (v : A) kv :
  assoc k' (kv ++ [(k, v)])
  = match assoc k' kv with
    | Some x => Some x
    | None => if bool_decide (k = k') then Some v else None
    end.
Proof.
  induction kv as [|[x y] kv IH]; cbn [app assoc]; [reflexivity|].
  destruct (bool_decide (x = k')); [reflexivity|exact IH].
Qed.

(** After a merge a key has the value of its last item in the second
    dict, or else the value the first dict gave it. *)
Lemma dict_merge_lookup extra : forall base k,
  assoc k (dict_merge base extra)
  = match assoc k (rev extra) with
    | Some v => Some v
    | None => assoc k base
    end.
Proof.
  induction extra as [|[x y] extra IH]; intros base k; [reflexivity|].
  cbn [rev]. rewrite assoc_snoc. unfold dict_merge in *. cbn [fold_left fst snd].
  rewrite IH, assoc_set_lookup.
  destruct (assoc k (rev extra)); [reflexivity|]. now destruct (bool_decide (x = k)).
Qed.

Lemma assoc_key {A} (kv : list (pystr * A)) k v :
  assoc k kv = Some v -> k ∈ map fst kv.
Proof.
  induction kv as [|[x y] kv IH]; [discriminate|]. cbn [assoc map fst].
  destruct (bool_decide_reflect (x = k)) as [->|_]; [left|right; auto].
Qed.

Lemma assoc_rev {A} (kv : list (pystr * A)) k :
  NoDup (map fst kv) -> assoc k (rev kv) = assoc k kv.
Proof.
  induction kv as [|[x y] kv IH]; intros Hnd; [reflexivity|].
  cbn [map fst] in Hnd. apply NoDup_cons in Hnd as [Hx Hnd].
  cbn [rev assoc]. rewrite assoc_snoc, (IH Hnd).
  destruct (bool_decide_reflect (x = k)) as [->|_]; [|now destruct (assoc k kv)].
  destruct (assoc k kv) as [v|] eqn:E; [|reflexivity].
  exfalso. apply Hx. exact (assoc_key _ _ _ E).
Qed.

Lemma assoc_set_keys {A} (k : pystr) (v : A) kv :
  NoDup (map fst kv) -> NoDup (map fst (assoc_set k v kv)).
Proof.
  induction kv as [|[x y] kv IH]; intros Hnd; cbn [assoc_set].
  - cbn. apply NoDup_singleton.
  - cbn [map fst] in Hnd. apply NoDup_cons in Hnd as [Hx Hnd].
    destruct (bool_decide_reflect (x = k)) as [->|Hne]; cbn [map fst];
      apply NoDup_cons; split; auto.
    intros Hin. apply Hx. clear -Hin Hne.
    induction kv as [|[x' y'] kv IH]; cbn [assoc_set map fst] in *.
    + apply list_elem_of_singleton in Hin. now subst.
    + destruct (bool_decide (x' = k)); cbn [map fst] in *;
        apply elem_of_cons in Hin as [->|Hin]; [left|right; assumption|left|right; auto].
Qed.

Lemma dict_merge_keys extra : forall base,
  NoDup (map fst base) -> NoDup (map fst (dict_merge base extra)).
Proof.
  induction extra as [|[x y] extra IH]; intros base Hnd; [exact Hnd|].
  unfold dict_merge in *. cbn [fold_left fst snd]. now apply IH, assoc_set_keys.
Qed.

Lemma default_settings_keys : NoDup (map fst DEFAULT_SETTINGS).
Proof. apply (bool_decide_unpack _). vm_compute. exact I. Qed.

Lemma load_settings_keys fs : NoDup (map fst (load_settings fs)).
Proof.
  unfold load_settings.
  destruct (fs !! SETTINGS_FILE) as [[[| | | | |kv]|]|];
    try apply default_settings_keys.
  apply dict_merge_keys, default_settings_keys.
Qed.

Lemma load_settings_written settings fs :
  load_settings (<[SETTINGS_FILE := Json (PDict settings)]> fs)
  = dict_merge DEFAULT_SETTINGS settings.
Proof. unfold load_settings. now rewrite lookup_insert_eq. Qed.

Lemma default_settings_present k :
  k ∈ map fst DEFAULT_SETTINGS -> is_Some (assoc k DEFAULT_SETTINGS).
Proof.
  intros Hk. cbn in Hk.
  repeat (apply elem_of_cons in Hk as [->|Hk]; [eexists; reflexivity|]).
  now apply elem_of_nil in Hk.
Qed.

Lemma load_settings_present fs k :
  k ∈ map fst DEFAULT_SETTINGS -> is_Some (assoc k (load_settings fs)).
Proof.
  intros Hk. unfold load_settings.
  destruct (fs !! SETTINGS_FILE) as [[[| | | | |kv]|]|];
    try now apply default_settings_present.
  rewrite dict_merge_lookup.
  destruct (assoc k (rev kv)); [eauto|now apply default_settings_present].
Qed.

(** X19: [load_settings] always gives a dict that has every key of the
    defaults.  A settings file that is missing, cannot be read as JSON or
    holds something other than an object gives the defaults themselves;
    the game then runs on the local model gemma3n with the API off.  A
    file that holds an object gives, for each key, the value of the file
    where the file has the key and the default value where it has not. *)
Theorem load_settings_defaults fs :
  (forall k, k ∈ map fst DEFAULT_SETTINGS -> is_Some (assoc k (load_settings fs)))
  /\ ((forall kv, fs !! SETTINGS_FILE <> Some (Json (PDict kv))) ->
      load_settings fs = DEFAULT_SETTINGS
      /\ is_api_mode fs = PBool false
      /\ get_ollama_model fs = PStr (lit "gemma3n"))
  /\ (forall kv k,
        fs !! SETTINGS_FILE = Some (Json (PDict kv)) -> NoDup (map fst kv) ->
        assoc k (load_settings fs)
        = match assoc k kv with
          | Some v => Some v
          | None => assoc k DEFAULT_SETTINGS
          end).
Proof.
  split; [|split].
  - intros k. apply load_settings_present.
  - intros Hno. unfold is_api_mode, get_ollama_model, get_setting, load_settings.
    destruct (fs !! SETTINGS_FILE) as [[[| | | | |kv]|]|];
      try (repeat split; reflexivity).
    now destruct (Hno kv).
  - intros kv k Hfile Hnd. unfold load_settings. rewrite Hfile.
    now rewrite dict_merge_lookup, assoc_rev.
Qed.

Lemma load_settings_defaults_witness :
  assoc (lit "isApiAvailable")
        (load_settings (<[SETTINGS_FILE := Json (PDict sample_settings)]> ∅))
  = match assoc (lit "isApiAvailable") sample_settings with
    | Some v => Some v
    | None => assoc (lit "isApiAvailable") DEFAULT_SETTINGS
    end.
Proof.
  apply (proj2 (proj2 (load_settings_defaults
                         (<[SETTINGS_FILE := Json (PDict sample_settings)]> ∅)))
           sample_settings (lit "isApiAvailable")).
  - reflexivity.
  - apply (bool_decide_unpack _). vm_compute. exact I.
Defined.

(** X20: a setting written is the setting read.  When the file can be
    written, [update_setting] returns True, [get_setting] then returns
    the new value for that key and, for every other key, what it returned
    before.  When the file cannot be opened nothing changes; when the
    dump breaks off, every setting is back at its default. *)
Theorem update_then_get_setting key value fs :
  (snd (update_setting key value WriteOk fs) = true
   /\ (forall d, get_setting key d (fst (update_setting key value WriteOk fs)) = value)
   /\ (forall k d, k <> key ->
         get_setting k d (fst (update_setting key value WriteOk fs))
         = get_setting k d fs))
  /\ update_setting key value OpenFails fs = (fs, false)
  /\ (snd (update_setting key value DumpFails fs) = false
      /\ load_settings (fst (update_setting key value DumpFails fs)) = DEFAULT_SETTINGS).
Proof.
  split; [|split; [reflexivity|split; [reflexivity|]]].
  - split; [reflexivity|].
    unfold update_setting, get_setting. cbn [save_settings fst].
    pose proof (assoc_set_keys key value _ (load_settings_keys fs)) as Hnd.
    split.
    + intros d. rewrite load_settings_written, dict_merge_lookup, (assoc_rev _ _ Hnd).
      rewrite assoc_set_lookup, bool_decide_eq_true_2 by reflexivity. reflexivity.
    + intros k d Hk.
      rewrite load_settings_written, dict_merge_lookup, (assoc_rev _ _ Hnd).
      rewrite assoc_set_lookup, bool_decide_eq_false_2 by (intros E; now apply Hk).
      destruct (assoc k (load_settings fs)) as [v|] eqn:E; [reflexivity|].
      destruct (assoc k DEFAULT_SETTINGS) as [v|] eqn:Ed; [exfalso|reflexivity].
      destruct (load_settings_present fs k (assoc_key _ _ _ Ed)) as [v' Hv].
      rewrite E in Hv. discriminate.
  - unfold update_setting, load_settings. cbn [save_settings fst].
    now rewrite lookup_insert_eq.
Qed.

Lemma update_then_get_setting_witness :
  get_setting (lit "model") PNone
    (fst (update_setting (lit "isApiAvailable") (PBool true) WriteOk
                         (<[SETTINGS_FILE := Json (PDict sample_settings)]> ∅)))
  = get_setting (lit "model") PNone (<[SETTINGS_FILE := Json (PDict sample_settings)]> ∅).
Proof.
  destruct (update_then_get_setting (lit "isApiAvailable") (PBool true)
              (<[SETTINGS_FILE := Json (PDict sample_settings)]> ∅))
    as ((_ & _ & Hother) & _).
  apply Hother. apply (bool_decide_unpack _). vm_compute. exact I.
Defined.
(** ** The end of the game *)

(** X21: an accusation survives a restart.  [_accuse_suspect] puts the
    game on the win screen for suspect 2 and on the lose screen for every
    other; when the save file can be written, a game whose state is a new
    [GameState] loaded from it has ended with that verdict and has the
    day and the notebook as they were, and [_start_new_game] takes it
    straight to the screen of the verdict and starts no warm-up, whatever
    screen it was on. *)
Theorem accusation_survives_restart suspect_id g fs :
  save_file (game_state g) = save_file init ->
  let verdict := PStr (if (suspect_id =? 2)%Z then lit "win" else lit "lose") in
  let '(g1, fs1) := _accuse_suspect suspect_id WriteOk g fs in
  state g1 = verdict
  /\ forall g2,
       game_state g2 = fst (load init fs1) ->
       game_ended (game_state g2) = PBool true
       /\ win_state (game_state g2) = verdict
       /\ current_day (game_state g2) = current_day (game_state g)
       /\ notebook_pages (game_state g2) = notebook_pages (game_state g)
       /\ _start_new_game g2 = (set_state verdict g2, None).
Proof.
  intros Hfile. cbv zeta. unfold _accuse_suspect, _start_new_game.
  destruct (suspect_id =? 2)%Z;
    cbn [set_state set_game_state game_state state set_win_state set_game_ended];
    rewrite save_then_load by exact Hfile; cbn [fst];
    (split; [reflexivity|]); intros g2 ->; repeat split; reflexivity.
Qed.

Lemma accusation_survives_restart_witness :
  let '(g1, fs1) := _accuse_suspect 2 WriteOk (launched empty_disk) empty_disk in
  state g1 = PStr (lit "win")
  /\ forall g2,
       game_state g2 = fst (load init fs1) ->
       game_ended (game_state g2) = PBool true
       /\ win_state (game_state g2) = PStr (lit "win")
       /\ current_day (game_state g2) = current_day (game_state (launched empty_disk))
       /\ notebook_pages (game_state g2)
          = notebook_pages (game_state (launched empty_disk))
       /\ _start_new_game g2 = (set_state (PStr (lit "win")) g2, None).
Proof.
  exact (accusation_survives_restart 2 (launched empty_disk) empty_disk eq_refl).
Defined.

(** ** The emotion parser and the console *)

Lemma encodable_app s t : encodable (s ++ t) = encodable s && encodable t.
Proof. apply forallb_app. Qed.

Lemma encodable_sublist (s t : pystr) :
  s `sublist_of` t -> encodable t = true -> encodable s = true.
Proof.
  induction 1 as [|c s t _ IH|c s t _ IH]; cbn [encodable forallb]; intros H.
  - reflexivity.
  - apply andb_true_iff in H as [Hc Ht]. rewrite Hc. now apply IH.
  - apply andb_true_iff in H as [_ Ht]. now apply IH.
Qed.

Lemma digits_encodable u : encodable (lit (NilEmpty.string_of_uint u)) = true.
Proof. unfold lit. induction u; cbn; auto. Qed.

Lemma str_of_Z_encodable z : encodable (str_of_Z z) = true.
Proof.
  unfold str_of_Z. destruct (Z.to_int z) as [u|u]; cbn [NilEmpty.string_of_int].
  - apply digits_encodable.
  - pose proof (digits_encodable u) as H. unfold lit in *. cbn. exact H.
Qed.

Lemma encode_error_encodable text : forall pos,
  encodable text = true -> encode_error text pos = None.
Proof.
  induction text as [|c text IH]; intros pos H; [reflexivity|].
  cbn [encodable forallb] in H. apply andb_true_iff in H as [Hc Ht].
  cbn [encode_error]. apply negb_true_iff in Hc. rewrite Hc. now apply IH.
Qed.

Lemma encode_error_type text : forall pos e,
  encode_error text pos = Some e -> exists msg, e = UnicodeEncodeError msg.
Proof.
  induction text as [|c text IH]; intros pos e H; [discriminate|].
  cbn [encode_error] in H. destruct (is_surrogate c).
  - injection H as <-. eauto.
  - exact (IH _ _ H).
Qed.

Lemma print_encodable text out :
  encodable text = true -> print text out = (out ++ [Line text], Return tt).
Proof. intros H. unfold print. now rewrite (encode_error_encodable text 0 H). Qed.

Lemma print_cases text out :
  print text out = (out ++ [Line text], Return tt)
  \/ exists msg, print text out = (out, Raise (UnicodeEncodeError msg)).
Proof.
  unfold print. destruct (encode_error text 0) as [e|] eqn:E; [|now left].
  right. destruct (encode_error_type _ _ _ E) as (msg & ->). eauto.
Qed.

Lemma group1_sublist s m : group1 s m `sublist_of` s.
Proof.
  unfold group1. destruct (m_span1 m) as [[a b]|]; [|apply sublist_nil_l].
  etransitivity; [apply sublist_take|apply sublist_drop].
Qed.

(** One call of [print] in a goal: its text is written, or the call
    raises and the function with it. *)
Ltac printed :=
  match goal with
  | |- context [print ?t ?o] =>
      let msg := fresh "msg" in
      destruct (print_cases t o) as [-> | (msg & ->)];
      [cbv beta iota | right; eauto]
  end.

Lemma map_emotion_to_image_prints db suspect_id tag out :
  (exists out',
      Printing.map_emotion_to_image db suspect_id tag out
      = (out', map_emotion_to_image db suspect_id tag))
  \/ exists msg,
       Printing.map_emotion_to_image db suspect_id tag out
       = (out, Raise (UnicodeEncodeError msg)).
Proof.
  unfold Printing.map_emotion_to_image, map_emotion_to_image, pbind, silent, pret.
  destruct (get_emotion_mapping db suspect_id) as [mapping|e]; cbn [bind]; [|eauto].
  destruct (mapping !! strip tag); [eauto|].
  printed. eauto.
Qed.

(** The statements that follow a tag that was found. *)
Ltac found_tag db suspect_id :=
  printed;
  match goal with
  | |- context [Printing.map_emotion_to_image db suspect_id ?tag ?o] =>
      let msg := fresh "msg" in
      destruct (map_emotion_to_image_prints db suspect_id tag o)
        as [(? & ->) | (msg & ->)]; [|right; eauto];
      destruct (map_emotion_to_image db suspect_id tag) as [[? [|]]|?];
      cbn [bind]; [printed; eauto| |eauto];
      printed;
      destruct (get_emotion_mapping db suspect_id); cbn [bind print_keys]; eauto
  end.

Lemma parse_emotion_tag_prints Nd db response suspect_id out :
  (exists out',
      Printing.parse_emotion_tag Nd db response suspect_id out
      = (out', parse_emotion_tag Nd db response suspect_id))
  \/ exists out' msg,
       Printing.parse_emotion_tag Nd db response suspect_id out
       = (out', Raise (UnicodeEncodeError msg)).
Proof.
  unfold Printing.parse_emotion_tag, parse_emotion_tag, find_tag, pbind, silent, pret.
  do 3 printed.
  destruct (re_search pattern_end (clean_artifacts Nd response)) as [m|];
    [|destruct (last (re_finditer pattern_any (clean_artifacts Nd response))) as [m|]];
    cbv beta iota.
  - found_tag db suspect_id.
  - printed. found_tag db suspect_id.
  - do 2 printed.
    destruct (get_emotion_mapping db suspect_id) as [mapping|e]; cbn [bind]; [|eauto].
    printed. eauto.
Qed.

(** A text put together from constants, numbers and encodable parts. *)
Ltac encodable_text :=
  repeat (rewrite encodable_app; apply andb_true_intro; split);
  first [assumption | apply str_of_Z_encodable | reflexivity].

(** One call of [print] whose text can be encoded. *)
Ltac written :=
  match goal with
  | |- context [print ?t ?o] =>
      rewrite (print_encodable t o) by encodable_text; cbv beta iota
  end.

Lemma default_image_encodable ch :
  images_encodable ch -> encodable (default_image ch) = true.
Proof.
  intros Himg. unfold default_image.
  destruct (default ∅ (emotion_mapping ch) !! lit "default") eqn:D;
    [exact (Himg _ _ D)|reflexivity].
Qed.

Lemma map_emotion_to_image_written db suspect_id ch tag out :
  characters db !! str_of_Z suspect_id = Some ch ->
  encodable tag = true -> images_encodable ch ->
  exists out',
    Printing.map_emotion_to_image db suspect_id tag out
    = (out', map_emotion_to_image db suspect_id tag).
Proof.
  intros Hch Htag Himg.
  unfold Printing.map_emotion_to_image, map_emotion_to_image, pbind, silent, pret.
  rewrite (get_emotion_mapping_known _ _ _ Hch). cbn [bind].
  destruct (default ∅ (emotion_mapping ch) !! strip tag) eqn:E; [eauto|].
  pose proof (default_image_encodable ch Himg) as Hd. unfold default_image in Hd.
  pose proof (encodable_sublist _ _ (strip_sublist tag) Htag) as Hs.
  written. eauto.
Qed.

(** The statements that follow a tag that was found, in a run where
    every text can be encoded. *)
Ltac found_tag_written db suspect_id ch Hch Himg :=
  let Ht := fresh "Ht" in
  match goal with
  | |- context [Printing.map_emotion_to_image db suspect_id ?tag] =>
      assert (Ht : encodable tag = true)
        by (eapply encodable_sublist; [apply strip_sublist|];
            eapply encodable_sublist; [apply group1_sublist|]; assumption)
  end;
  written;
  match goal with
  | |- context [Printing.map_emotion_to_image db suspect_id ?tag ?o] =>
      destruct (map_emotion_to_image_written db suspect_id ch tag o Hch Ht Himg)
        as (? & ->);
      unfold map_emotion_to_image;
      rewrite !(get_emotion_mapping_known _ _ _ Hch); cbn [bind];
      let E := fresh "E" in
      destruct (default ∅ (emotion_mapping ch) !! strip tag) as [image|] eqn:E;
      cbn [bind];
      [pose proof (Himg _ _ E); written; eauto
      |pose proof (default_image_encodable ch Himg) as Hd; unfold default_image in Hd;
       written; cbn [print_keys]; eauto]
  end.

Lemma parse_emotion_tag_written Nd db response suspect_id ch out :
  characters db !! str_of_Z suspect_id = Some ch ->
  encodable response = true -> images_encodable ch ->
  exists out',
    Printing.parse_emotion_tag Nd db response suspect_id out
    = (out', parse_emotion_tag Nd db response suspect_id).
Proof.
  intros Hch Hresp Himg.
  pose proof (encodable_sublist _ _ (clean_artifacts_sublist Nd response) Hresp) as Hclean.
  pose proof (encodable_sublist _ _
                (sublist_drop (clean_artifacts Nd response)
                   (length (clean_artifacts Nd response) - 100)) Hclean) as Htail.
  unfold Printing.parse_emotion_tag, parse_emotion_tag, find_tag, pbind, silent, pret.
  do 3 written.
  destruct (re_search pattern_end (clean_artifacts Nd response)) as [m|];
    [|destruct (last (re_finditer pattern_any (clean_artifacts Nd response))) as [m|]];
    cbv beta iota.
  - found_tag_written db suspect_id ch Hch Himg.
  - written. found_tag_written db suspect_id ch Hch Himg.
  - do 2 written. rewrite (get_emotion_mapping_known _ _ _ Hch). cbn [bind].
    pose proof (default_image_encodable ch Himg) as Hd. unfold default_image in Hd.
    written. eauto.
Qed.

Lemma sample_images_encodable : images_encodable sample_character.
Proof.
  intros tag image H.
  change (sample_mapping !! tag = Some image) in H. unfold sample_mapping in H.
  apply lookup_insert_Some in H as [[_ <-]|[_ H]]; [reflexivity|].
  apply lookup_insert_Some in H as [[_ <-]|[_ H]]; [reflexivity|].
  rewrite lookup_empty in H. discriminate.
Qed.


(** X24: [parse_emotion_tag] with its prints in place.  A call either
    returns or raises what the selection of the tag alone gives, or one
    of its prints raises [UnicodeEncodeError].  For a suspect of the
    database, a response without a surrogate and a mapping whose image
    names have none, every print is written and the call returns: the
    image is an image of the character's emotion mapping or the literal
    other.jpg. *)
Theorem parse_emotion_tag_with_prints Nd db response suspect_id out :
  ((exists out',
       Printing.parse_emotion_tag Nd db response suspect_id out
       = (out', parse_emotion_tag Nd db response suspect_id))
   \/ exists out' msg,
        Printing.parse_emotion_tag Nd db response suspect_id out
        = (out', Raise (UnicodeEncodeError msg)))
  /\ (forall ch,
         characters db !! str_of_Z suspect_id = Some ch ->
         encodable response = true -> images_encodable ch ->
         exists out' image cleaned tag,
           Printing.parse_emotion_tag Nd db response suspect_id out
           = (out', Return (image, cleaned, tag))
           /\ parse_emotion_tag Nd db response suspect_id = Return (image, cleaned, tag)
           /\ (image = lit "other.jpg"
               \/ exists emotion,
                    default ∅ (emotion_mapping ch) !! emotion = Some image)).
Proof.
  split; [apply parse_emotion_tag_prints|].
  intros ch Hch Hresp Himg.
  destruct (parse_emotion_tag_written Nd db response suspect_id ch out Hch Hresp Himg)
    as (out' & Hrun).
  destruct (parse_emotion_tag_image_in_range Nd db response suspect_id ch Hch)
    as (image & cleaned & tag & Hsel & Hin).
  exists out', image, cleaned, tag. rewrite Hrun, Hsel. auto.
Qed.

Lemma parse_emotion_tag_with_prints_witness :
  exists out' image cleaned tag,
    Printing.parse_emotion_tag sample_Nd sample_db (lit "No. [angry]") 1 []
    = (out', Return (image, cleaned, tag))
    /\ parse_emotion_tag sample_Nd sample_db (lit "No. [angry]") 1
       = Return (image, cleaned, tag)
    /\ (image = lit "other.jpg"
        \/ exists emotion,
             default ∅ (emotion_mapping sample_character) !! emotion = Some image).
Proof.
  apply (proj2 (parse_emotion_tag_with_prints sample_Nd sample_db (lit "No. [angry]") 1 [])
           sample_character).
  - vm_compute. reflexivity.
  - reflexivity.
  - apply sample_images_encodable.
Defined.

(** ** The states of a game *)

Lemma save_page_save_file p s :
  save_file (snd (fst (_save_current_page (p, s)))) = save_file s.
Proof.
  unfold _save_current_page. run_method.
  destruct (get_total_pages s) as [n|e]; cbn [fst snd]; [|reflexivity].
  destruct (_get_active_page_index p <? n)%Z; [|reflexivity].
  cbn [fst snd].
  destruct (get_page_by_index (_get_active_page_index p) s) as [[ref pg]|e];
    cbn [fst snd]; [|reflexivity].
  unfold set_page_content. destruct (setitem pg _ _); [|reflexivity].
  cbn [fst snd]. destruct ref; [|reflexivity].
  destruct (notebook_pages s); reflexivity.
Qed.

Lemma well_formed_same_notebook s s' :
  notebook_pages s' = notebook_pages s -> current_day s' = current_day s ->
  well_formed s -> well_formed s'.
Proof.
  intros Hp Hd (contents & final & Hne & Hpages & Hday).
  exists contents, final. rewrite Hp, Hd. auto.
Qed.

(** X25: every state of a game is well formed and keeps its save file
    under the name [__init__] gave it.  The notebook holds a page for
    each day from the first on, then the Final page if there is one, and
    the current day is the last day or Final, whatever main.py has
    assigned to the other attributes, whatever pages the panel has saved
    and however often the game was saved and loaded again. *)
Theorem played_well_formed s :
  played s -> well_formed s /\ save_file s = save_file init.
Proof.
  induction 1 as [|s _ [IH Hf]|s _ [IH Hf]|s _ [IH Hf]|s content _ [IH Hf]
                  |s v _ [IH Hf]|s v _ [IH Hf]|s v _ [IH Hf]|s v _ [IH Hf]
                  |s p _ [IH Hf]|s fs _ [IH Hf]].
  - split; [apply well_formed_init|reflexivity].
  - split; [apply well_formed_reset|exact Hf].
  - split; [now apply well_formed_advance|now rewrite advance_day_save_file].
  - split; [now apply well_formed_final|now rewrite create_final_save_file].
  - split; [now apply well_formed_update|now rewrite update_save_file].
  - split; [now apply (well_formed_same_notebook s)|exact Hf].
  - split; [now apply (well_formed_same_notebook s)|exact Hf].
  - split; [now apply (well_formed_same_notebook s)|exact Hf].
  - split; [now apply (well_formed_same_notebook s)|exact Hf].
  - split; [|now rewrite save_page_save_file].
    destruct (save_page_spec s p IH) as (s1 & -> & Hwf & _). exact Hwf.
  - rewrite (save_then_load s fs Hf). cbn [fst].
    split; [now apply (well_formed_same_notebook s)|reflexivity].
Qed.

Lemma played_well_formed_witness :
  well_formed sample_state /\ save_file sample_state = save_file init.
Proof.
  apply (played_well_formed sample_state).
  apply played_case_files, played_intro_shown, played_advance, played_new.
Defined.
